(** * Model lifecycle manager and gateway of the Ollama-compatible servers

    A shallow embedding of

      - [lmdeploy-server/app/config.py]         (module [Config]),
      - [lmdeploy-server/app/model_manager.py]  (module [LMDeploy]),
      - [lmdeploy-server/app/server.py]         (module [Gateway]),
      - [vllm-server/model_manager.py]          (module [VLLM]),
      - [vllm-server/server.py]                 (shares [Gateway]: the two
        server files differ in names and log texts only),

    followed by the vocabulary of the statements and by the verification
    of the properties the specification states about the code.

    Conventions of the embedding.

      - A Python [dict] is a [gmap]; [k in d] is [is_Some (d !! k)],
        [d[k] = v] is [<[k:=v]> d], [del d[k]] raises [KeyError] when
        [k] is absent, [d.get(k, x)] is [default x (d !! k)]. The order
        in which a [dict] is iterated is not kept; nothing below
        depends on it.
      - A [str] is a [string] whose characters are the code points
        below U+0100.
      - [time.time()] returns a binary64 float; the value read by a call
        is an argument [now] of the function that reads it (every path
        through [load_model] reads the clock at most once).
      - Exceptions are values of [exn]; a computation that may raise
        returns [res]. Only the [Exception] hierarchy is modelled, which
        is what the [except Exception] clauses of the source catch.
      - Calls to [logger] do not touch the manager and are left out.
      - A coroutine runs without interruption between two [await]s that
        suspend it; [load_model] is cut at exactly those points. *)

From Stdlib Require Import ZArith String Ascii List Floats Lia.
From stdpp Require Import gmap strings list fin_maps pretty.

(* 0.8 and 0.9 are read as the nearest binary64 values, as Python reads them *)
Set Warnings "-inexact-float,-register-all".

Local Open Scope string_scope.
Local Open Scope Z_scope.

(** ** Python values, exceptions, generators *)

(** The values that appear in keyword arguments, registry entries and
    engine configurations. *)
Inductive value :=
| VNone
| VInt (z : Z)
| VFloat (f : float)
| VStr (s : string)
| VList (vs : list value).

(** [d.get(k, dflt)] *)
Definition dict_get (d : gmap string value) (k : string) (dflt : value) : value :=
  default dflt (d !! k).

Inductive exn :=
| KeyError (key : string)
| TypeError (msg : string)
| RuntimeError (msg : string)
| HTTPException (status_code : Z) (detail : string).

Inductive res (A : Type) :=
| Ret (a : A)
| Raise (e : exn).
Arguments Ret {A} a.
Arguments Raise {A} e.

(** How an iteration ends: the iterator is exhausted, it raises, or it
    never produces its next item. *)
Inductive ending :=
| Exhausted
| Raised (e : exn)
| Blocked.

(** A finite run of a generator: the items it yields, then its ending. *)
Record gen (A : Type) := Gen { yielded : list A; finish : ending }.
Arguments Gen {A} yielded finish.
Arguments yielded {A} g.
Arguments finish {A} g.

(** [str(e)]. For the HTTP exception this is Starlette's
    ["{status_code}: {detail}"]. *)
Definition str_exn (e : exn) : string :=
  match e with
  | KeyError key => "'" +:+ key +:+ "'"
  | TypeError msg => msg
  | RuntimeError msg => msg
  | HTTPException status_code detail => pretty status_code +:+ ": " +:+ detail
  end.

(** ** The backend objects

    What the manager sees of a pipeline (LMDeploy) or engine (vLLM):
    its identity and the outcome of the methods the manager calls. *)

(** One element of the list a pipeline returns: an object with a
    [.text] attribute, a plain [str], or anything else (with its
    [str(...)] rendering). *)
Inductive result :=
| RText (text : string)
| RStr (s : string)
| ROther (repr : string).

(** One item of the stream a vLLM engine generates. *)
Record RequestOutput := {
  outputs : list string;
  finished : bool;
}.

Record handle := Handle {
  hid : nat;
  (** [None]: the object has no [close] attribute *)
  close : option (res unit);
  (** [pipe([prompt], gen_config=generation_config)] *)
  infer : string -> option (gmap string value) -> res (list result);
  (** [pipe.stream_infer([prompt], gen_config=generation_config)] *)
  stream_infer : string -> option (gmap string value) -> gen (list result);
  (** [engine.generate(prompt, sampling_params)] *)
  generate : string -> option (gmap string value) -> gen RequestOutput;
}.

(** ** The manager's state ([ModelManager.__init__]) *)

Record Manager := mkManager {
  _models : gmap string handle;
  _model_configs : gmap string (gmap string value);
  _last_used : gmap string float;
  (** an [asyncio.Lock] per identifier; [true] when it is held *)
  _loading_locks : gmap string bool;
}.

Definition new_manager : Manager := mkManager ∅ ∅ ∅ ∅.

Definition set_models (f : gmap string handle -> gmap string handle) (m : Manager) : Manager :=
  mkManager (f (_models m)) (_model_configs m) (_last_used m) (_loading_locks m).
Definition set_model_configs
  (f : gmap string (gmap string value) -> gmap string (gmap string value)) (m : Manager) : Manager :=
  mkManager (_models m) (f (_model_configs m)) (_last_used m) (_loading_locks m).
Definition set_last_used (f : gmap string float -> gmap string float) (m : Manager) : Manager :=
  mkManager (_models m) (_model_configs m) (f (_last_used m)) (_loading_locks m).
Definition set_loading_locks (f : gmap string bool -> gmap string bool) (m : Manager) : Manager :=
  mkManager (_models m) (_model_configs m) (_last_used m) (f (_loading_locks m)).

(** The handle cache, the configuration map and the timestamp map hold
    the same identifiers. *)
Definition same_keys (m : Manager) : Prop :=
  dom (_models m) = dom (_model_configs m) ∧ dom (_models m) = dom (_last_used m).

(** ** Methods as state transformers that may raise *)

Definition M (A : Type) : Type := Manager -> res A * Manager.

Definition ret {A} (a : A) : M A := fun m => (Ret a, m).
Definition raise {A} (e : exn) : M A := fun m => (Raise e, m).
Definition bind {A B} (c : M A) (k : A -> M B) : M B :=
  fun m => match c m with
           | (Ret a, m') => k a m'
           | (Raise e, m') => (Raise e, m')
           end.
(** [try: c  except Exception as e: h e] *)
Definition try_except {A} (c : M A) (h : exn -> M A) : M A :=
  fun m => match c m with
           | (Ret a, m') => (Ret a, m')
           | (Raise e, m') => h e m'
           end.
Definition get : M Manager := fun m => (Ret m, m).
Definition modify (f : Manager -> Manager) : M unit := fun m => (Ret tt, f m).
(** lift a call that does not touch the manager *)
Definition call {A} (r : res A) : M A := fun m => (r, m).

(** The monad structure, for stdpp's [x ← c; k] and [c ;; k]. *)
#[global] Instance M_ret : MRet M := @ret.
#[global] Instance M_bind : MBind M := fun A B k c => bind c k.

(** [for x in xs: body x] *)
Fixpoint for_each {A} (xs : list A) (body : A -> M unit) : M unit :=
  match xs with
  | [] => ret tt
  | x :: xs' => body x ;; for_each xs' body
  end.

(** [del self._models[k]] and its two siblings *)
Definition del_models (k : string) : M unit :=
  m ← get;
  match _models m !! k with
  | Some _ => modify (set_models (delete k))
  | None => raise (KeyError k)
  end.
Definition del_model_configs (k : string) : M unit :=
  m ← get;
  match _model_configs m !! k with
  | Some _ => modify (set_model_configs (delete k))
  | None => raise (KeyError k)
  end.
Definition del_last_used (k : string) : M unit :=
  m ← get;
  match _last_used m !! k with
  | Some _ => modify (set_last_used (delete k))
  | None => raise (KeyError k)
  end.

(** [current_time - last_used > max_idle_time], in float arithmetic.
    [max_idle_time] is given by its float value. *)
Definition idle_exceeds (current_time last_used max_idle_time : float) : bool :=
  PrimFloat.ltb max_idle_time (PrimFloat.sub current_time last_used).

(** The loop of [cleanup_unused_models] that collects [to_unload]. *)
Definition collect_idle (current_time max_idle_time : float) (m : Manager) : list string :=
  (filter (fun kv => idle_exceeds current_time kv.2 max_idle_time = true)
          (map_to_list (_last_used m))).*1.

(** ** Coroutines of the event loop

    [load_model] is a coroutine. Between two suspensions it runs
    alone on the event loop; it can be suspended in
    [async with self._loading_locks[model_name]] (only when the lock
    is held: [asyncio.Lock.acquire] returns at once on a free lock)
    and in [await loop.run_in_executor(...)].

    A released lock may be taken by any coroutine that wants it;
    [asyncio] hands it to the one that has waited longest, which is one
    of the orders allowed here. The constructor runs in a thread of the
    executor and is taken to finish: a coroutine that waits for it can
    be resumed, and is then given its outcome. *)

(** What the backend's constructor does when it is called. *)
Inductive outcome :=
| Built (h : handle)
| BuiltNone
| Failed (e : exn).

(** Where a [load_model] call stands. *)
Inductive task :=
| Created
| AwaitLock
| AwaitPipeline (model_config : gmap string value) (pending : outcome)
| Returned (r : option handle).

(** The arguments of a [load_model] call. *)
Record invocation := Invoke {
  model_name : string;
  kwargs : gmap string value;
}.

(** The manager together with the constructor calls made so far
    (latest first), each with the identifier and the configuration it
    was given. *)
Record World (C : Type) := mkWorld {
  manager : Manager;
  constructed : list (string * C);
}.
Arguments mkWorld {C} manager constructed.
Arguments manager {C} w.
Arguments constructed {C} w.

Definition on_manager {C} (f : Manager -> Manager) (w : World C) : World C :=
  mkWorld (f (manager w)) (constructed w).

(** The lock of [name] is held. *)
Definition held (name : string) (m : Manager) : bool :=
  bool_decide (_loading_locks m !! name = Some true).
(** [if model_name not in self._loading_locks: ... = asyncio.Lock()] *)
Definition ensure_lock (name : string) (m : Manager) : Manager :=
  match _loading_locks m !! name with
  | Some _ => m
  | None => set_loading_locks <[name := false]> m
  end.
Definition acquire (name : string) (m : Manager) : Manager :=
  set_loading_locks <[name := true]> m.
Definition release (name : string) (m : Manager) : Manager :=
  set_loading_locks <[name := false]> m.

(** [self._last_used[model_name] = time.time(); return self._models[model_name]]
    under [if model_name in self._models] *)
Definition cached (now : float) (name : string) (m : Manager) : option (handle * Manager) :=
  match _models m !! name with
  | Some h => Some (h, set_last_used <[name := now]> m)
  | None => None
  end.

(** The three assignments under [# Cache the model]. *)
Definition cache_model (now : float) (name : string) (h : handle)
    (model_config : gmap string value) (m : Manager) : Manager :=
  set_last_used <[name := now]>
    (set_model_configs <[name := model_config]>
       (set_models <[name := h]> m)).

(** A pool of coroutines and a schedule: which coroutine the event loop
    resumes next, and what the clock shows then. A coroutine that cannot
    run (it waits for a held lock, or it has returned) is left alone. *)
Section Scheduler.
Context {W : Type}.
Variable step : float -> invocation -> task -> W -> option (task * W).

Definition resume (now : float) (i : nat) (ts : list (invocation * task)) (w : W)
    : list (invocation * task) * W :=
  match ts !! i with
  | Some (inv, t) =>
      match step now inv t w with
      | Some (t', w') => (<[i := (inv, t')]> ts, w')
      | None => (ts, w)
      end
  | None => (ts, w)
  end.

Fixpoint run (sched : list (nat * float)) (ts : list (invocation * task)) (w : W)
    : list (invocation * task) * W :=
  match sched with
  | [] => (ts, w)
  | (i, now) :: sched' =>
      let '(ts', w') := resume now i ts w in run sched' ts' w'
  end.

(** A single call on an otherwise idle event loop: [Some] when the call
    returns (a coroutine is resumed at most twice), [None] when it waits
    for a lock nobody will release. *)
Definition await_call (now : float) (inv : invocation) (w : W)
    : option (option handle * W) :=
  match run [(0%nat, now); (0%nat, now)] [(inv, Created)] w with
  | ([(_, Returned r)], w') => Some (r, w')
  | _ => None
  end.
End Scheduler.

Definition is_returned (t : task) : bool :=
  match t with Returned _ => true | _ => false end.
Definition all_returned (ts : list (invocation * task)) : bool :=
  forallb (fun it => is_returned it.2) ts.

(** ** [lmdeploy-server/app/config.py] *)
Module Config.

Record ServerConfig := {
  host : string;
  port : Z;
  default_model : string;
  max_model_len : Z;
  max_num_seqs : Z;
  tensor_parallel_size : Z;
  gpu_memory_utilization : float;
  api_timeout : Z;
  enable_streaming : bool;
  enable_batching : bool;
  batch_size : Z;
}.

(** The settings when the environment overrides nothing. *)
Definition defaults : ServerConfig := {|
  host := "127.0.0.1";
  port := 11435;
  default_model := "TheBloke/deepseek-coder-1.3b-instruct-AWQ";
  max_model_len := 2048;
  max_num_seqs := 256;
  tensor_parallel_size := 1;
  gpu_memory_utilization := 0.9%float;
  api_timeout := 300;
  enable_streaming := true;
  enable_batching := true;
  batch_size := 8;
|}.

Definition entry (len tp : Z) (use_case description : string) : gmap string value :=
  list_to_map [("max_model_len", VInt len); ("tensor_parallel_size", VInt tp);
               ("use_case", VStr use_case); ("description", VStr description)].

Definition SUPPORTED_MODELS : list (string * gmap string value) :=
  [("microsoft/DialoGPT-medium",
     entry 1024 1 "chat" "Microsoft DialoGPT medium model for conversation");
   ("TheBloke/deepseek-coder-1.3b-instruct-AWQ",
     entry 2048 1 "code" "DeepSeek Coder 1.3B model for code generation");
   ("meta-llama/Llama-2-7b-chat-hf",
     entry 4096 1 "chat" "Llama 2 7B chat model");
   ("mistralai/Mistral-7B-Instruct-v0.1",
     entry 8192 1 "instruction" "Mistral 7B instruction-following model");
   ("codellama/CodeLlama-7b-Python-hf",
     entry 4096 1 "code" "Code Llama 7B Python specialist")].

Definition lookup_model (model_name : string) : option (gmap string value) :=
  (list_to_map SUPPORTED_MODELS : gmap string (gmap string value)) !! model_name.

Definition get_model_config (model_name : string) : gmap string value :=
  default (entry 2048 1 "general" ("Custom model: " +:+ model_name))
          (lookup_model model_name).

Definition list_supported_models : list string := SUPPORTED_MODELS.*1.

End Config.

(** ** [lmdeploy-server/app/model_manager.py] *)
Module LMDeploy.

(** [TurbomindEngineConfig(session_len=..., max_batch_size=..., tp=...,
    cache_max_entry_count=...)] *)
Record EngineConfig := {
  session_len : value;
  max_batch_size : value;
  tp : value;
  cache_max_entry_count : value;
}.

(** What the module finds when it is imported: whether [lmdeploy] is
    there ([pipeline] and [TurbomindEngineConfig] are [None] exactly when
    it is not), the settings read from the environment, and what
    [pipeline(model_name, backend_config=engine_config)] does on its
    k-th call, k counted from 0. *)
Record Env := {
  LMDEPLOY_AVAILABLE : bool;
  config : Config.ServerConfig;
  pipeline : nat -> string -> EngineConfig -> outcome;
}.

Section Manager.
Variable E : Env.

Definition TurbomindEngineConfig_is_None : bool := negb (LMDEPLOY_AVAILABLE E).
Definition pipeline_is_None : bool := negb (LMDEPLOY_AVAILABLE E).

Definition engine_config (kwargs model_config : gmap string value) : EngineConfig := {|
  session_len :=
    dict_get kwargs "max_model_len"
      (dict_get model_config "max_model_len" (VInt (Config.max_model_len (config E))));
  max_batch_size :=
    dict_get kwargs "max_num_seqs" (VInt (Config.max_num_seqs (config E)));
  tp :=
    dict_get kwargs "tensor_parallel_size"
      (dict_get model_config "tensor_parallel_size"
         (VInt (Config.tensor_parallel_size (config E))));
  cache_max_entry_count :=
    dict_get kwargs "cache_max_entry_count" (VFloat 0.8%float);
|}.

(** The body of [async with], from the double-check to the point where
    the coroutine waits for the executor. Leaving the [async with]
    releases the lock. *)
Definition locked_body (now : float) (inv : invocation) (w : World EngineConfig)
    : task * World EngineConfig :=
  let name := model_name inv in
  match cached now name (manager w) with
  | Some (h, m') => (Returned (Some h), mkWorld (release name m') (constructed w))
  | None =>
      let model_config := Config.get_model_config name in
      if LMDEPLOY_AVAILABLE E then
        if TurbomindEngineConfig_is_None then
          (Returned None, on_manager (release name) w)
        else
          let cfg := engine_config (kwargs inv) model_config in
          if pipeline_is_None then
            (Returned None, on_manager (release name) w)
          else
            (AwaitPipeline model_config (pipeline E (length (constructed w)) name cfg),
             mkWorld (manager w) ((name, cfg) :: constructed w))
      else (Returned None, on_manager (release name) w)
  end.

(** From the call to the first suspension. *)
Definition start (now : float) (inv : invocation) (w : World EngineConfig)
    : task * World EngineConfig :=
  let name := model_name inv in
  if negb (LMDEPLOY_AVAILABLE E) then (Returned None, w)
  else
    match cached now name (manager w) with
    | Some (h, m') => (Returned (Some h), mkWorld m' (constructed w))
    | None =>
        let w1 := on_manager (ensure_lock name) w in
        if held name (manager w1) then (AwaitLock, w1)
        else locked_body now inv (on_manager (acquire name) w1)
    end.

(** After [pipe = await loop.run_in_executor(None, safe_pipeline)]. *)
Definition finish_load (now : float) (inv : invocation)
    (model_config : gmap string value) (o : outcome) (w : World EngineConfig)
    : task * World EngineConfig :=
  let name := model_name inv in
  match o with
  | Built pipe =>
      (Returned (Some pipe),
       on_manager (fun m => release name (cache_model now name pipe model_config m)) w)
  | BuiltNone => (Returned None, on_manager (release name) w)
  | Failed _ => (Returned None, on_manager (release name) w)
  end.

(** One uninterrupted stretch of [load_model]. *)
Definition load_model_step (now : float) (inv : invocation) (t : task)
    (w : World EngineConfig) : option (task * World EngineConfig) :=
  match t with
  | Created => Some (start now inv w)
  | AwaitLock =>
      if held (model_name inv) (manager w) then None
      else Some (locked_body now inv (on_manager (acquire (model_name inv)) w))
  | AwaitPipeline model_config o => Some (finish_load now inv model_config o w)
  | Returned _ => None
  end.

(** [await model_manager.load_model(model_name, **kwargs)] with no other
    coroutine around. *)
Definition load_model (now : float) (name : string) (kwargs : gmap string value)
    (w : World EngineConfig) : option (option handle * World EngineConfig) :=
  await_call load_model_step now (Invoke name kwargs) w.

(** [pipe.close()] when the attribute exists *)
Definition close_if_present (pipe : handle) : M unit :=
  match close pipe with
  | Some r => call r
  | None => mret tt
  end.

Definition unload_model (model_name : string) : M bool :=
  m ← get;
  match _models m !! model_name with
  | Some pipe =>
      try_except (close_if_present pipe) (fun _ => mret tt) ;;
      del_models model_name ;;
      del_model_configs model_name ;;
      del_last_used model_name ;;
      mret true
  | None => mret false
  end.

Definition cleanup_unused_models (current_time max_idle_time : float) : M unit :=
  m ← get;
  let to_unload := collect_idle current_time max_idle_time m in
  for_each to_unload (fun model_name => unload_model model_name ;; mret tt).

Definition GenerationConfig_is_None : bool := negb (LMDEPLOY_AVAILABLE E).

(** [GenerationConfig(temperature=0.7, top_p=0.9, max_new_tokens=512)] *)
Definition default_generation_config : gmap string value :=
  list_to_map [("temperature", VFloat 0.7%float); ("top_p", VFloat 0.9%float);
               ("max_new_tokens", VInt 512)].

(** The block [if generation_config is None: ...] of [generate_text]
    and [generate_stream]: [inl tt] when it returns [None] from the
    method, else the configuration to go on with. *)
Definition fill_generation_config (generation_config : option (gmap string value))
    : unit + option (gmap string value) :=
  match generation_config with
  | Some c => inr (Some c)
  | None =>
      if LMDEPLOY_AVAILABLE E then
        if GenerationConfig_is_None then inl tt
        else inr (Some default_generation_config)
      else inr None
  end.

(** [result.text], [result] or [str(result)] *)
Definition text_of (r : result) : string :=
  match r with
  | RText text => text
  | RStr s => s
  | ROther repr => repr
  end.

(** The outer [option] is [None] when the call never returns. *)
Definition generate_text (now : float) (model_name prompt : string)
    (generation_config : option (gmap string value)) (kwargs : gmap string value)
    (w : World EngineConfig) : option (option string * World EngineConfig) :=
  if negb (LMDEPLOY_AVAILABLE E) then Some (None, w)
  else
    match load_model now model_name kwargs w with
    | None => None
    | Some (None, w') => Some (None, w')
    | Some (Some pipe, w') =>
        match fill_generation_config generation_config with
        | inl _ => Some (None, w')
        | inr generation_config =>
            match infer pipe prompt generation_config with
            | Ret (result :: _) => Some (Some (text_of result), w')
            | Ret [] => Some (None, w')
            | Raise _ => Some (None, w')
            end
        end
    end.

(** [sync_stream]: the texts of the non-empty outputs; an exception of
    [stream_infer] is logged and ends the generator. *)
Definition sync_stream (pipe : handle) (prompt : string)
    (generation_config : option (gmap string value)) : gen string :=
  let outputs := stream_infer pipe prompt generation_config in
  Gen (omap (fun output => text_of <$> head output) (yielded outputs))
      match finish outputs with
      | Exhausted => Exhausted
      | Raised _ => Exhausted
      | Blocked => Blocked
      end.

(** What travels through [result_queue]. *)
Inductive item :=
| Chunk (chunk : string)
| Done
| Error (msg : string).

(** [run_stream], by what it puts into the queue. *)
Definition run_stream (chunks : gen string) : list item :=
  (map Chunk (yielded chunks) ++
   match finish chunks with
   | Exhausted => [Done]
   | Raised e => [Error (str_exn e)]
   | Blocked => []
   end)%list.

(** The loop [while True: ... await loop.run_in_executor(None,
    result_queue.get)] of [stream_generator]. *)
Fixpoint drain (queue : list item) : gen string :=
  match queue with
  | [] => Gen [] Blocked
  | Chunk item_value :: queue' =>
      let rest := drain queue' in
      Gen (item_value :: yielded rest) (finish rest)
  | Done :: _ => Gen [] Exhausted
  | Error _ :: _ => Gen [] Exhausted
  end.

Definition stream_generator (pipe : handle) (prompt : string)
    (generation_config : option (gmap string value)) : gen string :=
  drain (run_stream (sync_stream pipe prompt generation_config)).

Definition generate_stream (now : float) (model_name prompt : string)
    (generation_config : option (gmap string value)) (kwargs : gmap string value)
    (w : World EngineConfig) : option (option (gen string) * World EngineConfig) :=
  if negb (LMDEPLOY_AVAILABLE E) then Some (None, w)
  else
    match load_model now model_name kwargs w with
    | None => None
    | Some (None, w') => Some (None, w')
    | Some (Some pipe, w') =>
        match fill_generation_config generation_config with
        | inl _ => Some (None, w')
        | inr generation_config =>
            Some (Some (stream_generator pipe prompt generation_config), w')
        end
    end.

Definition list_loaded_models (m : Manager) : list string :=
  (map_to_list (_models m)).*1.

Record SystemStatus := {
  lmdeploy_available : bool;
  loaded_models : nat;
  model_list : list string;
  supported_models : list string;
}.

Definition get_system_status (m : Manager) : SystemStatus := {|
  lmdeploy_available := LMDEPLOY_AVAILABLE E;
  loaded_models := size (_models m);
  model_list := list_loaded_models m;
  supported_models := Config.list_supported_models;
|}.

(** The dictionary [get_model_info] returns. *)
Record ModelInfo := {
  info_name : string;
  info_config : gmap string value;
  info_last_used : float;
  info_loaded : bool;
}.

(** [self._last_used[model_name]] raises [KeyError] on a missing key. *)
Definition get_model_info (model_name : string) (m : Manager) : res (option ModelInfo) :=
  match _model_configs m !! model_name with
  | Some model_config =>
      match _last_used m !! model_name with
      | Some last_used =>
          Ret (Some {| info_name := model_name; info_config := model_config;
                       info_last_used := last_used; info_loaded := true |})
      | None => Raise (KeyError model_name)
      end
  | None => Ret None
  end.

End Manager.
End LMDeploy.

(** ** [vllm-server/model_manager.py]

    [vllm-server/config.py] is not among the sources: the settings
    object and the registry it exports are taken from the environment
    [Env] below. Its settings carry the fields the manager reads, which
    have the names of [Config.ServerConfig]. *)
Module VLLM.

(** The fields [load_model] passes to [AsyncEngineArgs] by name, and the
    remaining keyword arguments. *)
Record EngineArgs := {
  model : string;
  max_model_len : value;
  max_num_seqs : value;
  tensor_parallel_size : value;
  gpu_memory_utilization : value;
  more : gmap string value;
}.

(** [AsyncLLMEngine.from_engine_args] returns an engine or raises; its
    k-th call is told apart by k. *)
Record Env := {
  VLLM_AVAILABLE : bool;
  config : Config.ServerConfig;
  get_model_config : string -> gmap string value;
  from_engine_args : nat -> EngineArgs -> res handle;
}.

Section Manager.
Variable E : Env.

(** The keywords the call site of [AsyncEngineArgs] writes out. *)
Definition named_keywords : list string :=
  ["model"; "max_model_len"; "max_num_seqs"; "tensor_parallel_size";
   "gpu_memory_utilization"].

(** [AsyncEngineArgs(model=..., max_model_len=..., ..., **kwargs)]:
    a keyword given both by name and through [**kwargs] is a
    [TypeError] of the call itself. *)
Definition AsyncEngineArgs (name : string) (kwargs model_config : gmap string value)
    : res EngineArgs :=
  match filter (fun k => is_Some (kwargs !! k)) named_keywords with
  | k :: _ => Raise (TypeError ("got multiple values for keyword argument '" +:+ k +:+ "'"))
  | [] =>
      Ret {|
        model := name;
        max_model_len :=
          dict_get kwargs "max_model_len"
            (dict_get model_config "max_model_len" (VInt (Config.max_model_len (config E))));
        max_num_seqs :=
          dict_get kwargs "max_num_seqs" (VInt (Config.max_num_seqs (config E)));
        tensor_parallel_size :=
          dict_get kwargs "tensor_parallel_size"
            (dict_get model_config "tensor_parallel_size"
               (VInt (Config.tensor_parallel_size (config E))));
        gpu_memory_utilization :=
          dict_get kwargs "gpu_memory_utilization"
            (VFloat (Config.gpu_memory_utilization (config E)));
        more := kwargs;
      |}
  end.

(** The body of [async with]: nothing in it suspends the coroutine. *)
Definition locked_body (now : float) (inv : invocation) (w : World EngineArgs)
    : task * World EngineArgs :=
  let name := model_name inv in
  match cached now name (manager w) with
  | Some (h, m') => (Returned (Some h), mkWorld (release name m') (constructed w))
  | None =>
      let model_config := get_model_config E name in
      match AsyncEngineArgs name (kwargs inv) model_config with
      | Raise _ => (Returned None, on_manager (release name) w)
      | Ret engine_args =>
          match from_engine_args E (length (constructed w)) engine_args with
          | Ret engine =>
              (Returned (Some engine),
               mkWorld (release name (cache_model now name engine model_config (manager w)))
                       ((name, engine_args) :: constructed w))
          | Raise _ =>
              (Returned None,
               mkWorld (release name (manager w)) ((name, engine_args) :: constructed w))
          end
      end
  end.

Definition start (now : float) (inv : invocation) (w : World EngineArgs)
    : task * World EngineArgs :=
  let name := model_name inv in
  if negb (VLLM_AVAILABLE E) then (Returned None, w)
  else
    match cached now name (manager w) with
    | Some (h, m') => (Returned (Some h), mkWorld m' (constructed w))
    | None =>
        let w1 := on_manager (ensure_lock name) w in
        if held name (manager w1) then (AwaitLock, w1)
        else locked_body now inv (on_manager (acquire name) w1)
    end.

Definition load_model_step (now : float) (inv : invocation) (t : task)
    (w : World EngineArgs) : option (task * World EngineArgs) :=
  match t with
  | Created => Some (start now inv w)
  | AwaitLock =>
      if held (model_name inv) (manager w) then None
      else Some (locked_body now inv (on_manager (acquire (model_name inv)) w))
  | AwaitPipeline _ _ => None
  | Returned _ => None
  end.

Definition load_model (now : float) (name : string) (kwargs : gmap string value)
    (w : World EngineArgs) : option (option handle * World EngineArgs) :=
  await_call load_model_step now (Invoke name kwargs) w.

Definition unload_model (model_name : string) : M bool :=
  m ← get;
  match _models m !! model_name with
  | Some _ =>
      del_models model_name ;;
      del_model_configs model_name ;;
      del_last_used model_name ;;
      mret true
  | None => mret false
  end.

Definition cleanup_unused_models (current_time max_idle_time : float) : M unit :=
  m ← get;
  let to_unload := collect_idle current_time max_idle_time m in
  for_each to_unload (fun model_name => unload_model model_name ;; mret tt).

(** [stream_generator] of [generate_stream]: the non-empty texts of
    each item, up to and including the first finished one. An
    exception of the engine's stream is not caught here. *)
Fixpoint stream_items (results : list RequestOutput) (ending : ending) : gen string :=
  match results with
  | [] => Gen [] ending
  | request_output :: results' =>
      let texts := filter (fun text => text <> "") (outputs request_output) in
      if finished request_output then Gen texts Exhausted
      else
        let rest := stream_items results' ending in
        Gen (texts ++ yielded rest)%list (finish rest)
  end.

Definition stream_generator (engine : handle) (prompt : string)
    (sampling_params : option (gmap string value)) : gen string :=
  let results := generate engine prompt sampling_params in
  stream_items (yielded results) (finish results).

(** [SamplingParams(temperature=0.7, top_p=0.9, max_tokens=512)] *)
Definition default_sampling_params : gmap string value :=
  list_to_map [("temperature", VFloat 0.7%float); ("top_p", VFloat 0.9%float);
               ("max_tokens", VInt 512)].

(** The loop [async for request_output in results] of [generate_text]:
    [Some r] when the method returns [r], [None] when it never does.
    [request_output.outputs[0]] raises [IndexError] on an empty list,
    which [except Exception] turns into [None], as it does an exception
    of the stream; a stream that ends with no finished item lets the
    method fall off its end, which returns [None]. *)
Fixpoint first_finished (results : list RequestOutput) (ending : ending)
    : option (option string) :=
  match results with
  | [] =>
      match ending with
      | Exhausted => Some None
      | Raised _ => Some None
      | Blocked => None
      end
  | request_output :: results' =>
      if finished request_output then Some (head (outputs request_output))
      else first_finished results' ending
  end.

Definition generate_text (now : float) (model_name prompt : string)
    (sampling_params : option (gmap string value)) (kwargs : gmap string value)
    (w : World EngineArgs) : option (option string * World EngineArgs) :=
  if negb (VLLM_AVAILABLE E) then Some (None, w)
  else
    match load_model now model_name kwargs w with
    | None => None
    | Some (None, w') => Some (None, w')
    | Some (Some engine, w') =>
        let sampling_params :=
          match sampling_params with
          | Some p => p
          | None => default_sampling_params
          end in
        let results := generate engine prompt (Some sampling_params) in
        match first_finished (yielded results) (finish results) with
        | Some r => Some (r, w')
        | None => None
        end
    end.

Definition generate_stream (now : float) (model_name prompt : string)
    (sampling_params : option (gmap string value)) (kwargs : gmap string value)
    (w : World EngineArgs) : option (option (gen string) * World EngineArgs) :=
  if negb (VLLM_AVAILABLE E) then Some (None, w)
  else
    match load_model now model_name kwargs w with
    | None => None
    | Some (None, w') => Some (None, w')
    | Some (Some engine, w') =>
        let sampling_params :=
          match sampling_params with
          | Some p => p
          | None => default_sampling_params
          end in
        Some (Some (stream_generator engine prompt (Some sampling_params)), w')
    end.

Definition list_loaded_models (m : Manager) : list string :=
  (map_to_list (_models m)).*1.

End Manager.
End VLLM.

(** ** [lmdeploy-server/app/server.py]

    [vllm-server/server.py] is the same text with the names of the other
    backend. A response object is kept as a record; the source prints it
    with [.json()] and a newline. *)
Module Gateway.

Record ChatMessage := {
  role : string;
  content : string;
}.

(** The fields of [GenerateResponse] the endpoints set; the others
    ([context], [load_duration], [prompt_eval_count],
    [prompt_eval_duration]) are always [None]. *)
Record GenerateResponse := {
  model : string;
  created_at : string;
  response : string;
  done : bool;
  total_duration : option Z;
  eval_count : option nat;
  eval_duration : option Z;
}.

(** The line feed. *)
Definition LF : string := String (ascii_of_nat 10) "".

(** [sep.join(parts)] *)
Definition join (sep : string) (parts : list string) : string :=
  String.concat sep parts.

(** The body of [for message in messages]: a message with another
    role adds nothing. *)
Definition add_part (prompt_parts : list string) (message : ChatMessage) : list string :=
  if decide (role message = "system") then
    (prompt_parts ++ ["System: " +:+ content message])%list
  else if decide (role message = "user") then
    (prompt_parts ++ ["User: " +:+ content message])%list
  else if decide (role message = "assistant") then
    (prompt_parts ++ ["Assistant: " +:+ content message])%list
  else prompt_parts.

Definition format_prompt_from_messages (messages : list ChatMessage) : string :=
  let prompt_parts := foldl add_part [] messages in
  join LF prompt_parts +:+ LF +:+ "Assistant: ".

(** [c.isspace()] for a character below U+0100. *)
Definition isspace (c : ascii) : bool :=
  let n := nat_of_ascii c in
  ((9 <=? n) && (n <=? 13) || (28 <=? n) && (n <=? 32)
   || (n =? 133) || (n =? 160))%nat.

(** [s.split()]: the maximal runs of characters that are not white
    space. [word] is the run being read. *)
Fixpoint split_from (word s : string) : list string :=
  match s with
  | EmptyString => if decide (word = "") then [] else [word]
  | String c s' =>
      if isspace c then
        if decide (word = "") then split_from "" s'
        else word :: split_from "" s'
      else split_from (word +:+ String c "") s'
  end.
Definition split (s : string) : list string := split_from "" s.

(** What the endpoint reads off the clock: the text of
    [datetime.now().isoformat()] for the n-th object it builds, and the
    value of [int((time.time() - start_time) * 1000)] at the end. *)
Record Clock := {
  isoformat_now : nat -> string;
  elapsed_ms : Z;
}.

Section Endpoints.
Variable E : LMDeploy.Env.
Variable clock : Clock.

(** [create_generation_config(options)]; [None] when the backend is
    not there. *)
Definition create_generation_config (options : gmap string value)
    : option (gmap string value) :=
  if negb (LMDeploy.LMDEPLOY_AVAILABLE E) || LMDeploy.GenerationConfig_is_None E then None
  else
    Some (list_to_map
            [("temperature", dict_get options "temperature" (VFloat 0.7%float));
             ("top_p", dict_get options "top_p" (VFloat 0.9%float));
             ("top_k", dict_get options "top_k" (VInt 40));
             ("max_new_tokens", dict_get options "num_predict" (VInt 512));
             ("stop_words", dict_get options "stop" (VList []))]).

(** The loop [async for chunk in stream] of [generate_stream]: the
    objects it yields for the chunks, [n] objects having been built
    before, and [full_response] at the end. *)
Fixpoint stream_chunks (model_name : string) (n : nat) (full_response : string)
    (chunks : list string) : list GenerateResponse * string :=
  match chunks with
  | [] => ([], full_response)
  | chunk :: chunks' =>
      let full_response := full_response +:+ chunk in
      let response := {|
        model := model_name;
        created_at := isoformat_now clock n;
        response := chunk;
        done := false;
        total_duration := None;
        eval_count := None;
        eval_duration := None;
      |} in
      let '(rest, full_response) := stream_chunks model_name (S n) full_response chunks' in
      (response :: rest, full_response)
  end.

(** The body of [generate_stream], from the value
    [model_manager.generate_stream] returned: the objects it yields.
    A stream that never ends leaves the response without a last
    object. *)
Definition stream_lines (model_name : string) (stream : option (gen string))
    : list GenerateResponse :=
  match stream with
  | None =>
      [{| model := model_name; created_at := isoformat_now clock 0; response := "";
          done := true; total_duration := Some 0; eval_count := None;
          eval_duration := None |}]
  | Some stream =>
      let '(lines, full_response) := stream_chunks model_name 0 "" (yielded stream) in
      match finish stream with
      | Exhausted =>
          (lines ++
           [{| model := model_name; created_at := isoformat_now clock (length lines);
               response := ""; done := true;
               total_duration := Some (elapsed_ms clock);
               eval_count := Some (length (split full_response));
               eval_duration := Some (elapsed_ms clock) |}])%list
      | Raised e =>
          (lines ++
           [{| model := model_name; created_at := isoformat_now clock (length lines);
               response := "Error: " +:+ str_exn e; done := true;
               total_duration := Some 0; eval_count := None;
               eval_duration := None |}])%list
      | Blocked => lines
      end
  end.

Definition generate_stream (now : float) (model_name prompt : string)
    (generation_config : option (gmap string value)) (w : World LMDeploy.EngineConfig)
    : option (list GenerateResponse * World LMDeploy.EngineConfig) :=
  '(stream, w') ← LMDeploy.generate_stream E now model_name prompt generation_config ∅ w;
  Some (stream_lines model_name stream, w').

Record GenerateRequest := {
  req_model : string;
  req_prompt : string;
  req_stream : bool;
  req_options : option (gmap string value);
}.

(** What an endpoint answers: a JSON object, or a stream of them. *)
Inductive reply :=
| Json (r : GenerateResponse)
| Streaming (lines : list GenerateResponse).

(** [POST /api/generate]. The [HTTPException] raised under [try] is
    caught by [except Exception] and raised again with status 500. *)
Definition generate (now : float) (request : GenerateRequest)
    (w : World LMDeploy.EngineConfig)
    : option (res reply * World LMDeploy.EngineConfig) :=
  if negb (LMDeploy.LMDEPLOY_AVAILABLE E) then
    Some (Raise (HTTPException 503 "LMDeploy not available"), w)
  else
    let generation_config :=
      create_generation_config (default ∅ (req_options request)) in
    if req_stream request then
      '(lines, w') ← generate_stream now (req_model request) (req_prompt request)
                       generation_config w;
      Some (Ret (Streaming lines), w')
    else
      '(response_text, w') ← LMDeploy.generate_text E now (req_model request)
                               (req_prompt request) generation_config ∅ w;
      match response_text with
      | None =>
          let e := HTTPException 500
                     ("Failed to generate text with model " +:+ req_model request) in
          Some (Raise (HTTPException 500 (str_exn e)), w')
      | Some response_text =>
          Some (Ret (Json {|
                  model := req_model request;
                  created_at := isoformat_now clock 0;
                  response := response_text;
                  done := true;
                  total_duration := Some (elapsed_ms clock);
                  eval_count := Some (length (split response_text));
                  eval_duration := Some (elapsed_ms clock) |}), w')
      end.

(** [POST /api/models/load/{model_name}] *)
Definition load_model (now : float) (model_name : string) (w : World LMDeploy.EngineConfig)
    : option (res (string * string) * World LMDeploy.EngineConfig) :=
  '(pipe, w') ← LMDeploy.load_model E now model_name ∅ w;
  match pipe with
  | Some _ =>
      Some (Ret ("success", "Model " +:+ model_name +:+ " loaded successfully"), w')
  | None =>
      let e := HTTPException 500 ("Failed to load model " +:+ model_name) in
      Some (Raise (HTTPException 500 (str_exn e)), w')
  end.

(** [GET /api/status] *)
Definition get_status (w : World LMDeploy.EngineConfig) : LMDeploy.SystemStatus :=
  LMDeploy.get_system_status E (manager w).

(** The fields of [ChatResponse] the endpoints set. *)
Record ChatResponse := {
  chat_model : string;
  chat_created_at : string;
  message : ChatMessage;
  chat_done : bool;
  chat_total_duration : option Z;
  chat_eval_count : option nat;
  chat_eval_duration : option Z;
}.

Record ChatRequest := {
  creq_model : string;
  creq_messages : list ChatMessage;
  creq_stream : bool;
  creq_options : option (gmap string value);
}.

(** The loop [async for chunk in stream] of [chat_stream]. *)
Fixpoint chat_chunks (model_name : string) (n : nat) (full_response : string)
    (chunks : list string) : list ChatResponse * string :=
  match chunks with
  | [] => ([], full_response)
  | chunk :: chunks' =>
      let full_response := full_response +:+ chunk in
      let response := {|
        chat_model := model_name;
        chat_created_at := isoformat_now clock n;
        message := {| role := "assistant"; content := chunk |};
        chat_done := false;
        chat_total_duration := None;
        chat_eval_count := None;
        chat_eval_duration := None;
      |} in
      let '(rest, full_response) := chat_chunks model_name (S n) full_response chunks' in
      (response :: rest, full_response)
  end.

(** The body of [chat_stream], from the value
    [model_manager.generate_stream] returned. *)
Definition chat_lines (model_name : string) (stream : option (gen string))
    : list ChatResponse :=
  match stream with
  | None =>
      [{| chat_model := model_name; chat_created_at := isoformat_now clock 0;
          message := {| role := "assistant"; content := "" |};
          chat_done := true; chat_total_duration := Some 0; chat_eval_count := None;
          chat_eval_duration := None |}]
  | Some stream =>
      let '(lines, full_response) := chat_chunks model_name 0 "" (yielded stream) in
      match finish stream with
      | Exhausted =>
          (lines ++
           [{| chat_model := model_name;
               chat_created_at := isoformat_now clock (length lines);
               message := {| role := "assistant"; content := "" |};
               chat_done := true;
               chat_total_duration := Some (elapsed_ms clock);
               chat_eval_count := Some (length (split full_response));
               chat_eval_duration := Some (elapsed_ms clock) |}])%list
      | Raised e =>
          (lines ++
           [{| chat_model := model_name;
               chat_created_at := isoformat_now clock (length lines);
               message := {| role := "assistant"; content := "Error: " +:+ str_exn e |};
               chat_done := true;
               chat_total_duration := Some 0; chat_eval_count := None;
               chat_eval_duration := None |}])%list
      | Blocked => lines
      end
  end.

Definition chat_stream (now : float) (model_name prompt : string)
    (generation_config : option (gmap string value)) (w : World LMDeploy.EngineConfig)
    : option (list ChatResponse * World LMDeploy.EngineConfig) :=
  '(stream, w') ← LMDeploy.generate_stream E now model_name prompt generation_config ∅ w;
  Some (chat_lines model_name stream, w').

Inductive chat_reply :=
| ChatJson (r : ChatResponse)
| ChatStreaming (lines : list ChatResponse).

(** [POST /api/chat] *)
Definition chat (now : float) (request : ChatRequest)
    (w : World LMDeploy.EngineConfig)
    : option (res chat_reply * World LMDeploy.EngineConfig) :=
  if negb (LMDeploy.LMDEPLOY_AVAILABLE E) then
    Some (Raise (HTTPException 503 "LMDeploy not available"), w)
  else
    let prompt := format_prompt_from_messages (creq_messages request) in
    let generation_config :=
      create_generation_config (default ∅ (creq_options request)) in
    if creq_stream request then
      '(lines, w') ← chat_stream now (creq_model request) prompt generation_config w;
      Some (Ret (ChatStreaming lines), w')
    else
      '(response_text, w') ← LMDeploy.generate_text E now (creq_model request)
                               prompt generation_config ∅ w;
      match response_text with
      | None =>
          let e := HTTPException 500
                     ("Failed to chat with model " +:+ creq_model request) in
          Some (Raise (HTTPException 500 (str_exn e)), w')
      | Some response_text =>
          Some (Ret (ChatJson {|
                  chat_model := creq_model request;
                  chat_created_at := isoformat_now clock 0;
                  message := {| role := "assistant"; content := response_text |};
                  chat_done := true;
                  chat_total_duration := Some (elapsed_ms clock);
                  chat_eval_count := Some (length (split response_text));
                  chat_eval_duration := Some (elapsed_ms clock) |}), w')
      end.

(** [DELETE /api/models/unload/{model_name}]. The [HTTPException] with
    status 404 is raised under [try], so [except Exception] catches it
    and raises one with status 500. *)
Definition unload_model (model_name : string) : M (string * string) :=
  try_except
    (success ← LMDeploy.unload_model model_name;
     if (success : bool) then
       mret ("success", "Model " +:+ model_name +:+ " unloaded successfully")
     else raise (HTTPException 404 ("Model " +:+ model_name +:+ " not found")))
    (fun e => raise (HTTPException 500 (str_exn e))).

(** [startup_event]: [config.default_model] is true when it is not the
    empty string; [None] when the call of [load_model] never returns. *)
Definition startup_event (now : float) (w : World LMDeploy.EngineConfig)
    : option (World LMDeploy.EngineConfig) :=
  let default_model := Config.default_model (LMDeploy.config E) in
  if LMDeploy.LMDEPLOY_AVAILABLE E && negb (bool_decide (default_model = "")) then
    '(_, w') ← LMDeploy.load_model E now default_model ∅ w;
    Some w'
  else Some w.

(** [shutdown_event] *)
Definition shutdown_event : M unit :=
  m ← get;
  for_each (LMDeploy.list_loaded_models m)
           (fun model_name => LMDeploy.unload_model model_name ;; mret tt).

End Endpoints.
End Gateway.

(** * The vocabulary of the statements *)

(** ** The manager with an identifier dropped *)

(** Forget [x] in the cache and in both auxiliary maps. *)
Definition drop (x : string) (m : Manager) : Manager :=
  mkManager (delete x (_models m)) (delete x (_model_configs m))
            (delete x (_last_used m)) (_loading_locks m).

(** Both managers' [unload_model] answer whether the identifier was
    cached and leave the manager with the identifier dropped. *)
Definition unloads (unload_model : string -> M bool) : Prop :=
  forall m x, same_keys m ->
    unload_model x m = (Ret (bool_decide (is_Some (_models m !! x))), drop x m).

Definition drop_all (xs : list string) (m : Manager) : Manager :=
  foldl (fun m x => drop x m) m xs.

(** An entry is idle when its timestamp lies more than
    [max_idle_time] before [current_time]. *)
Definition is_idle (current_time max_idle_time : float) (m : Manager) (x : string) : bool :=
  match _last_used m !! x with
  | Some last_used => idle_exceeds current_time last_used max_idle_time
  | None => false
  end.

(** ** The order of priority of the configuration *)

(** The order of priority the specification describes: the per-call
    override, else the registry entry, else the global default. *)
Definition resolve (override registry : option value) (global : value) : value :=
  match override with
  | Some v => v
  | None =>
      match registry with
      | Some v => v
      | None => global
      end
  end.

(** The constructor did not deliver a pipeline. *)
Definition no_instance (o : outcome) : Prop :=
  match o with Built _ => False | BuiltNone | Failed _ => True end.

(** ** Pools of callers *)

(** How far a coroutine is from returning. *)
Definition rank (t : task) : nat :=
  match t with
  | Created => 2
  | AwaitLock => 1
  | AwaitPipeline _ _ => 1
  | Returned _ => 0
  end.

Definition total_rank (ts : list (invocation * task)) : nat :=
  sum_list (map (fun it => rank it.2) ts).

(** [n] callers of [x], none of which has started. *)
Definition callers (x : string) (kwargs : list (gmap string value))
    : list (invocation * task) :=
  map (fun kw => (Invoke x kw, Created)) kwargs.

Definition for_model (x : string) (ts : list (invocation * task)) : Prop :=
  Forall (fun it => model_name it.1 = x) ts.

(** The three stages a pool of callers of [x] goes through: nobody has
    started to load; one caller holds the lock and waits for the
    constructor while the others have not started or wait for the lock;
    the model is cached and the callers return it one after the other. *)
Inductive phase (x : string) (c0 : list (string * LMDeploy.EngineConfig))
    (ts : list (invocation * task)) (w : World LMDeploy.EngineConfig) : Prop :=
| Idle :
    _models (manager w) !! x = None ->
    held x (manager w) = false ->
    constructed w = c0 ->
    Forall (fun it => it.2 = Created) ts ->
    phase x c0 ts w
| Loading i inv mc h cfg :
    _models (manager w) !! x = None ->
    held x (manager w) = true ->
    constructed w = (x, cfg) :: c0 ->
    ts !! i = Some (inv, AwaitPipeline mc (Built h)) ->
    (forall j it, j <> i -> ts !! j = Some it -> it.2 = Created \/ it.2 = AwaitLock) ->
    phase x c0 ts w
| Loaded h cfg :
    _models (manager w) !! x = Some h ->
    held x (manager w) = false ->
    constructed w = (x, cfg) :: c0 ->
    Forall (fun it => it.2 = Created \/ it.2 = AwaitLock \/ it.2 = Returned (Some h)) ts ->
    phase x c0 ts w.
Arguments Idle {x c0} ts w _ _ _ _.
Arguments Loading {x c0} ts w i inv mc h cfg _ _ _ _ _.
Arguments Loaded {x c0} ts w h cfg _ _ _ _.

(** The callers ask for [x] with keyword arguments [AsyncEngineArgs]
    takes. *)
Definition accepted (V : VLLM.Env) (x : string) (ts : list (invocation * task)) : Prop :=
  Forall (fun it => model_name it.1 = x /\
                    exists args,
                      VLLM.AsyncEngineArgs V x (kwargs it.1) (VLLM.get_model_config V x)
                      = Ret args) ts.

(** The stages of the vLLM manager, whose [load_model] never waits
    while it holds the lock: a model is cached by the step that starts
    to load it. *)
Inductive vphase (x : string) (c0 : list (string * VLLM.EngineArgs))
    (ts : list (invocation * task)) (w : World VLLM.EngineArgs) : Prop :=
| VIdle :
    _models (manager w) !! x = None ->
    held x (manager w) = false ->
    constructed w = c0 ->
    Forall (fun it => it.2 = Created) ts ->
    vphase x c0 ts w
| VLoaded h args :
    _models (manager w) !! x = Some h ->
    held x (manager w) = false ->
    constructed w = (x, args) :: c0 ->
    Forall (fun it => it.2 = Created \/ it.2 = Returned (Some h)) ts ->
    vphase x c0 ts w.
Arguments VIdle {x c0} ts w _ _ _ _.
Arguments VLoaded {x c0} ts w h args _ _ _ _.

(** What single-flight loading of [x] means for a pool of callers that
    starts in world [w] and is driven by [step]: however the event loop
    interleaves the callers,
    - the constructor has been called at most once,
    - no two callers wait for the constructor at once,
    - and, once all callers have returned, the constructor has been
      called exactly once and every caller has returned the same
      handle, which is the cached one;
    and, wherever the callers stand, the event loop can go on so that
    all of them return. *)
Definition single_flight {C}
    (step : float -> invocation -> task -> World C -> option (task * World C))
    (x : string) (kwargs : list (gmap string value)) (w : World C) : Prop :=
  (forall sched,
     let ts' := (run step sched (callers x kwargs) w).1 in
     let w' := (run step sched (callers x kwargs) w).2 in
     (length (constructed w') <= S (length (constructed w)))%nat /\
     (forall i j inv inv' mc mc' o o',
        ts' !! i = Some (inv, AwaitPipeline mc o) ->
        ts' !! j = Some (inv', AwaitPipeline mc' o') -> i = j) /\
     (all_returned ts' = true ->
      exists h cfg,
        constructed w' = (x, cfg) :: constructed w /\
        _models (manager w') !! x = Some h /\
        length ts' = length kwargs /\
        Forall (fun it => it.2 = Returned (Some h)) ts')) /\
  (forall sched, exists more,
     all_returned (run step (sched ++ more) (callers x kwargs) w).1 = true).

Definition round_robin (n : nat) (now : float) : list (nat * float) :=
  map (fun i => (i, now)) (seq 0 n).

(** ** The lines of a prompt *)

(** The role with its first letter in upper case. *)
Definition capitalize (s : string) : string :=
  match s with
  | EmptyString => EmptyString
  | String c s' =>
      let n := nat_of_ascii c in
      String (if ((97 <=? n) && (n <=? 122))%nat then ascii_of_nat (n - 32) else c) s'
  end.

(** A message as a line ["Role: content"]. *)
Definition render (message : Gateway.ChatMessage) : string :=
  capitalize (Gateway.role message) +:+ ": " +:+ Gateway.content message.

Definition known_role (message : Gateway.ChatMessage) : Prop :=
  Gateway.role message = "system" \/ Gateway.role message = "user" \/
  Gateway.role message = "assistant".

Definition status_code_of {A} (r : res A) : option Z :=
  match r with
  | Raise (HTTPException status_code _) => Some status_code
  | _ => None
  end.

(** ** Sample objects for the closed statements *)

(** A pipeline or engine that answers every prompt with [text]. *)
Definition echo (n : nat) (text : string) : handle :=
  Handle n None (fun _ _ => Ret [RText text]) (fun _ _ => Gen [[RText text]] Exhausted)
         (fun _ _ => Gen [Build_RequestOutput [text] true] Exhausted).

(** A pipeline whose [close] raises. *)
Definition stubborn (n : nat) : handle :=
  Handle n (Some (Raise (RuntimeError "close failed")))
         (fun _ _ => Ret []) (fun _ _ => Gen [] Exhausted) (fun _ _ => Gen [] Exhausted).

(** A manager that has loaded ["old"] at time 10 and ["new"] at time 95;
    the pipeline of ["old"] refuses to close. *)
Definition two_models : Manager :=
  cache_model 95%float "new" (echo 1 "hi") (Config.get_model_config "new")
    (cache_model 10%float "old" (stubborn 0) (Config.get_model_config "old") new_manager).

(** Sample environments: a backend that builds a fresh pipeline on each
    call, and one whose constructor raises on each call. *)
Definition working : LMDeploy.Env := {|
  LMDeploy.LMDEPLOY_AVAILABLE := true;
  LMDeploy.config := Config.defaults;
  LMDeploy.pipeline := fun k name _ => Built (echo k name);
|}.
Definition broken : LMDeploy.Env := {|
  LMDeploy.LMDEPLOY_AVAILABLE := true;
  LMDeploy.config := Config.defaults;
  LMDeploy.pipeline := fun _ _ _ => Failed (RuntimeError "CUDA out of memory");
|}.
Definition missing : LMDeploy.Env := {|
  LMDeploy.LMDEPLOY_AVAILABLE := false;
  LMDeploy.config := Config.defaults;
  LMDeploy.pipeline := fun _ _ _ => Failed (RuntimeError "unreachable");
|}.

Definition vllm_working : VLLM.Env := {|
  VLLM.VLLM_AVAILABLE := true;
  VLLM.config := Config.defaults;
  VLLM.get_model_config := Config.get_model_config;
  VLLM.from_engine_args := fun k args => Ret (echo k (VLLM.model args));
|}.
Definition vllm_broken : VLLM.Env := {|
  VLLM.VLLM_AVAILABLE := true;
  VLLM.config := Config.defaults;
  VLLM.get_model_config := Config.get_model_config;
  VLLM.from_engine_args := fun _ _ => Raise (RuntimeError "CUDA out of memory");
|}.

Definition empty_world {C} : World C := mkWorld new_manager [].

Definition wall_clock : Gateway.Clock := {|
  Gateway.isoformat_now := fun n => "2024-01-01T00:00:0" +:+ pretty n;
  Gateway.elapsed_ms := 1500;
|}.

(** A pipeline that streams ["Hel"], ["lo"] and ends. *)
Definition speller_pipe : handle :=
  Handle 0 None (fun _ _ => Ret [RText "Hello"])
         (fun _ _ => Gen [[RText "Hel"]; [RText "lo"]] Exhausted)
         (fun _ _ => Gen [Build_RequestOutput ["Hel"] false; Build_RequestOutput ["lo"] true]
                         Exhausted).
Definition speller : LMDeploy.Env := {|
  LMDeploy.LMDEPLOY_AVAILABLE := true;
  LMDeploy.config := Config.defaults;
  LMDeploy.pipeline := fun _ _ _ => Built speller_pipe;
|}.

(** A pipeline that streams ["Hel"] and then raises. *)
Definition flaky_pipe : handle :=
  Handle 0 None (fun _ _ => Ret [RText "Hello"])
         (fun _ _ => Gen [[RText "Hel"]] (Raised (RuntimeError "CUDA error")))
         (fun _ _ => Gen [Build_RequestOutput ["Hel"] false]
                         (Raised (RuntimeError "CUDA error"))).
Definition flaky : LMDeploy.Env := {|
  LMDeploy.LMDEPLOY_AVAILABLE := true;
  LMDeploy.config := Config.defaults;
  LMDeploy.pipeline := fun _ _ _ => Built flaky_pipe;
|}.

(** * Verification *)

(** ** The three maps move together *)

Lemma same_keys_lookup m x :
  same_keys m ->
  (is_Some (_model_configs m !! x) <-> is_Some (_models m !! x)) /\
  (is_Some (_last_used m !! x) <-> is_Some (_models m !! x)).
Proof.
  intros [Hc Hl]. rewrite <- !elem_of_dom, <- Hc, <- Hl. tauto.
Qed.

Lemma same_keys_new : same_keys new_manager.
Proof. split; reflexivity. Qed.

Lemma same_keys_drop m x : same_keys m -> same_keys (drop x m).
Proof.
  intros [Hc Hl]. split; simpl; rewrite !dom_delete_L; congruence.
Qed.

Lemma same_keys_cache_model now x h mc m :
  same_keys m -> same_keys (cache_model now x h mc m).
Proof.
  intros [Hc Hl]. split; simpl; rewrite !dom_insert_L; congruence.
Qed.

Lemma same_keys_locks f m : same_keys m -> same_keys (set_loading_locks f m).
Proof. intros H. exact H. Qed.

Lemma same_keys_cached now x m h m' :
  same_keys m -> cached now x m = Some (h, m') -> same_keys m'.
Proof.
  unfold cached. intros Hk H.
  destruct (_models m !! x) as [h0|] eqn:Hx; [|discriminate].
  injection H as <- <-.
  destruct (same_keys_lookup m x Hk) as [_ Hl].
  destruct Hk as [Hc Hd]. split; simpl; [exact Hc|].
  rewrite dom_insert_L, <- Hd.
  assert (x ∈ dom (_models m)) as Hin by (apply elem_of_dom; eauto).
  apply set_eq. intros y. rewrite elem_of_union, elem_of_singleton.
  split; [tauto|]. by intros [->|?].
Qed.

Lemma drop_absent m x :
  same_keys m -> _models m !! x = None -> drop x m = m.
Proof.
  intros Hk Hx. destruct (same_keys_lookup m x Hk) as [Hc Hl].
  assert (_model_configs m !! x = None) as Hc'.
  { destruct (_model_configs m !! x) eqn:Heq; [|done].
    destruct Hc as [Hc _]. destruct Hc as [? ?]; [eauto|congruence]. }
  assert (_last_used m !! x = None) as Hl'.
  { destruct (_last_used m !! x) eqn:Heq; [|done].
    destruct Hl as [Hl _]. destruct Hl as [? ?]; [eauto|congruence]. }
  unfold drop. rewrite !delete_id by assumption. by destruct m.
Qed.

(** ** [unload_model] *)

(** Unfold the monad's plumbing. *)
Ltac run_m :=
  cbv beta iota delta
    [mbind mret M_bind M_ret bind ret raise get modify call try_except
     del_models del_model_configs del_last_used].

Lemma dels_cached m x h :
  same_keys m -> _models m !! x = Some h ->
  (del_models x ;; del_model_configs x ;; del_last_used x ;; mret true) m
  = (Ret true, drop x m).
Proof.
  intros Hk Hx. destruct (same_keys_lookup m x Hk) as [Hc Hl].
  destruct (proj2 Hc (ex_intro _ h Hx)) as [c Hc'].
  destruct (proj2 Hl (ex_intro _ h Hx)) as [l Hl'].
  run_m. rewrite Hx. simpl. rewrite Hc'. simpl. rewrite Hl'. reflexivity.
Qed.

Lemma try_close_returns pipe m :
  try_except (LMDeploy.close_if_present pipe) (fun _ => mret tt) m = (Ret tt, m).
Proof.
  unfold LMDeploy.close_if_present.
  destruct (close pipe) as [[[]|e]|]; reflexivity.
Qed.

Lemma lmdeploy_unload_cached m x h :
  same_keys m -> _models m !! x = Some h ->
  LMDeploy.unload_model x m = (Ret true, drop x m).
Proof.
  intros Hk Hx. unfold LMDeploy.unload_model.
  unfold mbind at 1. unfold M_bind at 1. unfold bind at 1. unfold get at 1.
  rewrite Hx.
  unfold mbind at 1. unfold M_bind at 1. unfold bind at 1.
  rewrite try_close_returns. by apply dels_cached with h.
Qed.

Lemma lmdeploy_unload_absent m x :
  _models m !! x = None -> LMDeploy.unload_model x m = (Ret false, m).
Proof.
  intros Hx. unfold LMDeploy.unload_model. run_m. by rewrite Hx.
Qed.

Lemma vllm_unload_cached m x h :
  same_keys m -> _models m !! x = Some h ->
  VLLM.unload_model x m = (Ret true, drop x m).
Proof.
  intros Hk Hx. unfold VLLM.unload_model.
  unfold mbind at 1. unfold M_bind at 1. unfold bind at 1. unfold get at 1.
  rewrite Hx. by apply dels_cached with h.
Qed.

Lemma vllm_unload_absent m x :
  _models m !! x = None -> VLLM.unload_model x m = (Ret false, m).
Proof.
  intros Hx. unfold VLLM.unload_model. run_m. by rewrite Hx.
Qed.

Lemma lmdeploy_unloads : unloads LMDeploy.unload_model.
Proof.
  intros m x Hk. destruct (_models m !! x) as [h|] eqn:Hx.
  - rewrite bool_decide_eq_true_2 by eauto. by apply lmdeploy_unload_cached with h.
  - rewrite bool_decide_eq_false_2 by (intros [? ?]; congruence).
    rewrite drop_absent by assumption. by apply lmdeploy_unload_absent.
Qed.

Lemma vllm_unloads : unloads VLLM.unload_model.
Proof.
  intros m x Hk. destruct (_models m !! x) as [h|] eqn:Hx.
  - rewrite bool_decide_eq_true_2 by eauto. by apply vllm_unload_cached with h.
  - rewrite bool_decide_eq_false_2 by (intros [? ?]; congruence).
    rewrite drop_absent by assumption. by apply vllm_unload_absent.
Qed.

(** ** [cleanup_unused_models] *)

Lemma same_keys_drop_all xs m : same_keys m -> same_keys (drop_all xs m).
Proof.
  revert m. induction xs as [|x xs IH]; intros m Hk; simpl; [done|].
  apply IH. by apply same_keys_drop.
Qed.

Lemma for_each_unload unload_model xs m :
  unloads unload_model -> same_keys m ->
  for_each xs (fun x => unload_model x ;; mret tt) m = (Ret tt, drop_all xs m).
Proof.
  intros Hu. revert m. induction xs as [|x xs IH]; intros m Hk; simpl; [done|].
  unfold mbind at 1. unfold M_bind at 1. unfold bind at 1.
  unfold mbind at 1. unfold M_bind at 1. unfold bind at 1.
  rewrite Hu by assumption. simpl. apply IH. by apply same_keys_drop.
Qed.

Lemma drop_all_locks xs m : _loading_locks (drop_all xs m) = _loading_locks m.
Proof. revert m. induction xs as [|x xs IH]; intros m; simpl; [done|]. by rewrite IH. Qed.

Lemma drop_all_lookup xs m x :
  (x ∈ xs ->
     _models (drop_all xs m) !! x = None /\
     _model_configs (drop_all xs m) !! x = None /\
     _last_used (drop_all xs m) !! x = None) /\
  (x ∉ xs ->
     _models (drop_all xs m) !! x = _models m !! x /\
     _model_configs (drop_all xs m) !! x = _model_configs m !! x /\
     _last_used (drop_all xs m) !! x = _last_used m !! x).
Proof.
  revert m. induction xs as [|y xs IH]; intros m; simpl.
  - split; [intros H; by apply elem_of_nil in H | done].
  - destruct (IH (drop y m)) as [IHin IHout]. split.
    + intros Hin. destruct (decide (x ∈ xs)) as [Hxs|Hxs]; [by apply IHin|].
      apply elem_of_cons in Hin as [->|?]; [|done].
      destruct (IHout Hxs) as (-> & -> & ->). simpl.
      by rewrite !lookup_delete_eq.
    + intros Hout. apply not_elem_of_cons in Hout as [Hne Hxs].
      destruct (IHout Hxs) as (-> & -> & ->). simpl.
      by rewrite !lookup_delete_ne.
Qed.

Lemma elem_of_collect_idle now d m x :
  x ∈ collect_idle now d m <-> is_idle now d m x = true.
Proof.
  unfold collect_idle, is_idle. rewrite list_elem_of_fmap. split.
  - intros [[k v] [-> Hin]]. apply list_elem_of_filter in Hin as [Hidle Hin].
    apply elem_of_map_to_list in Hin. simpl in *. by rewrite Hin.
  - destruct (_last_used m !! x) as [v|] eqn:Hx; [|done].
    intros Hidle. exists (x, v). split; [done|].
    apply list_elem_of_filter. split; [done|]. by apply elem_of_map_to_list.
Qed.

(** ** [load_model] keeps the three maps together *)

Lemma same_keys_ensure_lock x m : same_keys m -> same_keys (ensure_lock x m).
Proof. unfold ensure_lock. by destruct (_loading_locks m !! x). Qed.

Lemma lmdeploy_locked_body_keys E now inv (w : World LMDeploy.EngineConfig) :
  same_keys (manager w) -> same_keys (manager (LMDeploy.locked_body E now inv w).2).
Proof.
  intros Hk. unfold LMDeploy.locked_body.
  destruct (cached now (model_name inv) (manager w)) as [[h m']|] eqn:Hc.
  - simpl. apply same_keys_locks. by eapply same_keys_cached.
  - destruct (LMDeploy.LMDEPLOY_AVAILABLE E);
      [destruct (LMDeploy.TurbomindEngineConfig_is_None E);
       [|destruct (LMDeploy.pipeline_is_None E)]|]; simpl; done.
Qed.

Lemma lmdeploy_start_keys E now inv (w : World LMDeploy.EngineConfig) :
  same_keys (manager w) -> same_keys (manager (LMDeploy.start E now inv w).2).
Proof.
  intros Hk. unfold LMDeploy.start.
  destruct (negb (LMDeploy.LMDEPLOY_AVAILABLE E)); [done|].
  destruct (cached now (model_name inv) (manager w)) as [[h m']|] eqn:Hc.
  - simpl. by eapply same_keys_cached.
  - destruct (held _ _).
    + simpl. by apply same_keys_ensure_lock.
    + apply lmdeploy_locked_body_keys. simpl.
      apply same_keys_locks. by apply same_keys_ensure_lock.
Qed.

Lemma lmdeploy_finish_load_keys now inv mc o (w : World LMDeploy.EngineConfig) :
  same_keys (manager w) -> same_keys (manager (LMDeploy.finish_load now inv mc o w).2).
Proof.
  intros Hk. destruct o; simpl; [|done..].
  apply same_keys_locks. by apply same_keys_cache_model.
Qed.

(** From [Some x = Some (t', w')], replace [w'] in the goal by [x.2]. *)
Ltac world_of Hs :=
  match type of Hs with
  | Some _ = Some (?t, ?w) =>
      injection Hs as Hs; change w with (snd (t, w)); rewrite <- Hs
  end.

Lemma lmdeploy_step_keys E now inv t (w : World LMDeploy.EngineConfig) t' w' :
  same_keys (manager w) ->
  LMDeploy.load_model_step E now inv t w = Some (t', w') ->
  same_keys (manager w').
Proof.
  intros Hk Hs. destruct t; simpl in Hs.
  - world_of Hs. by apply lmdeploy_start_keys.
  - destruct (held _ _); [discriminate|]. world_of Hs.
    by apply lmdeploy_locked_body_keys.
  - world_of Hs. by apply lmdeploy_finish_load_keys.
  - discriminate.
Qed.

Lemma vllm_locked_body_keys E now inv (w : World VLLM.EngineArgs) :
  same_keys (manager w) -> same_keys (manager (VLLM.locked_body E now inv w).2).
Proof.
  intros Hk. unfold VLLM.locked_body.
  destruct (cached now (model_name inv) (manager w)) as [[h m']|] eqn:Hc.
  - simpl. apply same_keys_locks. by eapply same_keys_cached.
  - destruct (VLLM.AsyncEngineArgs _ _ _ _) as [args|]; [|done].
    destruct (VLLM.from_engine_args _ _ _) as [engine|]; simpl; [|done].
    apply same_keys_locks. by apply same_keys_cache_model.
Qed.

Lemma vllm_start_keys E now inv (w : World VLLM.EngineArgs) :
  same_keys (manager w) -> same_keys (manager (VLLM.start E now inv w).2).
Proof.
  intros Hk. unfold VLLM.start.
  destruct (negb (VLLM.VLLM_AVAILABLE E)); [done|].
  destruct (cached now (model_name inv) (manager w)) as [[h m']|] eqn:Hc.
  - simpl. by eapply same_keys_cached.
  - destruct (held _ _).
    + simpl. by apply same_keys_ensure_lock.
    + apply vllm_locked_body_keys. simpl.
      apply same_keys_locks. by apply same_keys_ensure_lock.
Qed.

Lemma vllm_step_keys E now inv t (w : World VLLM.EngineArgs) t' w' :
  same_keys (manager w) ->
  VLLM.load_model_step E now inv t w = Some (t', w') ->
  same_keys (manager w').
Proof.
  intros Hk Hs. destruct t; simpl in Hs; try discriminate.
  - world_of Hs. by apply vllm_start_keys.
  - destruct (held _ _); [discriminate|]. world_of Hs.
    by apply vllm_locked_body_keys.
Qed.

(** Whatever the event loop schedules, a property of the world that
    every step keeps is kept by the whole run. *)
Lemma run_preserves {W} (step : float -> invocation -> task -> W -> option (task * W))
    (P : W -> Prop) :
  (forall now inv t w t' w', P w -> step now inv t w = Some (t', w') -> P w') ->
  forall sched ts w, P w -> P (run step sched ts w).2.
Proof.
  intros Hstep sched. induction sched as [|[i now] sched IH]; intros ts w Hw; [done|].
  simpl. destruct (resume step now i ts w) as [ts' w'] eqn:Hr.
  apply IH. unfold resume in Hr.
  destruct (ts !! i) as [[inv t]|]; [|by injection Hr as _ <-].
  destruct (step now inv t w) as [[t' w'']|] eqn:Hs; injection Hr as _ <-; [|done].
  by eapply Hstep.
Qed.

Lemma await_call_preserves {W} (step : float -> invocation -> task -> W -> option (task * W))
    (P : W -> Prop) now inv w r w' :
  (forall now inv t w t' w', P w -> step now inv t w = Some (t', w') -> P w') ->
  P w -> await_call step now inv w = Some (r, w') -> P w'.
Proof.
  intros Hstep Hw. unfold await_call.
  pose proof (run_preserves step P Hstep [(0%nat, now); (0%nat, now)] [(inv, Created)] w Hw) as H.
  destruct (run _ _ _ _) as [ts w''].
  destruct ts as [|[? []] []]; try discriminate.
  by intros [= _ <-].
Qed.

(** ** The lock of an identifier *)

Lemma held_ensure_lock x m : held x (ensure_lock x m) = held x m.
Proof.
  unfold ensure_lock, held. destruct (_loading_locks m !! x) as [b|] eqn:Hx.
  - by rewrite Hx.
  - simpl. rewrite lookup_insert_eq.
    rewrite !bool_decide_eq_false_2; [done|congruence..].
Qed.

Lemma held_release x m : held x (release x m) = false.
Proof. unfold held, release. simpl. rewrite lookup_insert_eq. by apply bool_decide_eq_false_2. Qed.

Lemma held_acquire x m : held x (acquire x m) = true.
Proof. unfold held, acquire. simpl. rewrite lookup_insert_eq. by apply bool_decide_eq_true_2. Qed.

Lemma release_acquire_ensure x m : release x (acquire x (ensure_lock x m)) = release x m.
Proof.
  unfold release, acquire, ensure_lock, set_loading_locks.
  destruct (_loading_locks m !! x); simpl; by rewrite !insert_insert_eq.
Qed.

Lemma release_cache_model now x y h mc m :
  release y (cache_model now x h mc m) = cache_model now x h mc (release y m).
Proof. reflexivity. Qed.

Lemma cached_None now x m : _models m !! x = None -> cached now x m = None.
Proof. unfold cached. by intros ->. Qed.

Lemma cached_Some now x m h :
  _models m !! x = Some h -> cached now x m = Some (h, set_last_used <[x := now]> m).
Proof. unfold cached. by intros ->. Qed.

(** ** A single [load_model] call *)

(** A call that is alone on the event loop is resumed once or twice. *)
Lemma await_call_steps {W} (step : float -> invocation -> task -> W -> option (task * W))
    now inv w :
  (forall r w', step now inv (Returned r) w' = None) ->
  await_call step now inv w =
  match step now inv Created w with
  | Some (Returned r, w1) => Some (r, w1)
  | Some (t1, w1) =>
      match step now inv t1 w1 with
      | Some (Returned r, w2) => Some (r, w2)
      | _ => None
      end
  | None => None
  end.
Proof.
  intros Hret. unfold await_call, run, resume. simpl.
  destruct (step now inv Created w) as [[t1 w1]|] eqn:H1; simpl.
  - destruct t1; simpl; try rewrite Hret;
      try (destruct (step now inv _ w1) as [[[] ?]|]; reflexivity); reflexivity.
  - rewrite H1. reflexivity.
Qed.

Section LMDeployCall.
Variable E : LMDeploy.Env.
Implicit Types (w : World LMDeploy.EngineConfig) (m : Manager).

Lemma lmdeploy_start_unavailable now inv w :
  LMDeploy.LMDEPLOY_AVAILABLE E = false ->
  LMDeploy.start E now inv w = (Returned None, w).
Proof. intros Ha. unfold LMDeploy.start. by rewrite Ha. Qed.

Lemma lmdeploy_start_cached now x kw m cs h :
  LMDeploy.LMDEPLOY_AVAILABLE E = true ->
  _models m !! x = Some h ->
  LMDeploy.start E now (Invoke x kw) (mkWorld m cs)
  = (Returned (Some h), mkWorld (set_last_used <[x := now]> m) cs).
Proof.
  intros Ha Hx. unfold LMDeploy.start. rewrite Ha. simpl.
  by rewrite (cached_Some _ _ _ _ Hx).
Qed.

Lemma lmdeploy_locked_body_cached now x kw m cs h :
  _models m !! x = Some h ->
  LMDeploy.locked_body E now (Invoke x kw) (mkWorld m cs)
  = (Returned (Some h), mkWorld (release x (set_last_used <[x := now]> m)) cs).
Proof.
  intros Hx. unfold LMDeploy.locked_body. simpl.
  by rewrite (cached_Some _ _ _ _ Hx).
Qed.

Lemma lmdeploy_locked_body_fresh now x kw m cs :
  LMDeploy.LMDEPLOY_AVAILABLE E = true ->
  _models m !! x = None ->
  let mc := Config.get_model_config x in
  let cfg := LMDeploy.engine_config E kw mc in
  LMDeploy.locked_body E now (Invoke x kw) (mkWorld m cs)
  = (AwaitPipeline mc (LMDeploy.pipeline E (length cs) x cfg),
     mkWorld m ((x, cfg) :: cs)).
Proof.
  intros Ha Hx mc cfg. unfold LMDeploy.locked_body. simpl.
  rewrite (cached_None _ _ _ Hx).
  unfold LMDeploy.TurbomindEngineConfig_is_None, LMDeploy.pipeline_is_None.
  by rewrite Ha.
Qed.

Lemma lmdeploy_start_fresh now x kw m cs :
  LMDeploy.LMDEPLOY_AVAILABLE E = true ->
  _models m !! x = None ->
  held x m = false ->
  let mc := Config.get_model_config x in
  let cfg := LMDeploy.engine_config E kw mc in
  LMDeploy.start E now (Invoke x kw) (mkWorld m cs)
  = (AwaitPipeline mc (LMDeploy.pipeline E (length cs) x cfg),
     mkWorld (acquire x (ensure_lock x m)) ((x, cfg) :: cs)).
Proof.
  intros Ha Hx Hl mc cfg. unfold LMDeploy.start. rewrite Ha. simpl.
  rewrite (cached_None _ _ _ Hx), held_ensure_lock, Hl.
  unfold on_manager. simpl. apply lmdeploy_locked_body_fresh; [done|].
  unfold acquire, ensure_lock. simpl. by destruct (_loading_locks m !! x).
Qed.

Lemma lmdeploy_start_busy now x kw m cs :
  LMDeploy.LMDEPLOY_AVAILABLE E = true ->
  _models m !! x = None ->
  held x m = true ->
  LMDeploy.start E now (Invoke x kw) (mkWorld m cs) = (AwaitLock, mkWorld m cs).
Proof.
  intros Ha Hx Hl. unfold LMDeploy.start. rewrite Ha. simpl.
  rewrite (cached_None _ _ _ Hx), held_ensure_lock, Hl.
  unfold on_manager, ensure_lock. simpl.
  unfold held in Hl. apply bool_decide_eq_true_1 in Hl. by rewrite Hl.
Qed.

Lemma lmdeploy_load_unavailable now x kw w :
  LMDeploy.LMDEPLOY_AVAILABLE E = false ->
  LMDeploy.load_model E now x kw w = Some (None, w).
Proof.
  intros Ha. unfold LMDeploy.load_model. rewrite await_call_steps by done.
  simpl. by rewrite lmdeploy_start_unavailable.
Qed.

Lemma lmdeploy_load_cached now x kw m cs h :
  LMDeploy.LMDEPLOY_AVAILABLE E = true ->
  _models m !! x = Some h ->
  LMDeploy.load_model E now x kw (mkWorld m cs)
  = Some (Some h, mkWorld (set_last_used <[x := now]> m) cs).
Proof.
  intros Ha Hx. unfold LMDeploy.load_model. rewrite await_call_steps by done.
  simpl. by rewrite (lmdeploy_start_cached _ _ _ _ _ h).
Qed.

(** The identifier is not cached and its lock is free: the constructor
    is called once, with the configuration [engine_config] computes. *)
Lemma lmdeploy_load_fresh now x kw m cs :
  LMDeploy.LMDEPLOY_AVAILABLE E = true ->
  _models m !! x = None ->
  held x m = false ->
  let mc := Config.get_model_config x in
  let cfg := LMDeploy.engine_config E kw mc in
  LMDeploy.load_model E now x kw (mkWorld m cs)
  = Some
      match LMDeploy.pipeline E (length cs) x cfg with
      | Built pipe =>
          (Some pipe, mkWorld (cache_model now x pipe mc (release x m)) ((x, cfg) :: cs))
      | BuiltNone | Failed _ =>
          (None, mkWorld (release x m) ((x, cfg) :: cs))
      end.
Proof.
  intros Ha Hx Hl mc cfg. unfold LMDeploy.load_model.
  rewrite await_call_steps by done. simpl.
  rewrite lmdeploy_start_fresh by done. fold mc. fold cfg. simpl.
  unfold LMDeploy.finish_load, on_manager. simpl.
  destruct (LMDeploy.pipeline E (length cs) x cfg) as [pipe| |e]; simpl.
  - by rewrite release_cache_model, release_acquire_ensure.
  - by rewrite release_acquire_ensure.
  - by rewrite release_acquire_ensure.
Qed.

End LMDeployCall.

Section VLLMCall.
Variable E : VLLM.Env.
Implicit Types (w : World VLLM.EngineArgs) (m : Manager).

Lemma vllm_locked_body_fresh now x kw m cs :
  _models m !! x = None ->
  let mc := VLLM.get_model_config E x in
  VLLM.locked_body E now (Invoke x kw) (mkWorld m cs)
  = match VLLM.AsyncEngineArgs E x kw mc with
    | Raise _ => (Returned None, mkWorld (release x m) cs)
    | Ret engine_args =>
        match VLLM.from_engine_args E (length cs) engine_args with
        | Ret engine =>
            (Returned (Some engine),
             mkWorld (release x (cache_model now x engine mc m)) ((x, engine_args) :: cs))
        | Raise _ => (Returned None, mkWorld (release x m) ((x, engine_args) :: cs))
        end
    end.
Proof.
  intros Hx mc. unfold VLLM.locked_body. simpl.
  by rewrite (cached_None _ _ _ Hx).
Qed.

Lemma vllm_load_unavailable now x kw w :
  VLLM.VLLM_AVAILABLE E = false ->
  VLLM.load_model E now x kw w = Some (None, w).
Proof.
  intros Ha. unfold VLLM.load_model. rewrite await_call_steps by done.
  simpl. unfold VLLM.start. by rewrite Ha.
Qed.

Lemma vllm_load_cached now x kw m cs h :
  VLLM.VLLM_AVAILABLE E = true ->
  _models m !! x = Some h ->
  VLLM.load_model E now x kw (mkWorld m cs)
  = Some (Some h, mkWorld (set_last_used <[x := now]> m) cs).
Proof.
  intros Ha Hx. unfold VLLM.load_model. rewrite await_call_steps by done.
  simpl. unfold VLLM.start. rewrite Ha. simpl.
  by rewrite (cached_Some _ _ _ _ Hx).
Qed.

Lemma vllm_start_fresh now x kw m cs :
  VLLM.VLLM_AVAILABLE E = true ->
  _models m !! x = None ->
  held x m = false ->
  VLLM.start E now (Invoke x kw) (mkWorld m cs)
  = VLLM.locked_body E now (Invoke x kw) (mkWorld (acquire x (ensure_lock x m)) cs).
Proof.
  intros Ha Hx Hl. unfold VLLM.start. rewrite Ha. simpl.
  by rewrite (cached_None _ _ _ Hx), held_ensure_lock, Hl.
Qed.

Lemma vllm_load_fresh now x kw m cs :
  VLLM.VLLM_AVAILABLE E = true ->
  _models m !! x = None ->
  held x m = false ->
  let mc := VLLM.get_model_config E x in
  VLLM.load_model E now x kw (mkWorld m cs)
  = Some
      match VLLM.AsyncEngineArgs E x kw mc with
      | Raise _ => (None, mkWorld (release x m) cs)
      | Ret engine_args =>
          match VLLM.from_engine_args E (length cs) engine_args with
          | Ret engine =>
              (Some engine,
               mkWorld (cache_model now x engine mc (release x m)) ((x, engine_args) :: cs))
          | Raise _ => (None, mkWorld (release x m) ((x, engine_args) :: cs))
          end
      end.
Proof.
  intros Ha Hx Hl mc. unfold VLLM.load_model. rewrite await_call_steps by done.
  simpl. rewrite vllm_start_fresh by done.
  rewrite vllm_locked_body_fresh
    by (unfold acquire, ensure_lock; simpl; by destruct (_loading_locks m !! x)).
  fold mc. destruct (VLLM.AsyncEngineArgs E x kw mc) as [args|e].
  - destruct (VLLM.from_engine_args E (length cs) args) as [engine|e].
    + by rewrite release_cache_model, release_acquire_ensure.
    + by rewrite release_acquire_ensure.
  - by rewrite release_acquire_ensure.
Qed.

End VLLMCall.

(** Both [cleanup_unused_models] drop the idle identifiers. *)
Lemma cleanup_unused_models_spec (m : Manager) (current_time d : float) :
  same_keys m ->
  LMDeploy.cleanup_unused_models current_time d m
    = (Ret tt, drop_all (collect_idle current_time d m) m) /\
  VLLM.cleanup_unused_models current_time d m
    = (Ret tt, drop_all (collect_idle current_time d m) m).
Proof.
  intros Hk. split.
  - unfold LMDeploy.cleanup_unused_models.
    unfold mbind at 1. unfold M_bind at 1. unfold bind at 1. unfold get at 1.
    by apply for_each_unload; [apply lmdeploy_unloads|].
  - unfold VLLM.cleanup_unused_models.
    unfold mbind at 1. unfold M_bind at 1. unfold bind at 1. unfold get at 1.
    by apply for_each_unload; [apply vllm_unloads|].
Qed.

Lemma two_models_keys : same_keys two_models.
Proof. unfold two_models. do 2 apply same_keys_cache_model. apply same_keys_new. Defined.

(** ** C4: [unload_model] *)

(** C4. [unload_model x] on a manager that does not cache [x] returns
    [False] and leaves the manager as it was. On a manager that caches
    [x] it returns [True] and [x] is gone from the cache and from both
    auxiliary maps, every other entry and every lock staying as they
    were; this is so for every pipeline, whether it has no [close], a
    [close] that returns or a [close] that raises. Stated for both
    managers (the vLLM one has no cleanup step). *)
Theorem unload_model_correct (m : Manager) (x : string) :
  same_keys m ->
  (_models m !! x = None ->
     LMDeploy.unload_model x m = (Ret false, m) /\
     VLLM.unload_model x m = (Ret false, m)) /\
  (forall pipe, _models m !! x = Some pipe ->
     exists m',
       LMDeploy.unload_model x m = (Ret true, m') /\
       VLLM.unload_model x m = (Ret true, m') /\
       _models m' = delete x (_models m) /\
       _model_configs m' = delete x (_model_configs m) /\
       _last_used m' = delete x (_last_used m) /\
       _loading_locks m' = _loading_locks m).
Proof.
  intros Hk. split.
  - intros Hx. split; [by apply lmdeploy_unload_absent | by apply vllm_unload_absent].
  - intros pipe Hx. exists (drop x m).
    rewrite (lmdeploy_unload_cached m x pipe), (vllm_unload_cached m x pipe) by done.
    by repeat split.
Qed.

(** The pipeline of ["old"] raises in [close]; ["old"] is unloaded all
    the same. *)
Lemma unload_model_correct_witness :
  close (stubborn 0) = Some (Raise (RuntimeError "close failed")) /\
  exists m',
    LMDeploy.unload_model "old" two_models = (Ret true, m') /\
    VLLM.unload_model "old" two_models = (Ret true, m') /\
    _models m' = delete "old" (_models two_models) /\
    _model_configs m' = delete "old" (_model_configs two_models) /\
    _last_used m' = delete "old" (_last_used two_models) /\
    _loading_locks m' = _loading_locks two_models.
Proof.
  split; [reflexivity|].
  apply (proj2 (unload_model_correct two_models "old" two_models_keys) (stubborn 0)).
  vm_compute. reflexivity.
Defined.

(** ** C5: [cleanup_unused_models] *)

(** C5. For every idle bound [d] and every clock reading,
    [cleanup_unused_models d] returns normally and removes exactly the
    entries whose idle time, the clock reading minus [last_used],
    exceeds [d]: such an entry is gone from the cache and both
    auxiliary maps, and every other entry keeps its handle, its
    configuration and its timestamp (the cached identifiers are those
    that have a timestamp). The locks are untouched. Both managers
    behave alike. *)
Theorem cleanup_unused_models_correct (m : Manager) (current_time d : float) :
  same_keys m ->
  exists m',
    LMDeploy.cleanup_unused_models current_time d m = (Ret tt, m') /\
    VLLM.cleanup_unused_models current_time d m = (Ret tt, m') /\
    _loading_locks m' = _loading_locks m /\
    (forall x, is_Some (_last_used m !! x) <-> is_Some (_models m !! x)) /\
    forall x,
      if is_idle current_time d m x
      then _models m' !! x = None /\
           _model_configs m' !! x = None /\
           _last_used m' !! x = None
      else _models m' !! x = _models m !! x /\
           _model_configs m' !! x = _model_configs m !! x /\
           _last_used m' !! x = _last_used m !! x.
Proof.
  intros Hk. exists (drop_all (collect_idle current_time d m) m).
  destruct (cleanup_unused_models_spec m current_time d Hk) as (Hl & Hv).
  split; [exact Hl|]. split; [exact Hv|]. split; [|split].
  - apply drop_all_locks.
  - intros x. apply (same_keys_lookup m x Hk).
  - intros x.
    destruct (drop_all_lookup (collect_idle current_time d m) m x) as [Hin Hout].
    destruct (is_idle current_time d m x) eqn:Hi.
    + apply Hin. by apply elem_of_collect_idle.
    + apply Hout. rewrite elem_of_collect_idle. congruence.
Qed.

(** At time 100 with bound 60, ["old"] (idle for 90) goes and ["new"]
    (idle for 5) stays. *)
Lemma cleanup_unused_models_correct_witness :
  is_idle 100%float 60%float two_models "old" = true /\
  is_idle 100%float 60%float two_models "new" = false /\
  exists m',
    LMDeploy.cleanup_unused_models 100%float 60%float two_models = (Ret tt, m') /\
    _models m' !! "old" = None /\
    _models m' !! "new" = Some (echo 1 "hi") /\
    _last_used m' !! "new" = Some 95%float.
Proof.
  split; [vm_compute; reflexivity|]. split; [vm_compute; reflexivity|].
  destruct (cleanup_unused_models_correct two_models 100%float 60%float two_models_keys)
    as (m' & Hl & _ & _ & _ & Hx).
  exists m'. split; [exact Hl|].
  pose proof (Hx "old") as Hold. pose proof (Hx "new") as Hnew.
  replace (is_idle 100%float 60%float two_models "old") with true in Hold
    by (vm_compute; reflexivity).
  replace (is_idle 100%float 60%float two_models "new") with false in Hnew
    by (vm_compute; reflexivity).
  destruct Hold as (Ho & _). destruct Hnew as (Hn & _ & Hu).
  split; [exact Ho|]. split.
  - rewrite Hn. vm_compute. reflexivity.
  - rewrite Hu. vm_compute. reflexivity.
Defined.

(** ** C10: the three maps hold the same identifiers *)

Lemma lmdeploy_load_inserts E now x kw m cs h w' :
  same_keys m ->
  LMDeploy.load_model E now x kw (mkWorld m cs) = Some (Some h, w') ->
  _models (manager w') !! x = Some h /\
  is_Some (_model_configs (manager w') !! x) /\
  _last_used (manager w') !! x = Some now.
Proof.
  intros Hk Hload.
  destruct (LMDeploy.LMDEPLOY_AVAILABLE E) eqn:Ha;
    [|by rewrite lmdeploy_load_unavailable in Hload].
  destruct (_models m !! x) as [h0|] eqn:Hx.
  - rewrite (lmdeploy_load_cached E now x kw m cs h0) in Hload by done.
    injection Hload as -> <-. simpl. rewrite lookup_insert_eq.
    repeat split; [done|]. apply (same_keys_lookup m x Hk). eauto.
  - destruct (held x m) eqn:Hl.
    + unfold LMDeploy.load_model in Hload. rewrite await_call_steps in Hload by done.
      simpl in Hload. rewrite lmdeploy_start_busy in Hload by done.
      simpl in Hload. by rewrite Hl in Hload.
    + rewrite lmdeploy_load_fresh in Hload by done.
      destruct (LMDeploy.pipeline E _ _ _) as [pipe| |e]; [|done..].
      injection Hload as -> <-. simpl. by rewrite !lookup_insert_eq.
Qed.

Lemma vllm_load_inserts E now x kw m cs h w' :
  same_keys m ->
  VLLM.load_model E now x kw (mkWorld m cs) = Some (Some h, w') ->
  _models (manager w') !! x = Some h /\
  is_Some (_model_configs (manager w') !! x) /\
  _last_used (manager w') !! x = Some now.
Proof.
  intros Hk Hload.
  destruct (VLLM.VLLM_AVAILABLE E) eqn:Ha;
    [|by rewrite vllm_load_unavailable in Hload].
  destruct (_models m !! x) as [h0|] eqn:Hx.
  - rewrite (vllm_load_cached E now x kw m cs h0) in Hload by done.
    injection Hload as -> <-. simpl. rewrite lookup_insert_eq.
    repeat split; [done|]. apply (same_keys_lookup m x Hk). eauto.
  - destruct (held x m) eqn:Hl.
    + unfold VLLM.load_model in Hload. rewrite await_call_steps in Hload by done.
      simpl in Hload. unfold VLLM.start in Hload. rewrite Ha in Hload. simpl in Hload.
      rewrite (cached_None _ _ _ Hx), held_ensure_lock, Hl in Hload.
      simpl in Hload. by rewrite held_ensure_lock, Hl in Hload.
    + rewrite vllm_load_fresh in Hload by done.
      destruct (VLLM.AsyncEngineArgs _ _ _ _) as [args|e]; [|done].
      destruct (VLLM.from_engine_args _ _ _) as [engine|e]; [|done].
      injection Hload as -> <-. simpl. by rewrite !lookup_insert_eq.
Qed.

(** C10. Every operation of either manager takes a manager whose cache,
    configuration map and timestamp map hold the same identifiers to a
    manager of which this is true again: each uninterrupted stretch of
    [load_model] (so every interleaving of calls), a whole
    [load_model] call, [unload_model] and [cleanup_unused_models]. A
    [load_model] that returns a handle leaves the identifier in all
    three maps, and [unload_model] leaves it in none of them. *)
Theorem same_keys_preserved (m : Manager) :
  same_keys m ->
  (forall E now inv t cs t' w',
     LMDeploy.load_model_step E now inv t (mkWorld m cs) = Some (t', w') ->
     same_keys (manager w')) /\
  (forall E now inv t cs t' w',
     VLLM.load_model_step E now inv t (mkWorld m cs) = Some (t', w') ->
     same_keys (manager w')) /\
  (forall E sched ts cs,
     same_keys (manager (run (LMDeploy.load_model_step E) sched ts (mkWorld m cs)).2)) /\
  (forall E sched ts cs,
     same_keys (manager (run (VLLM.load_model_step E) sched ts (mkWorld m cs)).2)) /\
  (forall E now x kw cs h w',
     LMDeploy.load_model E now x kw (mkWorld m cs) = Some (Some h, w') ->
     same_keys (manager w') /\
     _models (manager w') !! x = Some h /\
     is_Some (_model_configs (manager w') !! x) /\
     is_Some (_last_used (manager w') !! x)) /\
  (forall E now x kw cs h w',
     VLLM.load_model E now x kw (mkWorld m cs) = Some (Some h, w') ->
     same_keys (manager w') /\
     _models (manager w') !! x = Some h /\
     is_Some (_model_configs (manager w') !! x) /\
     is_Some (_last_used (manager w') !! x)) /\
  (forall x unload_model,
     unload_model = LMDeploy.unload_model \/ unload_model = VLLM.unload_model ->
     let m' := (unload_model x m).2 in
     same_keys m' /\
     _models m' !! x = None /\ _model_configs m' !! x = None /\ _last_used m' !! x = None) /\
  (forall current_time d,
     same_keys (LMDeploy.cleanup_unused_models current_time d m).2 /\
     same_keys (VLLM.cleanup_unused_models current_time d m).2).
Proof.
  intros Hk. repeat apply conj.
  - intros E now inv t cs t' w'. by apply lmdeploy_step_keys.
  - intros E now inv t cs t' w'. by apply vllm_step_keys.
  - intros E sched ts cs.
    apply (run_preserves _ (fun w => same_keys (manager w))); [|done].
    intros ???????. by eapply lmdeploy_step_keys.
  - intros E sched ts cs.
    apply (run_preserves _ (fun w => same_keys (manager w))); [|done].
    intros ???????. by eapply vllm_step_keys.
  - intros E now x kw cs h w' Hload.
    destruct (lmdeploy_load_inserts _ _ _ _ _ _ _ _ Hk Hload) as (? & ? & ?).
    split; [|split; [done|split; [done|eauto]]].
    apply (await_call_preserves _ (fun w => same_keys (manager w)) now
             (Invoke x kw) (mkWorld m cs) (Some h) w'
             (fun now inv t w t' w' => lmdeploy_step_keys E now inv t w t' w') Hk Hload).
  - intros E now x kw cs h w' Hload.
    destruct (vllm_load_inserts _ _ _ _ _ _ _ _ Hk Hload) as (? & ? & ?).
    split; [|split; [done|split; [done|eauto]]].
    apply (await_call_preserves _ (fun w => same_keys (manager w)) now
             (Invoke x kw) (mkWorld m cs) (Some h) w'
             (fun now inv t w t' w' => vllm_step_keys E now inv t w t' w') Hk Hload).
  - intros x unload_model Hu m'.
    assert (m' = drop x m) as ->.
    { unfold m'. destruct Hu as [-> | ->];
        [rewrite lmdeploy_unloads | rewrite vllm_unloads]; done. }
    split; [by apply same_keys_drop|]. simpl. by rewrite !lookup_delete_eq.
  - intros current_time d.
    destruct (cleanup_unused_models_spec m current_time d Hk) as (Hl & Hv).
    rewrite Hl, Hv. simpl. split; by apply same_keys_drop_all.
Qed.

(** At the sample manager: unloading ["old"], cleaning up, and loading
    ["new"] again all keep the three maps together. *)
Lemma same_keys_preserved_witness :
  same_keys two_models /\
  same_keys (LMDeploy.unload_model "old" two_models).2 /\
  _models (LMDeploy.unload_model "old" two_models).2 !! "old" = None /\
  same_keys (VLLM.cleanup_unused_models 100%float 60%float two_models).2.
Proof.
  split; [exact two_models_keys|].
  destruct (same_keys_preserved two_models two_models_keys)
    as (_ & _ & _ & _ & _ & _ & Hu & Hc).
  destruct (Hu "old" LMDeploy.unload_model (or_introl eq_refl)) as (Hk & Hm & _).
  split; [exact Hk|]. split; [exact Hm|].
  exact (proj2 (Hc 100%float 60%float)).
Defined.

(** ** C3: a failed construction *)

(** C3. Let [x] be neither cached nor being loaded. If the constructor
    raises or returns no instance, [load_model x] returns [None], the
    cache, the configuration map and the timestamp map are what they
    were, and the lock of [x] is free; a later [load_model x] calls the
    constructor again. In the vLLM manager the constructor
    ([AsyncLLMEngine.from_engine_args]) fails by raising. *)
Theorem load_failure_leaves_no_entry
    (E : LMDeploy.Env) (V : VLLM.Env) (now : float) (x : string)
    (kw : gmap string value) (m : Manager) :
  _models m !! x = None ->
  held x m = false ->
  (forall cs,
     LMDeploy.LMDEPLOY_AVAILABLE E = true ->
     let cfg := LMDeploy.engine_config E kw (Config.get_model_config x) in
     no_instance (LMDeploy.pipeline E (length cs) x cfg) ->
     exists w1,
       LMDeploy.load_model E now x kw (mkWorld m cs) = Some (None, w1) /\
       constructed w1 = (x, cfg) :: cs /\
       _models (manager w1) = _models m /\
       _model_configs (manager w1) = _model_configs m /\
       _last_used (manager w1) = _last_used m /\
       held x (manager w1) = false /\
       forall now' kw', exists r w2,
         LMDeploy.load_model E now' x kw' w1 = Some (r, w2) /\
         constructed w2
         = (x, LMDeploy.engine_config E kw' (Config.get_model_config x)) :: constructed w1) /\
  (forall cs args e,
     VLLM.VLLM_AVAILABLE V = true ->
     VLLM.AsyncEngineArgs V x kw (VLLM.get_model_config V x) = Ret args ->
     VLLM.from_engine_args V (length cs) args = Raise e ->
     exists w1,
       VLLM.load_model V now x kw (mkWorld m cs) = Some (None, w1) /\
       constructed w1 = (x, args) :: cs /\
       _models (manager w1) = _models m /\
       _model_configs (manager w1) = _model_configs m /\
       _last_used (manager w1) = _last_used m /\
       held x (manager w1) = false /\
       forall now', exists r w2,
         VLLM.load_model V now' x kw w1 = Some (r, w2) /\
         constructed w2 = (x, args) :: constructed w1).
Proof.
  intros Hx Hl. split.
  - intros cs Ha cfg Hno.
    exists (mkWorld (release x m) ((x, cfg) :: cs)).
    split.
    { rewrite lmdeploy_load_fresh by done. fold cfg.
      by destruct (LMDeploy.pipeline E (length cs) x cfg). }
    repeat split; [apply held_release|].
    intros now' kw'.
    rewrite lmdeploy_load_fresh; [|exact Ha|exact Hx|apply held_release].
    match goal with
    | |- context [match ?o with Built _ => _ | BuiltNone => _ | Failed _ => _ end] =>
        destruct o
    end; eexists _, _; split; reflexivity.
  - intros cs args e Ha Hargs Hfail.
    exists (mkWorld (release x m) ((x, args) :: cs)).
    split.
    { rewrite vllm_load_fresh by done. by rewrite Hargs, Hfail. }
    repeat split; [apply held_release|].
    intros now'.
    rewrite vllm_load_fresh; [|exact Ha|exact Hx|apply held_release].
    rewrite Hargs.
    match goal with
    | |- context [match ?o with Ret _ => _ | Raise _ => _ end] => destruct o
    end; eexists _, _; split; reflexivity.
Qed.

(** With the backend whose constructor raises, two calls in a row on a
    new manager both call the constructor, and the first leaves nothing
    behind. *)
Lemma load_failure_leaves_no_entry_witness :
  exists w1 r w2,
    LMDeploy.load_model broken 1%float "code-model" ∅ empty_world = Some (None, w1) /\
    _models (manager w1) = ∅ /\
    _model_configs (manager w1) = ∅ /\
    _last_used (manager w1) = ∅ /\
    LMDeploy.load_model broken 2%float "code-model" ∅ w1 = Some (r, w2) /\
    length (constructed w1) = 1%nat /\
    length (constructed w2) = 2%nat.
Proof.
  destruct (load_failure_leaves_no_entry broken vllm_broken 1%float "code-model" ∅
              new_manager eq_refl eq_refl) as [HL _].
  destruct (HL [] eq_refl I) as (w1 & H1 & Hc1 & Hm & Hc & Hu & _ & Hretry).
  destruct (Hretry 2%float ∅) as (r & w2 & H2 & Hc2).
  exists w1, r, w2. split; [exact H1|]. split; [exact Hm|]. split; [exact Hc|].
  split; [exact Hu|]. split; [exact H2|]. rewrite Hc2, Hc1. split; reflexivity.
Defined.

(** ** C2: the effective configuration *)

Lemma dict_get_resolve kwargs model_config k global :
  dict_get kwargs k (dict_get model_config k global)
  = resolve (kwargs !! k) (model_config !! k) global.
Proof.
  unfold dict_get, resolve.
  destruct (kwargs !! k); [done|]. by destruct (model_config !! k).
Qed.

Lemma dict_get_resolve_global kwargs k global :
  dict_get kwargs k global = resolve (kwargs !! k) None global.
Proof. unfold dict_get, resolve. by destruct (kwargs !! k). Qed.

(** Every registry entry, the generic one included, has exactly the
    keys [max_model_len], [tensor_parallel_size], [use_case] and
    [description]. *)
Lemma entry_lookup len tp use_case description k :
  Config.entry len tp use_case description !! k =
  if decide (k = "max_model_len") then Some (VInt len)
  else if decide (k = "tensor_parallel_size") then Some (VInt tp)
  else if decide (k = "use_case") then Some (VStr use_case)
  else if decide (k = "description") then Some (VStr description)
  else None.
Proof.
  unfold Config.entry. simpl.
  repeat (case_decide; [subst k; by repeat (rewrite lookup_insert_ne by done);
                                    rewrite ?lookup_insert_eq|]).
  by repeat (rewrite lookup_insert_ne by done).
Qed.

Lemma get_model_config_entry x :
  exists len tp use_case description,
    Config.get_model_config x = Config.entry len tp use_case description.
Proof.
  unfold Config.get_model_config, Config.lookup_model.
  destruct (_ !! x) as [e|] eqn:Hx; simpl; [|eauto].
  apply elem_of_list_to_map_2 in Hx. unfold Config.SUPPORTED_MODELS in Hx.
  repeat (apply elem_of_cons in Hx as [[= _ ->]|Hx]; [eauto|]).
  by apply elem_of_nil in Hx.
Qed.

Lemma registry_has_no_other_key x k :
  k <> "max_model_len" -> k <> "tensor_parallel_size" ->
  k <> "use_case" -> k <> "description" ->
  Config.get_model_config x !! k = None.
Proof.
  intros. destruct (get_model_config_entry x) as (l & t & u & d & ->).
  rewrite entry_lookup. by repeat case_decide.
Qed.

Lemma registry_answers x :
  is_Some (Config.get_model_config x !! "max_model_len") /\
  is_Some (Config.get_model_config x !! "tensor_parallel_size").
Proof.
  destruct (get_model_config_entry x) as (l & t & u & d & ->).
  rewrite !entry_lookup. split; eauto.
Qed.

(** In the vLLM manager a call that overrides none of the named
    keywords gets its arguments from the registry and the settings. *)
Lemma vllm_engine_args_plain (V : VLLM.Env) x kw registry :
  (forall k, k ∈ VLLM.named_keywords -> kw !! k = None) ->
  VLLM.AsyncEngineArgs V x kw registry
  = Ret {|
      VLLM.model := x;
      VLLM.max_model_len :=
        dict_get kw "max_model_len"
          (dict_get registry "max_model_len" (VInt (Config.max_model_len (VLLM.config V))));
      VLLM.max_num_seqs :=
        dict_get kw "max_num_seqs" (VInt (Config.max_num_seqs (VLLM.config V)));
      VLLM.tensor_parallel_size :=
        dict_get kw "tensor_parallel_size"
          (dict_get registry "tensor_parallel_size"
             (VInt (Config.tensor_parallel_size (VLLM.config V))));
      VLLM.gpu_memory_utilization :=
        dict_get kw "gpu_memory_utilization"
          (VFloat (Config.gpu_memory_utilization (VLLM.config V)));
      VLLM.more := kw;
    |}.
Proof.
  intros Hnone. unfold VLLM.AsyncEngineArgs.
  assert (filter (fun k => is_Some (kw !! k)) VLLM.named_keywords = []) as ->; [|done].
  destruct (filter _ VLLM.named_keywords) as [|k ks] eqn:Hf; [done|].
  assert (k ∈ filter (fun k => is_Some (kw !! k)) VLLM.named_keywords) as Hin
    by (rewrite Hf; apply list_elem_of_here).
  apply list_elem_of_filter in Hin as [Hsome Hk].
  rewrite (Hnone k Hk) in Hsome. by destruct Hsome.
Qed.

(** C2, as the code has it. A [load_model] call that has to build the
    model hands the constructor a configuration whose fields are
    resolved one by one. In the LMDeploy manager:
    - the maximum context length and the parallelism degree are the
      per-call override if there is one, else the registry entry, else
      the global default (the registry answers for every identifier,
      unknown ones getting the generic entry);
    - the maximum sequence count is the override if there is one, else
      the global default: no registry entry carries this field;
    - the memory fraction is the override [cache_max_entry_count] if
      there is one, else the constant 0.8.
    In the vLLM manager, for a call that overrides none of the fields
    [load_model] passes by name: the maximum context length and the
    parallelism degree are the registry entry if there is one, else the
    global default; the maximum sequence count and the memory fraction
    are the global defaults. *)
Theorem effective_config_resolution
    (E : LMDeploy.Env) (V : VLLM.Env) (now : float) (x : string)
    (kw : gmap string value) (m : Manager) :
  _models m !! x = None ->
  held x m = false ->
  (forall cs,
     LMDeploy.LMDEPLOY_AVAILABLE E = true ->
     let registry := Config.get_model_config x in
     exists r w' cfg,
       LMDeploy.load_model E now x kw (mkWorld m cs) = Some (r, w') /\
       constructed w' = (x, cfg) :: cs /\
       LMDeploy.session_len cfg
       = resolve (kw !! "max_model_len") (registry !! "max_model_len")
                 (VInt (Config.max_model_len (LMDeploy.config E))) /\
       LMDeploy.tp cfg
       = resolve (kw !! "tensor_parallel_size") (registry !! "tensor_parallel_size")
                 (VInt (Config.tensor_parallel_size (LMDeploy.config E))) /\
       LMDeploy.max_batch_size cfg
       = resolve (kw !! "max_num_seqs") (registry !! "max_num_seqs")
                 (VInt (Config.max_num_seqs (LMDeploy.config E))) /\
       LMDeploy.cache_max_entry_count cfg
       = resolve (kw !! "cache_max_entry_count") None (VFloat 0.8%float) /\
       is_Some (registry !! "max_model_len") /\
       is_Some (registry !! "tensor_parallel_size") /\
       registry !! "max_num_seqs" = None) /\
  (forall cs,
     VLLM.VLLM_AVAILABLE V = true ->
     (forall k, k ∈ VLLM.named_keywords -> kw !! k = None) ->
     let registry := VLLM.get_model_config V x in
     exists r w' args,
       VLLM.load_model V now x kw (mkWorld m cs) = Some (r, w') /\
       constructed w' = (x, args) :: cs /\
       VLLM.max_model_len args
       = resolve None (registry !! "max_model_len")
                 (VInt (Config.max_model_len (VLLM.config V))) /\
       VLLM.tensor_parallel_size args
       = resolve None (registry !! "tensor_parallel_size")
                 (VInt (Config.tensor_parallel_size (VLLM.config V))) /\
       VLLM.max_num_seqs args = VInt (Config.max_num_seqs (VLLM.config V)) /\
       VLLM.gpu_memory_utilization args
       = VFloat (Config.gpu_memory_utilization (VLLM.config V)) /\
       VLLM.more args = kw).
Proof.
  intros Hx Hl. split.
  - intros cs Ha registry.
    rewrite lmdeploy_load_fresh by done. fold registry.
    assert (registry !! "max_num_seqs" = None) as Hnone
      by (by apply registry_has_no_other_key).
    destruct (registry_answers x) as [Hlen Htp].
    assert (LMDeploy.max_batch_size (LMDeploy.engine_config E kw registry)
            = resolve (kw !! "max_num_seqs") (registry !! "max_num_seqs")
                      (VInt (Config.max_num_seqs (LMDeploy.config E)))) as Hseqs.
    { simpl. rewrite dict_get_resolve_global, Hnone. reflexivity. }
    destruct (LMDeploy.pipeline E (length cs) x (LMDeploy.engine_config E kw registry));
      eexists _, _, (LMDeploy.engine_config E kw registry);
      (split; [reflexivity|]); (split; [reflexivity|]);
      simpl; rewrite !dict_get_resolve, !dict_get_resolve_global;
      (split; [reflexivity|]); (split; [reflexivity|]);
      (split; [exact Hseqs|]); (split; [reflexivity|]); done.
  - intros cs Ha Hnone registry.
    rewrite vllm_load_fresh by done. fold registry.
    rewrite (vllm_engine_args_plain V x kw registry Hnone).
    assert (forall k, In k VLLM.named_keywords -> kw !! k = None) as Hnone'
      by (intros k Hk; by apply Hnone, list_elem_of_In).
    pose proof (Hnone' "max_model_len" ltac:(simpl; tauto)) as Hlen.
    pose proof (Hnone' "max_num_seqs" ltac:(simpl; tauto)) as Hseqs.
    pose proof (Hnone' "tensor_parallel_size" ltac:(simpl; tauto)) as Htp.
    pose proof (Hnone' "gpu_memory_utilization" ltac:(simpl; tauto)) as Hmem.
    destruct (VLLM.from_engine_args V _ _); eexists _, _, _;
      (split; [reflexivity|]); (split; [reflexivity|]); simpl;
      rewrite !dict_get_resolve, !dict_get_resolve_global, Hlen, Hseqs, Htp, Hmem;
      by repeat split.
Qed.

(** Mistral has 8192 in the registry; the call overrides it with 512.
    The other fields fall back: registry, global default, constant. *)
Lemma effective_config_resolution_witness :
  exists r w' cfg,
    LMDeploy.load_model working 1%float "mistralai/Mistral-7B-Instruct-v0.1"
      {["max_model_len" := VInt 512]} empty_world = Some (r, w') /\
    constructed w' = [("mistralai/Mistral-7B-Instruct-v0.1", cfg)] /\
    LMDeploy.session_len cfg = VInt 512 /\
    LMDeploy.tp cfg = VInt 1 /\
    LMDeploy.max_batch_size cfg = VInt 256 /\
    LMDeploy.cache_max_entry_count cfg = VFloat 0.8%float.
Proof.
  destruct (effective_config_resolution working vllm_working 1%float
              "mistralai/Mistral-7B-Instruct-v0.1" {["max_model_len" := VInt 512]}
              new_manager eq_refl eq_refl) as [HL _].
  destruct (HL [] eq_refl) as (r & w' & cfg & Hload & Hc & Hlen & Htp & Hseqs & Hmem & _).
  exists r, w', cfg. split; [exact Hload|]. split; [exact Hc|].
  rewrite Hlen, Htp, Hseqs, Hmem. vm_compute. repeat split.
Defined.

(** The claim as the specification words it fails for the memory
    fraction: with the default settings ([gpu_memory_utilization] 0.9)
    and no override, the LMDeploy manager builds Llama 2 with 0.8, where
    the order of priority would give the global default 0.9. *)
Lemma effective_config_resolution_counterexample :
  exists r w' cfg,
    LMDeploy.load_model working 1%float "meta-llama/Llama-2-7b-chat-hf" ∅ empty_world
    = Some (r, w') /\
    constructed w' = [("meta-llama/Llama-2-7b-chat-hf", cfg)] /\
    LMDeploy.cache_max_entry_count cfg = VFloat 0.8%float /\
    resolve ((∅ : gmap string value) !! "cache_max_entry_count")
            (Config.get_model_config "meta-llama/Llama-2-7b-chat-hf" !! "cache_max_entry_count")
            (VFloat (Config.gpu_memory_utilization (LMDeploy.config working)))
    = VFloat 0.9%float /\
    resolve ((∅ : gmap string value) !! "gpu_memory_utilization")
            (Config.get_model_config "meta-llama/Llama-2-7b-chat-hf" !! "gpu_memory_utilization")
            (VFloat (Config.gpu_memory_utilization (LMDeploy.config working)))
    = VFloat 0.9%float /\
    VFloat 0.8%float <> VFloat 0.9%float.
Proof.
  eexists _, _, _. split; [vm_compute; reflexivity|].
  split; [reflexivity|]. split; [reflexivity|].
  split; [vm_compute; reflexivity|]. split; [vm_compute; reflexivity|].
  intros [=].
Qed.

(** In the vLLM manager a keyword that the call site also writes out
    cannot be overridden: the call of [AsyncEngineArgs] raises, and
    [load_model] returns [None] without calling the constructor. *)
Lemma vllm_override_raises (V : VLLM.Env) now x kw m cs k :
  VLLM.VLLM_AVAILABLE V = true ->
  _models m !! x = None ->
  held x m = false ->
  k ∈ VLLM.named_keywords ->
  is_Some (kw !! k) ->
  VLLM.load_model V now x kw (mkWorld m cs) = Some (None, mkWorld (release x m) cs).
Proof.
  intros Ha Hx Hl Hk Hkw. rewrite vllm_load_fresh by done.
  unfold VLLM.AsyncEngineArgs.
  destruct (filter _ VLLM.named_keywords) as [|k' ks] eqn:Hf; [|done].
  assert (k ∈ filter (fun k => is_Some (kw !! k)) VLLM.named_keywords) as Hin
    by (by apply list_elem_of_filter).
  rewrite Hf in Hin. by apply elem_of_nil in Hin.
Qed.

Example vllm_override_max_model_len :
  VLLM.load_model vllm_working 1%float "code-model" {["max_model_len" := VInt 512]}
    empty_world
  = Some (None, mkWorld (release "code-model" new_manager) []).
Proof.
  apply (vllm_override_raises vllm_working _ _ _ _ _ "max_model_len");
    [reflexivity..| |].
  - unfold VLLM.named_keywords. apply list_elem_of_In. simpl. tauto.
  - rewrite lookup_singleton_eq. eauto.
Qed.

(** ** C1: concurrent [load_model] calls for one identifier *)

Lemma total_rank_insert ts i inv t t' :
  ts !! i = Some (inv, t) ->
  (total_rank (<[i := (inv, t')]> ts) + rank t = total_rank ts + rank t')%nat.
Proof.
  unfold total_rank. revert i. induction ts as [|it ts IH]; intros i Hi; [done|].
  destruct i as [|i]; simpl in *.
  - injection Hi as ->. simpl. lia.
  - specialize (IH i Hi). lia.
Qed.

Lemma total_rank_0 ts : total_rank ts = 0%nat -> all_returned ts = true.
Proof.
  unfold total_rank, all_returned. induction ts as [|[inv t] ts IH]; [done|].
  simpl. intros H. destruct t; simpl in *; try lia. apply IH. lia.
Qed.

Lemma not_all_returned ts :
  all_returned ts = false ->
  exists i inv t, ts !! i = Some (inv, t) /\ is_returned t = false.
Proof.
  unfold all_returned. induction ts as [|[inv t] ts IH]; [done|]. simpl.
  destruct (is_returned t) eqn:Ht; simpl.
  - intros H. destruct (IH H) as (i & inv' & t' & Hi & Hr).
    by exists (S i), inv', t'.
  - intros _. by exists 0%nat, inv, t.
Qed.

Section SingleFlight.
Variable E : LMDeploy.Env.
Variable x : string.
Hypothesis Havail : LMDeploy.LMDEPLOY_AVAILABLE E = true.
Hypothesis Hbuilds : forall k cfg, exists h, LMDeploy.pipeline E k x cfg = Built h.
(** the constructor calls made before the callers arrive *)
Variable c0 : list (string * LMDeploy.EngineConfig).

Lemma for_model_insert ts i inv t t' :
  for_model x ts -> ts !! i = Some (inv, t) -> for_model x (<[i := (inv, t')]> ts).
Proof.
  unfold for_model. rewrite !Forall_lookup. intros Hall Hi j it Hj.
  apply list_lookup_insert_Some in Hj as [(-> & <- & _)|(_ & Hj)].
  - apply (Hall _ _ Hi).
  - apply (Hall _ _ Hj).
Qed.

(** A step of a caller either is not possible (it waits for the held
    lock, or it has returned) or brings the caller closer to returning
    and leads to a stage again. *)
Lemma step_phase now ts w i inv t :
  for_model x ts -> phase x c0 ts w -> ts !! i = Some (inv, t) ->
  match LMDeploy.load_model_step E now inv t w with
  | None => (t = AwaitLock /\ held x (manager w) = true) \/ is_returned t = true
  | Some (t', w') => (rank t' < rank t)%nat /\ phase x c0 (<[i := (inv, t')]> ts) w'
  end.
Proof.
  intros Hfor Hph Hi.
  assert (model_name inv = x) as Hname.
  { unfold for_model in Hfor. rewrite Forall_lookup in Hfor. apply (Hfor _ _ Hi). }
  assert (i < length ts)%nat as Hlen by (by eapply lookup_lt_Some).
  destruct inv as [x' kw]. simpl in Hname. subst x'.
  destruct w as [m cs]. simpl in *.
  destruct Hph as [Hx Hl Hc Hall | i0 inv0 mc h cfg Hx Hl Hc Hi0 Hothers | h cfg Hx Hl Hc Hall];
    simpl in *.
  - (* nobody has started *)
    rewrite Forall_lookup in Hall. pose proof (Hall _ _ Hi) as Ht. simpl in Ht. subst t.
    simpl. rewrite lmdeploy_start_fresh by done.
    destruct (Hbuilds (length cs) (LMDeploy.engine_config E kw (Config.get_model_config x)))
      as [h Hh].
    rewrite Hh. split; [simpl; lia|].
    eapply (Loading _ _ i); simpl.
    + unfold ensure_lock. by destruct (_loading_locks m !! x).
    + apply held_acquire.
    + by rewrite Hc.
    + by apply list_lookup_insert_eq.
    + intros j it Hj Hit. rewrite list_lookup_insert_ne in Hit by done.
      left. apply (Hall _ _ Hit).
  - (* one caller is loading *)
    destruct (decide (i = i0)) as [->|Hne].
    + rewrite Hi0 in Hi. injection Hi as -> <-. simpl.
      split; [simpl; lia|]. eapply Loaded; simpl.
      * by rewrite lookup_insert_eq.
      * apply held_release.
      * exact Hc.
      * rewrite Forall_lookup. intros j it Hit.
        apply list_lookup_insert_Some in Hit as [(-> & <- & _)|(Hj & Hit)]; [by right; right|].
        destruct (Hothers j it) as [?|?]; auto.
    + destruct (Hothers i _ Hne Hi) as [Ht|Ht]; simpl in Ht; subst t; simpl.
      * rewrite lmdeploy_start_busy by done. split; [simpl; lia|].
        eapply (Loading _ _ i0); simpl; eauto.
        -- by rewrite list_lookup_insert_ne.
        -- intros j it Hj Hit.
           apply list_lookup_insert_Some in Hit as [(-> & <- & _)|(_ & Hit)]; [by right|].
           by apply (Hothers j).
      * rewrite Hl. by left.
  - (* the model is cached *)
    rewrite Forall_lookup in Hall.
    destruct (Hall _ _ Hi) as [Ht|[Ht|Ht]]; simpl in Ht; subst t; simpl.
    + rewrite (lmdeploy_start_cached E now x kw m cs h) by done.
      split; [simpl; lia|]. eapply Loaded; simpl; eauto.
      rewrite Forall_lookup. intros j it Hit.
      apply list_lookup_insert_Some in Hit as [(-> & <- & _)|(_ & Hit)]; [by right; right|].
      by apply (Hall j).
    + rewrite Hl. unfold on_manager. simpl.
      rewrite (lmdeploy_locked_body_cached E now x kw _ cs h) by done.
      split; [simpl; lia|]. eapply Loaded; simpl; eauto; [apply held_release|].
      rewrite Forall_lookup. intros j it Hit.
      apply list_lookup_insert_Some in Hit as [(-> & <- & _)|(_ & Hit)]; [by right; right|].
      by apply (Hall j).
    + by right.
Qed.

Lemma resume_phase now i ts w :
  for_model x ts -> phase x c0 ts w ->
  for_model x (resume (LMDeploy.load_model_step E) now i ts w).1 /\
  phase x c0 (resume (LMDeploy.load_model_step E) now i ts w).1
        (resume (LMDeploy.load_model_step E) now i ts w).2.
Proof.
  intros Hfor Hph. unfold resume.
  destruct (ts !! i) as [[inv t]|] eqn:Hi; [|done].
  pose proof (step_phase now ts w i inv t Hfor Hph Hi) as Hstep.
  destruct (LMDeploy.load_model_step E now inv t w) as [[t' w']|]; [|done].
  simpl. split; [by eapply for_model_insert | apply Hstep].
Qed.

Lemma run_phase sched ts w :
  for_model x ts -> phase x c0 ts w ->
  for_model x (run (LMDeploy.load_model_step E) sched ts w).1 /\
  phase x c0 (run (LMDeploy.load_model_step E) sched ts w).1
        (run (LMDeploy.load_model_step E) sched ts w).2.
Proof.
  revert ts w. induction sched as [|[i now] sched IH]; intros ts w Hfor Hph; [done|].
  simpl. destruct (resume_phase now i ts w Hfor Hph) as [Hfor' Hph'].
  destruct (resume _ now i ts w) as [ts' w']. by apply IH.
Qed.

(** As long as a caller has not returned, some caller can be resumed,
    and resuming it brings the pool closer to the end. *)
Lemma progress now ts w :
  for_model x ts -> phase x c0 ts w -> all_returned ts = false ->
  exists i,
    (total_rank (resume (LMDeploy.load_model_step E) now i ts w).1 < total_rank ts)%nat.
Proof.
  intros Hfor Hph Hnot.
  destruct (not_all_returned ts Hnot) as (i & inv & t & Hi & Hr).
  assert (forall j inv' t',
            ts !! j = Some (inv', t') ->
            is_Some (LMDeploy.load_model_step E now inv' t' w) ->
            (total_rank (resume (LMDeploy.load_model_step E) now j ts w).1
             < total_rank ts)%nat) as Hdec.
  { intros j inv' t' Hj [[t'' w''] Hs].
    pose proof (step_phase now ts w j inv' t' Hfor Hph Hj) as Hstep.
    unfold resume. rewrite Hj, Hs in *. simpl.
    pose proof (total_rank_insert ts j inv' t' t'' Hj). lia. }
  pose proof (step_phase now ts w i inv t Hfor Hph Hi) as Hstep.
  destruct (LMDeploy.load_model_step E now inv t w) as [[t' w']|] eqn:Hs.
  - exists i. apply (Hdec i inv t Hi). rewrite Hs. eauto.
  - destruct Hstep as [[-> Hheld]|Hret]; [|congruence].
    destruct Hph as [? Hl | i0 inv0 mc h cfg _ _ _ Hi0 _ | ? ? ? Hl]; [congruence| |congruence].
    exists i0. apply (Hdec i0 _ _ Hi0). simpl. eauto.
Qed.

Lemma completes (now : float) n ts w :
  (total_rank ts <= n)%nat -> for_model x ts -> phase x c0 ts w ->
  exists sched, all_returned (run (LMDeploy.load_model_step E) sched ts w).1 = true.
Proof.
  revert ts w. induction n as [|n IH]; intros ts w Hn Hfor Hph.
  - exists []. simpl. apply total_rank_0. lia.
  - destruct (all_returned ts) eqn:Hall; [by exists []|].
    destruct (progress now ts w Hfor Hph Hall) as [i Hi].
    destruct (resume_phase now i ts w Hfor Hph) as [Hfor' Hph'].
    assert (total_rank (resume (LMDeploy.load_model_step E) now i ts w).1 <= n)%nat
      as Hn' by lia.
    destruct (IH _ _ Hn' Hfor' Hph') as [sched Hsched].
    exists ((i, now) :: sched). simpl.
    by destruct (resume _ now i ts w) as [ts' w'].
Qed.

(** What the stages say about the constructor and about the callers. *)
Lemma phase_facts ts w :
  phase x c0 ts w ->
  (length (constructed w) <= S (length c0))%nat /\
  (forall i j inv inv' mc mc' o o',
     ts !! i = Some (inv, AwaitPipeline mc o) ->
     ts !! j = Some (inv', AwaitPipeline mc' o') -> i = j) /\
  (ts <> [] -> all_returned ts = true ->
   exists h cfg,
     constructed w = (x, cfg) :: c0 /\
     _models (manager w) !! x = Some h /\
     Forall (fun it => it.2 = Returned (Some h)) ts).
Proof.
  intros [Hx Hl Hc Hall | i0 inv0 mc0 h cfg Hx Hl Hc Hi0 Hothers | h cfg Hx Hl Hc Hall].
  - split; [rewrite Hc; lia|]. rewrite Forall_lookup in Hall. split.
    + intros i j ?????? Hi _. by pose proof (Hall _ _ Hi).
    + intros Hne Hret. destruct ts as [|[inv t] ts']; [done|].
      pose proof (Hall 0%nat _ eq_refl) as Ht. simpl in Ht. subst t. done.
  - split; [rewrite Hc; simpl; lia|]. split.
    + intros i j ?????? Hi Hj.
      destruct (decide (i = i0)) as [->|Hi'];
        [|by destruct (Hothers _ _ Hi' Hi)].
      destruct (decide (j = i0)) as [->|Hj']; [done|].
      by destruct (Hothers _ _ Hj' Hj).
    + intros _ Hret. unfold all_returned in Hret.
      rewrite forallb_forall in Hret.
      assert (In (inv0, AwaitPipeline mc0 (Built h)) ts) as Hin.
      { apply list_elem_of_In. by eapply list_elem_of_lookup_2. }
      by specialize (Hret _ Hin).
  - split; [rewrite Hc; simpl; lia|]. split.
    + rewrite Forall_lookup in Hall. intros i j ?????? Hi _.
      by destruct (Hall _ _ Hi) as [?|[?|?]].
    + intros _ Hret. exists h, cfg. repeat split; [done..|].
      unfold all_returned in Hret. rewrite forallb_forall in Hret.
      rewrite Forall_forall in *. intros it Hin.
      specialize (Hret it (proj1 (list_elem_of_In _ _) Hin)).
      destruct (Hall it Hin) as [Ht|[Ht|Ht]]; [rewrite Ht in Hret; done..|done].
Qed.

End SingleFlight.

Lemma run_app {W} (step : float -> invocation -> task -> W -> option (task * W))
    sched more ts w :
  run step (sched ++ more) ts w
  = run step more (run step sched ts w).1 (run step sched ts w).2.
Proof.
  revert ts w. induction sched as [|[i now] sched IH]; intros ts w; [done|].
  simpl. destruct (resume step now i ts w) as [ts' w']. apply IH.
Qed.

Lemma run_length {W} (step : float -> invocation -> task -> W -> option (task * W))
    sched ts w :
  length (run step sched ts w).1 = length ts.
Proof.
  revert ts w. induction sched as [|[i now] sched IH]; intros ts w; [done|].
  simpl. destruct (resume step now i ts w) as [ts' w'] eqn:Hr.
  rewrite IH. unfold resume in Hr.
  destruct (ts !! i) as [[inv t]|]; [|by injection Hr as <- _].
  destruct (step now inv t w) as [[t' w'']|]; injection Hr as <- _; [|done].
  apply length_insert.
Qed.

Lemma callers_for_model x kws : for_model x (callers x kws).
Proof. unfold for_model, callers. rewrite Forall_map. by apply Forall_true. Qed.

Lemma callers_created x kws : Forall (fun it => it.2 = Created) (callers x kws).
Proof. unfold callers. rewrite Forall_map. by apply Forall_true. Qed.

Lemma lmdeploy_single_flight
    (E : LMDeploy.Env) (x : string) (kwargs : list (gmap string value))
    (w : World LMDeploy.EngineConfig) :
  LMDeploy.LMDEPLOY_AVAILABLE E = true ->
  (forall k cfg, exists h, LMDeploy.pipeline E k x cfg = Built h) ->
  _models (manager w) !! x = None ->
  held x (manager w) = false ->
  kwargs <> [] ->
  single_flight (LMDeploy.load_model_step E) x kwargs w.
Proof.
  intros Ha Hb Hx Hl Hne.
  assert (phase x (constructed w) (callers x kwargs) w) as Hph.
  { apply Idle; [done..|apply callers_created]. }
  pose proof (callers_for_model x kwargs) as Hfor.
  split.
  - intros sched ts' w'.
    destruct (run_phase E x Ha Hb _ sched _ _ Hfor Hph) as [_ Hph'].
    fold ts' w' in Hph'.
    destruct (phase_facts x _ ts' w' Hph') as (Hlen & Hone & Hall).
    assert (length ts' = length kwargs) as Hn.
    { unfold ts'. rewrite run_length. unfold callers. apply length_map. }
    split; [done|]. split; [done|].
    intros Hret. destruct Hall as (h & cfg & ? & ? & ?); [|done|by exists h, cfg].
    intros ->. destruct kwargs; done.
  - intros sched.
    destruct (run_phase E x Ha Hb _ sched _ _ Hfor Hph) as [Hfor' Hph'].
    destruct (completes E x Ha Hb (constructed w) 0%float _ _ _ (Nat.le_refl _) Hfor' Hph')
      as [more Hmore].
    exists more. by rewrite run_app.
Qed.

(** The same for the vLLM manager, whose [load_model] never waits
    while it holds the lock. *)
Section VLLMSingleFlight.
Variable V : VLLM.Env.
Variable x : string.
Hypothesis Havail : VLLM.VLLM_AVAILABLE V = true.
Hypothesis Hbuilds : forall k args, exists h, VLLM.from_engine_args V k args = Ret h.
Variable c0 : list (string * VLLM.EngineArgs).

Lemma accepted_insert ts i inv t t' :
  accepted V x ts -> ts !! i = Some (inv, t) -> accepted V x (<[i := (inv, t')]> ts).
Proof.
  unfold accepted. rewrite !Forall_lookup. intros Hall Hi j it Hj.
  apply list_lookup_insert_Some in Hj as [(-> & <- & _)|(_ & Hj)].
  - apply (Hall _ _ Hi).
  - apply (Hall _ _ Hj).
Qed.

Lemma vstep_phase now ts w i inv t :
  accepted V x ts -> vphase x c0 ts w -> ts !! i = Some (inv, t) ->
  match VLLM.load_model_step V now inv t w with
  | None => is_returned t = true
  | Some (t', w') => (rank t' < rank t)%nat /\ vphase x c0 (<[i := (inv, t')]> ts) w'
  end.
Proof.
  intros Hacc Hph Hi.
  assert (model_name inv = x /\
          exists args, VLLM.AsyncEngineArgs V x (kwargs inv) (VLLM.get_model_config V x)
                       = Ret args) as [Hname [args Hargs]].
  { unfold accepted in Hacc. rewrite Forall_lookup in Hacc. apply (Hacc _ _ Hi). }
  destruct inv as [x' kw]. simpl in Hname, Hargs. subst x'.
  destruct w as [m cs]. simpl in *.
  destruct Hph as [Hx Hl Hc Hall | h args0 Hx Hl Hc Hall]; simpl in *.
  - rewrite Forall_lookup in Hall. pose proof (Hall _ _ Hi) as Ht. simpl in Ht. subst t.
    simpl. rewrite vllm_start_fresh by done.
    rewrite vllm_locked_body_fresh
      by (unfold acquire, ensure_lock; simpl; by destruct (_loading_locks m !! x)).
    rewrite Hargs. destruct (Hbuilds (length cs) args) as [h Hh]. rewrite Hh.
    split; [simpl; lia|]. eapply VLoaded; simpl.
    + by rewrite lookup_insert_eq.
    + apply held_release.
    + by rewrite Hc.
    + rewrite Forall_lookup. intros j it Hit.
      apply list_lookup_insert_Some in Hit as [(-> & <- & _)|(_ & Hit)]; [by right|].
      left. apply (Hall _ _ Hit).
  - rewrite Forall_lookup in Hall.
    destruct (Hall _ _ Hi) as [Ht|Ht]; simpl in Ht; subst t; simpl; [|done].
    unfold VLLM.start. rewrite Havail. simpl. rewrite (cached_Some _ _ _ _ Hx).
    split; [simpl; lia|]. eapply VLoaded; simpl; eauto.
    rewrite Forall_lookup. intros j it Hit.
    apply list_lookup_insert_Some in Hit as [(-> & <- & _)|(_ & Hit)]; [by right|].
    by apply (Hall j).
Qed.

Lemma vresume_phase now i ts w :
  accepted V x ts -> vphase x c0 ts w ->
  accepted V x (resume (VLLM.load_model_step V) now i ts w).1 /\
  vphase x c0 (resume (VLLM.load_model_step V) now i ts w).1
         (resume (VLLM.load_model_step V) now i ts w).2.
Proof.
  intros Hacc Hph. unfold resume.
  destruct (ts !! i) as [[inv t]|] eqn:Hi; [|done].
  pose proof (vstep_phase now ts w i inv t Hacc Hph Hi) as Hstep.
  destruct (VLLM.load_model_step V now inv t w) as [[t' w']|]; [|done].
  simpl. split; [by eapply accepted_insert | apply Hstep].
Qed.

Lemma vrun_phase sched ts w :
  accepted V x ts -> vphase x c0 ts w ->
  accepted V x (run (VLLM.load_model_step V) sched ts w).1 /\
  vphase x c0 (run (VLLM.load_model_step V) sched ts w).1
         (run (VLLM.load_model_step V) sched ts w).2.
Proof.
  revert ts w. induction sched as [|[i now] sched IH]; intros ts w Hacc Hph; [done|].
  simpl. destruct (vresume_phase now i ts w Hacc Hph) as [Hacc' Hph'].
  destruct (resume _ now i ts w) as [ts' w']. by apply IH.
Qed.

Lemma vcompletes (now : float) n ts w :
  (total_rank ts <= n)%nat -> accepted V x ts -> vphase x c0 ts w ->
  exists sched, all_returned (run (VLLM.load_model_step V) sched ts w).1 = true.
Proof.
  revert ts w. induction n as [|n IH]; intros ts w Hn Hacc Hph.
  - exists []. simpl. apply total_rank_0. lia.
  - destruct (all_returned ts) eqn:Hall; [by exists []|].
    destruct (not_all_returned ts Hall) as (i & inv & t & Hi & Hr).
    pose proof (vstep_phase now ts w i inv t Hacc Hph Hi) as Hstep.
    destruct (vresume_phase now i ts w Hacc Hph) as [Hacc' Hph'].
    assert (total_rank (resume (VLLM.load_model_step V) now i ts w).1 <= n)%nat as Hn'.
    { unfold resume. rewrite Hi.
      destruct (VLLM.load_model_step V now inv t w) as [[t' w']|]; [|congruence].
      simpl. pose proof (total_rank_insert ts i inv t t' Hi). lia. }
    destruct (IH _ _ Hn' Hacc' Hph') as [sched Hsched].
    exists ((i, now) :: sched). simpl.
    by destruct (resume _ now i ts w) as [ts' w'].
Qed.

Lemma vphase_facts ts w :
  vphase x c0 ts w ->
  (length (constructed w) <= S (length c0))%nat /\
  (forall i inv mc o, ts !! i = Some (inv, AwaitPipeline mc o) -> False) /\
  (ts <> [] -> all_returned ts = true ->
   exists h args,
     constructed w = (x, args) :: c0 /\
     _models (manager w) !! x = Some h /\
     Forall (fun it => it.2 = Returned (Some h)) ts).
Proof.
  intros [Hx Hl Hc Hall | h args Hx Hl Hc Hall].
  - split; [rewrite Hc; lia|]. rewrite Forall_lookup in Hall. split.
    + intros i ??? Hi. by pose proof (Hall _ _ Hi).
    + intros Hne Hret. destruct ts as [|[inv t] ts']; [done|].
      pose proof (Hall 0%nat _ eq_refl) as Ht. simpl in Ht. subst t. done.
  - split; [rewrite Hc; simpl; lia|]. split.
    + rewrite Forall_lookup in Hall. intros i ??? Hi.
      by destruct (Hall _ _ Hi) as [?|?].
    + intros _ Hret. exists h, args. repeat split; [done..|].
      unfold all_returned in Hret. rewrite forallb_forall in Hret.
      rewrite Forall_forall in *. intros it Hin.
      specialize (Hret it (proj1 (list_elem_of_In _ _) Hin)).
      destruct (Hall it Hin) as [Ht|Ht]; [by rewrite Ht in Hret|done].
Qed.

End VLLMSingleFlight.

Lemma vllm_single_flight
    (V : VLLM.Env) (x : string) (kwargs : list (gmap string value))
    (w : World VLLM.EngineArgs) :
  VLLM.VLLM_AVAILABLE V = true ->
  (forall kw, kw ∈ kwargs ->
     exists args, VLLM.AsyncEngineArgs V x kw (VLLM.get_model_config V x) = Ret args) ->
  (forall k args, exists h, VLLM.from_engine_args V k args = Ret h) ->
  _models (manager w) !! x = None ->
  held x (manager w) = false ->
  kwargs <> [] ->
  single_flight (VLLM.load_model_step V) x kwargs w.
Proof.
  intros Ha Hargs Hb Hx Hl Hne.
  assert (vphase x (constructed w) (callers x kwargs) w) as Hph.
  { apply VIdle; [done..|apply callers_created]. }
  assert (accepted V x (callers x kwargs)) as Hacc.
  { unfold accepted, callers. rewrite Forall_map. rewrite Forall_forall.
    intros kw Hkw. simpl. split; [done|]. by apply Hargs. }
  split.
  - intros sched ts' w'.
    destruct (vrun_phase V x Ha Hb _ sched _ _ Hacc Hph) as [_ Hph'].
    fold ts' w' in Hph'.
    destruct (vphase_facts x _ ts' w' Hph') as (Hlen & Hnone & Hall).
    assert (length ts' = length kwargs) as Hn.
    { unfold ts'. rewrite run_length. unfold callers. apply length_map. }
    split; [done|]. split.
    { intros i j ?????? Hi _. by destruct (Hnone _ _ _ _ Hi). }
    intros Hret. destruct Hall as (h & cfg & ? & ? & ?); [|done|by exists h, cfg].
    intros ->. destruct kwargs; done.
  - intros sched.
    destruct (vrun_phase V x Ha Hb _ sched _ _ Hacc Hph) as [Hacc' Hph'].
    destruct (vcompletes V x Ha Hb (constructed w) 0%float _ _ _ (Nat.le_refl _) Hacc' Hph')
      as [more Hmore].
    exists more. by rewrite run_app.
Qed.

(** C1, as the code has it. Let [x] be neither cached nor being loaded,
    let the backend be there and let the construction of [x] succeed
    (for the vLLM manager: in calls that override none of the fields
    [load_model] passes by name). Then any number [N >= 1] of concurrent [load_model x]
    calls, whatever their keyword arguments and however the event loop
    interleaves them, call the constructor exactly once and all return
    the same handle; at no moment have two of them called the
    constructor, and at every moment the event loop can go on so that
    all of them return ([single_flight]). *)
Theorem single_flight_load
    (E : LMDeploy.Env) (V : VLLM.Env) (x : string)
    (kwargs : list (gmap string value)) (m : Manager) :
  _models m !! x = None ->
  held x m = false ->
  kwargs <> [] ->
  (forall cs,
     LMDeploy.LMDEPLOY_AVAILABLE E = true ->
     (forall k cfg, exists h, LMDeploy.pipeline E k x cfg = Built h) ->
     single_flight (LMDeploy.load_model_step E) x kwargs (mkWorld m cs)) /\
  (forall cs,
     VLLM.VLLM_AVAILABLE V = true ->
     (forall kw k, kw ∈ kwargs -> k ∈ VLLM.named_keywords -> kw !! k = None) ->
     (forall k args, exists h, VLLM.from_engine_args V k args = Ret h) ->
     single_flight (VLLM.load_model_step V) x kwargs (mkWorld m cs)).
Proof.
  intros Hx Hl Hne. split.
  - intros cs Ha Hb. by apply lmdeploy_single_flight.
  - intros cs Ha Hplain Hb. apply vllm_single_flight; [done| |done..].
    intros kw Hkw. eexists. apply vllm_engine_args_plain.
    intros k Hk. by apply (Hplain kw).
Qed.

(** Five callers of ["code-model"], each resumed twice in turn: one
    constructor call, five times the same handle. *)
Lemma single_flight_load_witness :
  let sched := (round_robin 5 1%float ++ round_robin 5 2%float)%list in
  let ts := callers "code-model" (replicate 5 ∅) in
  let r := run (LMDeploy.load_model_step working) sched ts empty_world in
  all_returned r.1 = true /\
  exists h cfg,
    constructed r.2 = [("code-model", cfg)] /\
    _models (manager r.2) !! "code-model" = Some h /\
    length r.1 = 5%nat /\
    Forall (fun it => it.2 = Returned (Some h)) r.1.
Proof.
  assert (forall k cfg, exists h, LMDeploy.pipeline working k "code-model" cfg = Built h)
    as Hbuilds by (intros; eexists; reflexivity).
  assert (replicate 5 (∅ : gmap string value) <> []) as Hne by discriminate.
  destruct (single_flight_load working vllm_working "code-model" (replicate 5 ∅)
              new_manager eq_refl eq_refl Hne) as [HL _].
  destruct (HL [] eq_refl Hbuilds) as [Hall _].
  intros sched ts r.
  assert (all_returned r.1 = true) as Hret by (vm_compute; reflexivity).
  split; [exact Hret|].
  destruct (Hall sched) as (_ & _ & Hsame). exact (Hsame Hret).
Defined.

(** Without the proviso the claim fails. When the constructor raises,
    two concurrent callers of an identifier that is not cached call it
    twice (the second caller finds the cache empty after it got the
    lock) and neither gets a handle; when the backend is not there,
    nobody calls it. *)
Lemma single_flight_load_counterexample :
  let ts := callers "code-model" [∅; ∅] in
  let sched := [(0%nat, 1%float); (1%nat, 1%float); (0%nat, 2%float); (1%nat, 2%float);
                (1%nat, 3%float)] in
  let r := run (LMDeploy.load_model_step broken) sched ts empty_world in
  let r' := run (LMDeploy.load_model_step missing) sched ts empty_world in
  _models (manager (@empty_world LMDeploy.EngineConfig)) !! "code-model" = None /\
  r.1.*2 = [Returned None; Returned None] /\
  length (constructed r.2) = 2%nat /\
  r'.1.*2 = [Returned None; Returned None] /\
  length (constructed r'.2) = 0%nat.
Proof. vm_compute. repeat split. Qed.

(** ** C8: the prompt of a chat *)

Lemma prompt_parts_known messages parts :
  Forall known_role messages ->
  foldl Gateway.add_part parts messages = (parts ++ map render messages)%list.
Proof.
  intros Hall. revert parts.
  induction Hall as [|message messages Hrole _ IH]; intros parts; simpl.
  - by rewrite app_nil_r.
  - rewrite IH.
    assert (Gateway.add_part parts message = (parts ++ [render message])%list) as ->.
    { unfold Gateway.add_part, render.
      destruct message as [role content]. unfold known_role in Hrole. simpl in *.
      destruct Hrole as [-> | [-> | ->]]; reflexivity. }
    by rewrite <- app_assoc.
Qed.

(** C8. For every list of messages whose roles are [system], [user] or
    [assistant], the prompt is the lines ["Role: content"] of the
    messages, in order, joined by line feeds, followed by a line feed
    and ["Assistant: "]. *)
Theorem format_prompt_from_messages_correct (messages : list Gateway.ChatMessage) :
  Forall known_role messages ->
  Gateway.format_prompt_from_messages messages
  = Gateway.join Gateway.LF (map render messages) +:+ Gateway.LF +:+ "Assistant: ".
Proof.
  intros Hall. unfold Gateway.format_prompt_from_messages.
  by rewrite prompt_parts_known.
Qed.

(** The scenario of the specification. *)
Lemma format_prompt_from_messages_correct_witness :
  Gateway.format_prompt_from_messages
    [Gateway.Build_ChatMessage "system" "be terse"; Gateway.Build_ChatMessage "user" "hi"]
  = "System: be terse" +:+ Gateway.LF +:+ "User: hi" +:+ Gateway.LF +:+ "Assistant: ".
Proof.
  rewrite format_prompt_from_messages_correct.
  - reflexivity.
  - constructor; [by left|]. constructor; [by right; left|]. constructor.
Defined.

(** ** C9: the objects of a streamed response *)

Lemma append_empty_r (s : string) : s +:+ "" = s.
Proof.
  induction s as [|c s IH]; [done|].
  change (String c (s +:+ "") = String c s). by rewrite IH.
Qed.

Lemma append_assoc (a b c : string) : (a +:+ b) +:+ c = a +:+ b +:+ c.
Proof.
  induction a as [|x a IH]; [done|].
  change (String x ((a +:+ b) +:+ c) = String x (a +:+ b +:+ c)). by rewrite IH.
Qed.

Lemma stream_chunks_spec clock model_name n full_response chunks :
  let r := Gateway.stream_chunks clock model_name n full_response chunks in
  map Gateway.response r.1 = chunks /\
  Forall (fun line => Gateway.done line = false) r.1 /\
  length r.1 = length chunks /\
  r.2 = full_response +:+ String.concat "" chunks.
Proof.
  revert n full_response. induction chunks as [|chunk chunks IH]; intros n full_response.
  - simpl. repeat split; [constructor|]. by rewrite append_empty_r.
  - simpl. specialize (IH (S n) (full_response +:+ chunk)).
    destruct (Gateway.stream_chunks clock model_name (S n) (full_response +:+ chunk) chunks)
      as [rest full]. simpl in *.
    destruct IH as (Hmap & Hdone & Hlen & Hfull).
    split; [by rewrite Hmap|]. split; [by apply List.Forall_cons|].
    split; [by rewrite Hlen|].
    rewrite Hfull, append_assoc. destruct chunks as [|chunk' chunks]; simpl.
    + by rewrite append_empty_r.
    + reflexivity.
Qed.

(** C9. When the stream yields the fragments and then ends, the response
    is one object per fragment, in order, each carrying the fragment
    and [done: false], followed by one last object that carries
    [done: true], the aggregate duration, and as [eval_count] the number
    of words of the concatenation of the fragments. *)
Theorem stream_final_object (clock : Gateway.Clock) (model_name : string)
    (fragments : list string) :
  exists lines final,
    Gateway.stream_lines clock model_name (Some (Gen fragments Exhausted))
    = (lines ++ [final])%list /\
    map Gateway.response lines = fragments /\
    Forall (fun line => Gateway.done line = false) lines /\
    Gateway.done final = true /\
    Gateway.response final = "" /\
    Gateway.total_duration final = Some (Gateway.elapsed_ms clock) /\
    Gateway.eval_count final
    = Some (length (Gateway.split (String.concat "" fragments))).
Proof.
  unfold Gateway.stream_lines. simpl.
  destruct (stream_chunks_spec clock model_name 0 "" fragments) as (Hmap & Hdone & _ & Hfull).
  destruct (Gateway.stream_chunks clock model_name 0 "" fragments) as [lines full].
  simpl in *. eexists lines, _. split; [reflexivity|]. simpl.
  rewrite Hfull. by repeat split.
Qed.

(** The scenario of the specification: the fragments ["Hel"] and ["lo"]
    are counted as the one word ["Hello"]. *)
Example stream_hello :
  map (fun line => (Gateway.response line, Gateway.done line, Gateway.eval_count line))
      (Gateway.stream_lines wall_clock "m" (Some (Gen ["Hel"; "lo"] Exhausted)))
  = [("Hel", false, None); ("lo", false, None); ("", true, Some 1%nat)]
  /\ Gateway.split "Hello" = ["Hello"].
Proof. split; vm_compute; reflexivity. Qed.

(** The same from the request to the last object: the model is loaded,
    the pipeline streams the two fragments, the gateway frames them. *)
Example stream_hello_end_to_end :
  (fun lw => map (fun line => (Gateway.response line, Gateway.done line,
                               Gateway.eval_count line)) lw.1)
    <$> Gateway.generate_stream speller wall_clock 1%float "m" "hi" None empty_world
  = Some [("Hel", false, None); ("lo", false, None); ("", true, Some 1%nat)].
Proof. vm_compute. reflexivity. Qed.

(** ** C7: a producer that fails in the middle *)

Lemma drain_chunks chunks rest :
  LMDeploy.drain (map LMDeploy.Chunk chunks ++ rest)
  = Gen (chunks ++ yielded (LMDeploy.drain rest)) (finish (LMDeploy.drain rest)).
Proof.
  induction chunks as [|chunk chunks IH]; simpl.
  - by destruct (LMDeploy.drain rest).
  - by rewrite IH.
Qed.

(** The LMDeploy stream ends in the same way whether [stream_infer]
    is exhausted or raises: the consumer is handed the chunks and a
    normal end. *)
Lemma lmdeploy_stream_generator pipe prompt generation_config :
  finish (stream_infer pipe prompt generation_config) <> Blocked ->
  LMDeploy.stream_generator pipe prompt generation_config
  = Gen (yielded (LMDeploy.sync_stream pipe prompt generation_config)) Exhausted.
Proof.
  intros Hfin. unfold LMDeploy.stream_generator, LMDeploy.run_stream.
  rewrite drain_chunks. unfold LMDeploy.sync_stream. simpl.
  destruct (finish (stream_infer pipe prompt generation_config)); simpl;
    [by rewrite app_nil_r..|done].
Qed.

(** What the gateway does when the stream it reads raises: the chunks
    read so far, then one last object with the error. *)
Lemma stream_lines_raised clock model_name fragments e :
  exists lines final,
    Gateway.stream_lines clock model_name (Some (Gen fragments (Raised e)))
    = (lines ++ [final])%list /\
    map Gateway.response lines = fragments /\
    Forall (fun line => Gateway.done line = false) lines /\
    Gateway.done final = true /\
    Gateway.response final = "Error: " +:+ str_exn e.
Proof.
  unfold Gateway.stream_lines. simpl.
  destruct (stream_chunks_spec clock model_name 0 "" fragments) as (Hmap & Hdone & _ & _).
  destruct (Gateway.stream_chunks clock model_name 0 "" fragments) as [lines full].
  simpl in *. eexists lines, _. split; [reflexivity|]. by repeat split.
Qed.

(** C7, at an input where the code departs from it. The pipeline yields
    ["Hel"] and then raises. The LMDeploy gateway answers with the chunk
    and then with an ordinary last object ([done: true], empty
    response, a word count): the error reaches nobody. The vLLM path,
    fed the same failure, ends with the object that carries the
    error. *)
Theorem stream_error_is_swallowed :
  (exists w',
     Gateway.generate_stream flaky wall_clock 1%float "m" "hi" None empty_world
     = Some
         ([{| Gateway.model := "m"; Gateway.created_at := "2024-01-01T00:00:00";
              Gateway.response := "Hel"; Gateway.done := false;
              Gateway.total_duration := None; Gateway.eval_count := None;
              Gateway.eval_duration := None |};
           {| Gateway.model := "m"; Gateway.created_at := "2024-01-01T00:00:01";
              Gateway.response := ""; Gateway.done := true;
              Gateway.total_duration := Some 1500; Gateway.eval_count := Some 1%nat;
              Gateway.eval_duration := Some 1500 |}], w')) /\
  LMDeploy.run_stream (LMDeploy.sync_stream flaky_pipe "hi" None)
  = [LMDeploy.Chunk "Hel"; LMDeploy.Done] /\
  map (fun line => (Gateway.response line, Gateway.done line))
      (Gateway.stream_lines wall_clock "m"
         (Some (VLLM.stream_generator flaky_pipe "hi" None)))
  = [("Hel", false); ("Error: CUDA error", true)].
Proof.
  split; [eexists; vm_compute; reflexivity|]. split; vm_compute; reflexivity.
Qed.

(** ** C6: an absent backend and a failed load *)

(** C6, as the code has it. [load_model] returns [None] both when the
    backend is not there and when the construction of the model fails.
    What tells the two apart is the availability flag, which the status
    of the manager reports and which [/api/generate] tests before it
    calls the manager. When the backend is not there the endpoint
    answers 503, for a request with streaming as for one without. When
    the load fails it answers 500 to a request without streaming; to a
    request with streaming it answers with a stream of one object that
    carries [done: true], an empty response and a duration of 0, under
    the status 200 of a streamed response. *)
Theorem unavailable_503_load_failure_500
    (E : LMDeploy.Env) (clock : Gateway.Clock) (now : float)
    (request : Gateway.GenerateRequest) (m : Manager)
    (cs : list (string * LMDeploy.EngineConfig)) :
  _models m !! Gateway.req_model request = None ->
  held (Gateway.req_model request) m = false ->
  let x := Gateway.req_model request in
  let w := mkWorld m cs in
  (LMDeploy.LMDEPLOY_AVAILABLE E = false ->
     LMDeploy.load_model E now x ∅ w = Some (None, w) /\
     LMDeploy.lmdeploy_available (Gateway.get_status E w) = false /\
     Gateway.generate E clock now request w
     = Some (Raise (HTTPException 503 "LMDeploy not available"), w)) /\
  (LMDeploy.LMDEPLOY_AVAILABLE E = true ->
     no_instance
       (LMDeploy.pipeline E (length cs) x
          (LMDeploy.engine_config E ∅ (Config.get_model_config x))) ->
     exists w',
       LMDeploy.load_model E now x ∅ w = Some (None, w') /\
       LMDeploy.lmdeploy_available (Gateway.get_status E w') = true /\
       (Gateway.req_stream request = false ->
        Gateway.generate E clock now request w
        = Some (Raise (HTTPException 500
                         ("500: Failed to generate text with model " +:+ x)), w')) /\
       (Gateway.req_stream request = true ->
        Gateway.generate E clock now request w
        = Some (Ret (Gateway.Streaming
                       [{| Gateway.model := x;
                           Gateway.created_at := Gateway.isoformat_now clock 0;
                           Gateway.response := ""; Gateway.done := true;
                           Gateway.total_duration := Some 0%Z;
                           Gateway.eval_count := None;
                           Gateway.eval_duration := None |}]), w'))).
Proof.
  intros Hx Hl x w. split.
  - intros Ha. split; [by apply lmdeploy_load_unavailable|]. split.
    + simpl. exact Ha.
    + unfold Gateway.generate. by rewrite Ha.
  - intros Ha Hno.
    assert (LMDeploy.load_model E now x ∅ w
            = Some (None, mkWorld (release x m)
                            ((x, LMDeploy.engine_config E ∅ (Config.get_model_config x)) :: cs)))
      as Hload.
    { unfold w. rewrite lmdeploy_load_fresh by done.
      by destruct (LMDeploy.pipeline E _ _ _). }
    eexists. split; [exact Hload|]. split; [simpl; exact Ha|]. split.
    + intros Hstream. unfold Gateway.generate. rewrite Ha, Hstream. simpl.
      unfold LMDeploy.generate_text. rewrite Ha. simpl.
      fold x. fold w. rewrite Hload. simpl. reflexivity.
    + intros Hstream. unfold Gateway.generate. rewrite Ha, Hstream. simpl.
      unfold Gateway.generate_stream, LMDeploy.generate_stream. rewrite Ha. simpl.
      fold x. fold w. rewrite Hload. simpl. reflexivity.
Qed.

(** The situations on a new manager: 503 from the missing backend, with
    and without streaming; from the backend that cannot build the
    model, 500 without streaming and a stream of one object with
    streaming. *)
Lemma unavailable_503_load_failure_500_witness :
  let plain := Gateway.Build_GenerateRequest "code-model" "hi" false None in
  let streamed := Gateway.Build_GenerateRequest "code-model" "hi" true None in
  Gateway.generate missing wall_clock 1%float plain empty_world
  = Some (Raise (HTTPException 503 "LMDeploy not available"), empty_world) /\
  Gateway.generate missing wall_clock 1%float streamed empty_world
  = Some (Raise (HTTPException 503 "LMDeploy not available"), empty_world) /\
  (exists w',
     Gateway.generate broken wall_clock 1%float plain empty_world
     = Some (Raise (HTTPException 500 "500: Failed to generate text with model code-model"),
             w')) /\
  (exists w' lines,
     Gateway.generate broken wall_clock 1%float streamed empty_world
     = Some (Ret (Gateway.Streaming lines), w') /\
     map (fun line => (Gateway.response line, Gateway.done line)) lines = [("", true)]).
Proof.
  intros plain streamed.
  destruct (unavailable_503_load_failure_500 missing wall_clock 1%float plain
              new_manager [] eq_refl eq_refl) as [Hmissing _].
  destruct (unavailable_503_load_failure_500 missing wall_clock 1%float streamed
              new_manager [] eq_refl eq_refl) as [Hmissing' _].
  destruct (unavailable_503_load_failure_500 broken wall_clock 1%float plain
              new_manager [] eq_refl eq_refl) as [_ Hbroken].
  destruct (unavailable_503_load_failure_500 broken wall_clock 1%float streamed
              new_manager [] eq_refl eq_refl) as [_ Hbroken'].
  split; [exact (proj2 (proj2 (Hmissing eq_refl)))|].
  split; [exact (proj2 (proj2 (Hmissing' eq_refl)))|].
  split.
  - destruct (Hbroken eq_refl I) as (w' & _ & _ & Hgen & _).
    exists w'. exact (Hgen eq_refl).
  - destruct (Hbroken' eq_refl I) as (w' & _ & _ & _ & Hgen).
    eexists w', _. split; [exact (Hgen eq_refl)|reflexivity].
Defined.

(** The manager itself does not signal the difference to its caller:
    [load_model] and [generate_text] return [None] in both situations,
    and the endpoint that only calls [load_model] answers 500 in
    both. Nor is a failed load always answered with 500: a request with
    streaming is given a streamed response, which raises nothing. *)
Lemma unavailable_503_load_failure_500_counterexample :
  (fst <$> LMDeploy.load_model missing 1%float "code-model" ∅ empty_world) = Some None /\
  (fst <$> LMDeploy.load_model broken 1%float "code-model" ∅ empty_world) = Some None /\
  (fst <$> LMDeploy.generate_text missing 1%float "code-model" "hi" None ∅ empty_world)
  = Some None /\
  (fst <$> LMDeploy.generate_text broken 1%float "code-model" "hi" None ∅ empty_world)
  = Some None /\
  (status_code_of ∘ fst <$> Gateway.load_model missing 1%float "code-model" empty_world)
  = Some (Some 500) /\
  (status_code_of ∘ fst <$> Gateway.load_model broken 1%float "code-model" empty_world)
  = Some (Some 500) /\
  (status_code_of ∘ fst
     <$> Gateway.generate broken wall_clock 1%float
           (Gateway.Build_GenerateRequest "code-model" "hi" true None) empty_world)
  = Some None.
Proof. vm_compute. repeat split. Qed.

(** * Further properties of the code *)

(** ** The cache *)

(** A [load_model] call for a cached identifier returns the cached
    handle whatever keyword arguments it is given: it calls no
    constructor, touches no lock, and only sets the timestamp of the
    identifier to the clock reading. Overrides that differ from the
    ones the model was built with are not noticed. *)
Theorem load_model_cache_hit
    (E : LMDeploy.Env) (V : VLLM.Env) (now : float) (x : string)
    (kw : gmap string value) (m : Manager) (h : handle) :
  _models m !! x = Some h ->
  (forall cs,
     LMDeploy.LMDEPLOY_AVAILABLE E = true ->
     LMDeploy.load_model E now x kw (mkWorld m cs)
     = Some (Some h, mkWorld (set_last_used <[x := now]> m) cs) /\
     LMDeploy.load_model E now x kw (mkWorld m cs)
     = LMDeploy.load_model E now x ∅ (mkWorld m cs)) /\
  (forall cs,
     VLLM.VLLM_AVAILABLE V = true ->
     VLLM.load_model V now x kw (mkWorld m cs)
     = Some (Some h, mkWorld (set_last_used <[x := now]> m) cs) /\
     VLLM.load_model V now x kw (mkWorld m cs)
     = VLLM.load_model V now x ∅ (mkWorld m cs)).
Proof.
  intros Hx. split; intros cs Ha.
  - by rewrite !(lmdeploy_load_cached E now x _ m cs h).
  - by rewrite !(vllm_load_cached V now x _ m cs h).
Qed.

Lemma load_model_cache_hit_witness :
  LMDeploy.load_model working 7%float "new" {["max_model_len" := VInt 512]}
    (mkWorld two_models [])
  = Some (Some (echo 1 "hi"), mkWorld (set_last_used <["new" := 7%float]> two_models) []).
Proof.
  apply (load_model_cache_hit working vllm_working 7%float "new" _ two_models (echo 1 "hi")).
  - vm_compute. reflexivity.
  - reflexivity.
Defined.

Lemma drop_cache_model now x h mc m :
  same_keys m -> _models m !! x = None -> drop x (cache_model now x h mc m) = m.
Proof.
  intros Hk Hx. unfold drop, cache_model. simpl.
  rewrite !delete_insert_eq.
  change (drop x m = m). by apply drop_absent.
Qed.

(** Loading a model that was not cached and unloading it again leaves
    the cache, the configuration map and the timestamp map as they were
    before the load; unloading it once more returns [False]. *)
Theorem load_then_unload
    (E : LMDeploy.Env) (now : float) (x : string) (kw : gmap string value)
    (m : Manager) (cs : list (string * LMDeploy.EngineConfig)) (pipe : handle) :
  same_keys m ->
  LMDeploy.LMDEPLOY_AVAILABLE E = true ->
  _models m !! x = None ->
  held x m = false ->
  LMDeploy.pipeline E (length cs) x
    (LMDeploy.engine_config E kw (Config.get_model_config x)) = Built pipe ->
  exists w1 m2,
    LMDeploy.load_model E now x kw (mkWorld m cs) = Some (Some pipe, w1) /\
    LMDeploy.unload_model x (manager w1) = (Ret true, m2) /\
    _models m2 = _models m /\
    _model_configs m2 = _model_configs m /\
    _last_used m2 = _last_used m /\
    LMDeploy.unload_model x m2 = (Ret false, m2).
Proof.
  intros Hk Ha Hx Hl Hb.
  rewrite lmdeploy_load_fresh by done. rewrite Hb.
  eexists _, (release x m). split; [reflexivity|]. simpl.
  assert (same_keys (release x m)) as Hk' by (by apply same_keys_locks).
  assert (_models (release x m) !! x = None) as Hx' by done.
  split.
  - rewrite (lmdeploy_unload_cached _ x pipe).
    + by rewrite drop_cache_model.
    + by apply same_keys_cache_model.
    + simpl. by rewrite lookup_insert_eq.
  - repeat split. by apply lmdeploy_unload_absent.
Qed.

Lemma load_then_unload_witness :
  exists w1 m2,
    LMDeploy.load_model working 1%float "code-model" ∅ (mkWorld two_models [])
    = Some (Some (echo 0 "code-model"), w1) /\
    LMDeploy.unload_model "code-model" (manager w1) = (Ret true, m2) /\
    _models m2 = _models two_models /\
    _model_configs m2 = _model_configs two_models /\
    _last_used m2 = _last_used two_models /\
    LMDeploy.unload_model "code-model" m2 = (Ret false, m2).
Proof.
  apply (load_then_unload working 1%float "code-model" ∅ two_models [] (echo 0 "code-model")
           two_models_keys eq_refl).
  - vm_compute. reflexivity.
  - vm_compute. reflexivity.
  - reflexivity.
Defined.

(** ** What the manager reports *)

(** The status counts the identifiers it lists; the list holds every
    cached identifier once and nothing else, in both managers. *)
Theorem status_lists_the_cache (E : LMDeploy.Env) (m : Manager) :
  let status := LMDeploy.get_system_status E m in
  LMDeploy.loaded_models status = length (LMDeploy.model_list status) /\
  NoDup (LMDeploy.model_list status) /\
  (forall x, x ∈ LMDeploy.model_list status <-> is_Some (_models m !! x)) /\
  LMDeploy.model_list status = VLLM.list_loaded_models m /\
  (LMDeploy.loaded_models status = 0%nat <-> _models m = ∅).
Proof.
  simpl. unfold LMDeploy.list_loaded_models, VLLM.list_loaded_models.
  split; [by rewrite length_fmap, length_map_to_list|].
  split; [apply NoDup_fst_map_to_list|]. split; [|split; [done|apply map_size_empty_iff]].
  intros x. rewrite list_elem_of_fmap. split.
  - intros [[k h] [-> Hin]]. apply elem_of_map_to_list in Hin. simpl. eauto.
  - intros [h Hh]. exists (x, h). split; [done|]. by apply elem_of_map_to_list.
Qed.

(** On a manager whose three maps hold the same identifiers,
    [get_model_info] never raises: it answers [None] for an identifier
    that is not cached, and for a cached one the configuration and the
    timestamp the manager keeps for it. *)
Theorem get_model_info_correct (m : Manager) (x : string) :
  same_keys m ->
  (_models m !! x = None -> LMDeploy.get_model_info x m = Ret None) /\
  (forall h, _models m !! x = Some h ->
     exists model_config last_used,
       _model_configs m !! x = Some model_config /\
       _last_used m !! x = Some last_used /\
       LMDeploy.get_model_info x m
       = Ret (Some {| LMDeploy.info_name := x;
                      LMDeploy.info_config := model_config;
                      LMDeploy.info_last_used := last_used;
                      LMDeploy.info_loaded := true |})).
Proof.
  intros Hk. destruct (same_keys_lookup m x Hk) as [Hc Hl].
  unfold LMDeploy.get_model_info. split.
  - intros Hx. destruct (_model_configs m !! x) eqn:Hcx; [|done].
    destruct (proj1 Hc) as [? ?]; [eauto|congruence].
  - intros h Hx.
    destruct (proj2 Hc (ex_intro _ h Hx)) as [c Hc'].
    destruct (proj2 Hl (ex_intro _ h Hx)) as [l Hl'].
    exists c, l. by rewrite Hc', Hl'.
Qed.

Lemma get_model_info_correct_witness :
  LMDeploy.get_model_info "absent" two_models = Ret None /\
  exists model_config last_used,
    _model_configs two_models !! "old" = Some model_config /\
    _last_used two_models !! "old" = Some last_used /\
    LMDeploy.get_model_info "old" two_models
    = Ret (Some {| LMDeploy.info_name := "old";
                   LMDeploy.info_config := model_config;
                   LMDeploy.info_last_used := last_used;
                   LMDeploy.info_loaded := true |}).
Proof.
  destruct (get_model_info_correct two_models "absent" two_models_keys) as [Habsent _].
  destruct (get_model_info_correct two_models "old" two_models_keys) as [_ Hold].
  split.
  - apply Habsent. vm_compute. reflexivity.
  - apply (Hold (stubborn 0)). vm_compute. reflexivity.
Defined.

(** ** Eviction and shutdown *)

Lemma collect_idle_nil now d m :
  (forall x, is_idle now d m x = false) -> collect_idle now d m = [].
Proof.
  intros Hnone. destruct (collect_idle now d m) as [|x xs] eqn:Hc; [done|].
  assert (x ∈ collect_idle now d m) as Hin by (rewrite Hc; apply list_elem_of_here).
  apply elem_of_collect_idle in Hin. by rewrite Hnone in Hin.
Qed.

(** Running [cleanup_unused_models] again with the same clock reading
    and the same bound changes nothing: after a cleanup no entry is
    idle. When no entry is idle to begin with, the cleanup leaves the
    manager as it is. *)
Theorem cleanup_unused_models_idempotent (m : Manager) (current_time d : float) :
  same_keys m ->
  let m' := (LMDeploy.cleanup_unused_models current_time d m).2 in
  (forall x, is_idle current_time d m' x = false) /\
  LMDeploy.cleanup_unused_models current_time d m' = (Ret tt, m') /\
  VLLM.cleanup_unused_models current_time d m' = (Ret tt, m') /\
  ((forall x, is_idle current_time d m x = false) -> m' = m).
Proof.
  intros Hk m'.
  destruct (cleanup_unused_models_spec m current_time d Hk) as [Hl _].
  assert (m' = drop_all (collect_idle current_time d m) m) as Hm'
    by (unfold m'; by rewrite Hl).
  assert (forall x, is_idle current_time d m' x = false) as Hnone.
  { intros x. rewrite Hm'.
    destruct (drop_all_lookup (collect_idle current_time d m) m x) as [Hin Hout].
    destruct (is_idle current_time d m x) eqn:Hi.
    - apply elem_of_collect_idle in Hi. destruct (Hin Hi) as (_ & _ & Hu).
      unfold is_idle. by rewrite Hu.
    - assert (x ∉ collect_idle current_time d m) as Hnot
        by (rewrite elem_of_collect_idle; congruence).
      destruct (Hout Hnot) as (_ & _ & Hu). unfold is_idle in *. by rewrite Hu. }
  assert (same_keys m') as Hk' by (rewrite Hm'; by apply same_keys_drop_all).
  split; [exact Hnone|].
  destruct (cleanup_unused_models_spec m' current_time d Hk') as [Hl' Hv'].
  rewrite Hl', Hv', (collect_idle_nil _ _ _ Hnone). simpl.
  split; [done|]. split; [done|].
  intros Hnone0. by rewrite Hm', (collect_idle_nil _ _ _ Hnone0).
Qed.

Lemma cleanup_unused_models_idempotent_witness :
  let m' := (LMDeploy.cleanup_unused_models 100%float 60%float two_models).2 in
  LMDeploy.cleanup_unused_models 100%float 60%float m' = (Ret tt, m').
Proof.
  intros m'.
  exact (proj1 (proj2 (cleanup_unused_models_idempotent two_models 100%float 60%float
                         two_models_keys))).
Defined.

Lemma drop_all_empty xs m :
  (forall x, is_Some (_models m !! x) -> x ∈ xs) -> same_keys m ->
  _models (drop_all xs m) = ∅ /\
  _model_configs (drop_all xs m) = ∅ /\
  _last_used (drop_all xs m) = ∅.
Proof.
  intros Hall Hk.
  assert (forall x,
            _models (drop_all xs m) !! x = None /\
            _model_configs (drop_all xs m) !! x = None /\
            _last_used (drop_all xs m) !! x = None) as Hnone.
  { intros x. destruct (drop_all_lookup xs m x) as [Hin Hout].
    destruct (decide (x ∈ xs)) as [Hx|Hx]; [by apply Hin|].
    destruct (Hout Hx) as (-> & -> & ->).
    destruct (same_keys_lookup m x Hk) as [Hc Hl].
    assert (_models m !! x = None) as Hm.
    { destruct (_models m !! x) eqn:Hmx; [|done]. destruct Hx. apply Hall. eauto. }
    split; [done|]. rewrite Hm in Hc, Hl. split.
    - destruct (_model_configs m !! x); [|done]. destruct (proj1 Hc); [eauto|done].
    - destruct (_last_used m !! x); [|done]. destruct (proj1 Hl); [eauto|done]. }
  repeat split; apply map_empty; intros x; apply Hnone.
Qed.

(** [shutdown_event] returns normally and leaves no model loaded: the
    cache, the configuration map and the timestamp map are empty, and
    the locks are kept. *)
Theorem shutdown_event_unloads_all (m : Manager) :
  same_keys m ->
  exists m',
    Gateway.shutdown_event m = (Ret tt, m') /\
    _models m' = ∅ /\ _model_configs m' = ∅ /\ _last_used m' = ∅ /\
    _loading_locks m' = _loading_locks m /\
    LMDeploy.list_loaded_models m' = [].
Proof.
  intros Hk. exists (drop_all (LMDeploy.list_loaded_models m) m).
  unfold Gateway.shutdown_event.
  unfold mbind at 1. unfold M_bind at 1. unfold bind at 1. unfold get at 1.
  rewrite (for_each_unload _ _ _ lmdeploy_unloads Hk).
  split; [done|].
  destruct (drop_all_empty (LMDeploy.list_loaded_models m) m) as (Hm & Hc & Hl); [|done|].
  { intros x [h Hx]. unfold LMDeploy.list_loaded_models.
    apply list_elem_of_fmap. exists (x, h). split; [done|]. by apply elem_of_map_to_list. }
  split; [done|]. split; [done|]. split; [done|]. split; [apply drop_all_locks|].
  unfold LMDeploy.list_loaded_models at 1. by rewrite Hm, map_to_list_empty.
Qed.

Lemma shutdown_event_unloads_all_witness :
  exists m',
    Gateway.shutdown_event two_models = (Ret tt, m') /\
    _models m' = ∅ /\ _model_configs m' = ∅ /\ _last_used m' = ∅ /\
    _loading_locks m' = _loading_locks two_models /\
    LMDeploy.list_loaded_models m' = [].
Proof. exact (shutdown_event_unloads_all two_models two_models_keys). Defined.

(** ** The administration endpoints *)

(** [DELETE /api/models/unload/{name}] never answers 404. For a cached
    model it answers success and the model is gone from the three maps;
    for a model that is not cached the 404 it raises is caught by its
    own [except] clause and answered as 500, with the text of the 404
    as detail, and the manager is as before. *)
Theorem unload_endpoint_never_404 (m : Manager) (x : string) :
  same_keys m ->
  (forall r m', Gateway.unload_model x m = (r, m') -> status_code_of r <> Some 404) /\
  (forall h, _models m !! x = Some h ->
     Gateway.unload_model x m
     = (Ret ("success", "Model " +:+ x +:+ " unloaded successfully"), drop x m)) /\
  (_models m !! x = None ->
     Gateway.unload_model x m
     = (Raise (HTTPException 500 ("404: Model " +:+ x +:+ " not found")), m)).
Proof.
  intros Hk.
  assert (forall h, _models m !! x = Some h ->
            Gateway.unload_model x m
            = (Ret ("success", "Model " +:+ x +:+ " unloaded successfully"), drop x m))
    as Hcached.
  { intros h Hx. unfold Gateway.unload_model, try_except.
    unfold mbind at 1. unfold M_bind at 1. unfold bind at 1.
    by rewrite (lmdeploy_unload_cached m x h). }
  assert (_models m !! x = None ->
          Gateway.unload_model x m
          = (Raise (HTTPException 500 ("404: Model " +:+ x +:+ " not found")), m))
    as Habsent.
  { intros Hx. unfold Gateway.unload_model, try_except.
    unfold mbind at 1. unfold M_bind at 1. unfold bind at 1.
    by rewrite (lmdeploy_unload_absent m x). }
  split; [|split; assumption].
  intros r m' Hr. destruct (_models m !! x) as [h|] eqn:Hx.
  - rewrite (Hcached h eq_refl) in Hr. injection Hr as <- _. done.
  - rewrite (Habsent eq_refl) in Hr. injection Hr as <- _. simpl. by intros [=].
Qed.

Lemma unload_endpoint_never_404_witness :
  Gateway.unload_model "absent" two_models
  = (Raise (HTTPException 500 "404: Model absent not found"), two_models) /\
  Gateway.unload_model "old" two_models
  = (Ret ("success", "Model old unloaded successfully"), drop "old" two_models).
Proof.
  destruct (unload_endpoint_never_404 two_models "absent" two_models_keys) as (_ & _ & Ha).
  destruct (unload_endpoint_never_404 two_models "old" two_models_keys) as (_ & Ho & _).
  split.
  - apply Ha. vm_compute. reflexivity.
  - apply (Ho (stubborn 0)). vm_compute. reflexivity.
Defined.

(** ** Concurrent loads, whatever the backend does *)

(** 1 for a caller that waits for the constructor of [x], else 0. *)
Definition is_loading (x : string) (it : invocation * task) : nat :=
  match it.2 with
  | AwaitPipeline _ _ => if decide (model_name it.1 = x) then 1 else 0
  | _ => 0
  end.

(** The number of callers that wait for the constructor of [x]. *)
Definition loading (x : string) (ts : list (invocation * task)) : nat :=
  sum_list (map (is_loading x) ts).

(** Only the holder of the lock of [x] waits for the constructor of [x]. *)
Definition exclusive (ts : list (invocation * task)) (m : Manager) : Prop :=
  forall x, (loading x ts <= if held x m then 1 else 0)%nat.

Lemma loading_insert x ts i a b :
  ts !! i = Some a ->
  (loading x (<[i := b]> ts) + is_loading x a = loading x ts + is_loading x b)%nat.
Proof.
  unfold loading. revert i. induction ts as [|it ts IH]; intros i Hi; [done|].
  destruct i as [|i]; simpl in *.
  - injection Hi as ->. lia.
  - specialize (IH i Hi). lia.
Qed.

Lemma loading_two x ts i j a b :
  i <> j -> ts !! i = Some a -> ts !! j = Some b ->
  (is_loading x a + is_loading x b <= loading x ts)%nat.
Proof.
  unfold loading. revert i j. induction ts as [|it ts IH]; intros i j Hne Hi Hj; [done|].
  assert (forall k c, ts !! k = Some c -> (is_loading x c <= sum_list (map (is_loading x) ts))%nat)
    as Hone.
  { clear. induction ts as [|it ts IH]; intros k c Hk; [done|].
    destruct k as [|k]; simpl in *; [injection Hk as ->; lia|].
    specialize (IH k c Hk). lia. }
  destruct i as [|i], j as [|j]; simpl in *; try done.
  - injection Hi as ->. specialize (Hone j b Hj). lia.
  - injection Hj as ->. specialize (Hone i a Hi). lia.
  - assert (i <> j) as Hne' by congruence. specialize (IH i j Hne' Hi Hj). lia.
Qed.

Lemma loading_created x invs : loading x (map (fun inv => (inv, Created)) invs) = 0%nat.
Proof. unfold loading. induction invs as [|inv invs IH]; [done|]. simpl. by rewrite IH. Qed.

Lemma held_acquire_ne x n m : x <> n -> held x (acquire n m) = held x m.
Proof. intros Hne. unfold held, acquire. simpl. by rewrite lookup_insert_ne. Qed.

Lemma held_release_ne x n m : x <> n -> held x (release n m) = held x m.
Proof. intros Hne. unfold held, release. simpl. by rewrite lookup_insert_ne. Qed.

Lemma held_ensure_lock_any x n m : held x (ensure_lock n m) = held x m.
Proof.
  destruct (decide (x = n)) as [->|Hne]; [apply held_ensure_lock|].
  unfold ensure_lock. destruct (_loading_locks m !! n); [done|].
  unfold held. simpl. by rewrite lookup_insert_ne.
Qed.

(** How a step may change the locks and the caller, and still leave
    the constructor of every identifier to the holder of its lock. *)
Lemma exclusive_step ts m m' i inv t t' :
  exclusive ts m ->
  ts !! i = Some (inv, t) ->
  (forall x, x <> model_name inv -> held x m' = held x m) ->
  (is_loading (model_name inv) (inv, t') = 0%nat /\
   (held (model_name inv) m' = held (model_name inv) m \/
    held (model_name inv) m' = false /\
    (is_loading (model_name inv) (inv, t) = 1%nat \/ held (model_name inv) m = false))
   \/
   is_loading (model_name inv) (inv, t) = 0%nat /\
   held (model_name inv) m = false /\ held (model_name inv) m' = true) ->
  exclusive (<[i := (inv, t')]> ts) m'.
Proof.
  intros Hex Hi Hother Hown x.
  pose proof (loading_insert x ts i (inv, t) (inv, t') Hi) as Hsum.
  pose proof (Hex x) as Hx.
  destruct (decide (x = model_name inv)) as [->|Hne].
  - assert (is_loading (model_name inv) (inv, t) <= 1)%nat as Hle.
    { unfold is_loading. simpl. destruct t; try lia. case_decide; lia. }
    assert (is_loading (model_name inv) (inv, t') <= 1)%nat as Hle'.
    { unfold is_loading. simpl. destruct t'; try lia. case_decide; lia. }
    destruct Hown as [[H0 [Hsame|[Hfree [H1|Hfree0]]]]|(H0 & Hfree & Htaken)].
    + rewrite Hsame. lia.
    + rewrite Hfree. destruct (held (model_name inv) m); lia.
    + rewrite Hfree. rewrite Hfree0 in Hx. lia.
    + rewrite Htaken. rewrite Hfree in Hx. lia.
  - rewrite (Hother x Hne).
    assert (is_loading x (inv, t) = 0%nat) as H0.
    { unfold is_loading. simpl. destruct t; try done. by rewrite decide_False. }
    assert (is_loading x (inv, t') = 0%nat) as H0'.
    { unfold is_loading. simpl. destruct t'; try done. by rewrite decide_False. }
    lia.
Qed.

Lemma lmdeploy_locked_body_cases E now inv (w : World LMDeploy.EngineConfig) :
  (exists r m',
     LMDeploy.locked_body E now inv w = (Returned r, mkWorld m' (constructed w)) /\
     _loading_locks m' = <[model_name inv := false]> (_loading_locks (manager w))) \/
  (exists mc o cs',
     LMDeploy.locked_body E now inv w = (AwaitPipeline mc o, mkWorld (manager w) cs')).
Proof.
  unfold LMDeploy.locked_body.
  destruct (cached now (model_name inv) (manager w)) as [[h m']|] eqn:Hc.
  - left. eexists _, _. split; [reflexivity|]. simpl.
    unfold cached in Hc. destruct (_models (manager w) !! model_name inv); [|done].
    by injection Hc as _ <-.
  - destruct (LMDeploy.LMDEPLOY_AVAILABLE E);
      [destruct (LMDeploy.TurbomindEngineConfig_is_None E);
       [|destruct (LMDeploy.pipeline_is_None E)]|];
      try (left; eexists _, _; split; [reflexivity|done]).
    right. by eexists _, _, _.
Qed.

Lemma lmdeploy_step_exclusive E now ts w i inv t t' w' :
  exclusive ts (manager w) ->
  ts !! i = Some (inv, t) ->
  LMDeploy.load_model_step E now inv t w = Some (t', w') ->
  exclusive (<[i := (inv, t')]> ts) (manager w').
Proof.
  intros Hex Hi Hs. set (n := model_name inv).
  assert (forall m0 : Manager,
            (forall x, x <> n -> held x m0 = held x (manager w)) ->
            held n (manager w) = false ->
            forall t1 w1, LMDeploy.locked_body E now inv (mkWorld (acquire n m0) (constructed w))
                          = (t1, w1) ->
            t <> AwaitPipeline (match t with AwaitPipeline mc _ => mc | _ => ∅ end)
                               (match t with AwaitPipeline _ o => o | _ => BuiltNone end) ->
            exclusive (<[i := (inv, t1)]> ts) (manager w1)) as Hbody.
  { intros m0 Hother Hfree t1 w1 Hb Hnot.
    assert (is_loading n (inv, t) = 0%nat) as Hl0.
    { unfold is_loading. simpl. destruct t; try done. }
    destruct (lmdeploy_locked_body_cases E now inv (mkWorld (acquire n m0) (constructed w)))
      as [(r & m1 & Heq & Hlocks)|(mc & o & cs' & Heq)];
      rewrite Heq in Hb; injection Hb as <- <-; simpl.
    - apply (exclusive_step ts (manager w) m1 i inv t (Returned r) Hex Hi).
      + intros x Hne. unfold held. rewrite Hlocks. simpl.
        rewrite lookup_insert_ne, lookup_insert_ne by done. apply (Hother x Hne).
      + left. split; [done|]. right. split; [|by right].
        unfold held. rewrite Hlocks, lookup_insert_eq. by apply bool_decide_eq_false_2.
    - apply (exclusive_step ts (manager w) (acquire n m0) i inv t (AwaitPipeline mc o) Hex Hi).
      + intros x Hne. rewrite held_acquire_ne by done. by apply Hother.
      + right. split; [done|]. split; [done|]. apply held_acquire. }
  destruct t as [| |mc o|r]; simpl in Hs; [| | |done].
  - (* the coroutine starts *)
    unfold LMDeploy.start in Hs.
    destruct (negb (LMDeploy.LMDEPLOY_AVAILABLE E)).
    { injection Hs as <- <-.
      apply (exclusive_step ts (manager w) (manager w) i inv Created _ Hex Hi); [done|].
      left. split; [done|]. by left. }
    destruct (cached now (model_name inv) (manager w)) as [[h m']|] eqn:Hc.
    { injection Hs as <- <-. simpl.
      unfold cached in Hc. destruct (_models (manager w) !! model_name inv); [|done].
      injection Hc as _ <-.
      apply (exclusive_step ts (manager w) _ i inv Created _ Hex Hi); [done|].
      left. split; [done|]. by left. }
    fold n in Hs. simpl in Hs. rewrite held_ensure_lock in Hs.
    destruct (held n (manager w)) eqn:Hheld.
    + injection Hs as <- <-. simpl.
      apply (exclusive_step ts (manager w) _ i inv Created _ Hex Hi).
      * intros x _. apply held_ensure_lock_any.
      * left. split; [done|]. left. fold n. by rewrite held_ensure_lock.
    + injection Hs as Hs. destruct (LMDeploy.locked_body _ _ _ _) as [t1 w1] eqn:Hb.
      injection Hs as <- <-.
      apply (Hbody (ensure_lock n (manager w))); [|done|exact Hb|done].
      intros x _. apply held_ensure_lock_any.
  - (* the coroutine gets the lock *)
    fold n in Hs. destruct (held n (manager w)) eqn:Hheld; [done|].
    injection Hs as Hs. destruct (LMDeploy.locked_body _ _ _ _) as [t1 w1] eqn:Hb.
    injection Hs as <- <-.
    apply (Hbody (manager w)); [done|done|exact Hb|done].
  - (* the constructor has finished *)
    injection Hs as Hs.
    assert (is_loading n (inv, AwaitPipeline mc o) = 1%nat) as Hl1.
    { unfold is_loading. simpl. by rewrite decide_True. }
    assert (exists m1, t' = Returned (match o with Built p => Some p | _ => None end) /\
                       manager w' = release n m1 /\
                       forall x, held x m1 = held x (manager w)) as (m1 & -> & -> & Hm1).
    { unfold LMDeploy.finish_load in Hs. fold n in Hs.
      destruct o; injection Hs as <- <-; eexists; (split; [reflexivity|]);
        (split; [reflexivity|]); done. }
    apply (exclusive_step ts (manager w) _ i inv _ _ Hex Hi).
    + intros x Hne. rewrite held_release_ne by done. apply Hm1.
    + left. split; [done|]. right. split; [apply held_release|by left].
Qed.

Lemma lmdeploy_run_exclusive E sched ts w :
  exclusive ts (manager w) ->
  exclusive (run (LMDeploy.load_model_step E) sched ts w).1
            (manager (run (LMDeploy.load_model_step E) sched ts w).2).
Proof.
  revert ts w. induction sched as [|[i now] sched IH]; intros ts w Hex; [done|].
  simpl. destruct (resume _ now i ts w) as [ts' w'] eqn:Hr. apply IH.
  unfold resume in Hr. destruct (ts !! i) as [[inv t]|] eqn:Hi;
    [|by injection Hr as <- <-].
  destruct (LMDeploy.load_model_step E now inv t w) as [[t' w'']|] eqn:Hs;
    injection Hr as <- <-; [|done].
  by eapply lmdeploy_step_exclusive.
Qed.

(** Whatever the backend does (its constructor may succeed, return
    nothing or raise, differently from call to call) and whatever the
    callers ask for, under every schedule of the event loop: two
    callers that wait for the constructor at the same time wait for
    different identifiers, and a caller that waits for the constructor
    of an identifier holds the lock of that identifier. *)
Theorem one_construction_per_identifier
    (E : LMDeploy.Env) (invs : list invocation) (w : World LMDeploy.EngineConfig)
    (sched : list (nat * float)) :
  let ts' := (run (LMDeploy.load_model_step E) sched
                  (map (fun inv => (inv, Created)) invs) w).1 in
  let w' := (run (LMDeploy.load_model_step E) sched
                 (map (fun inv => (inv, Created)) invs) w).2 in
  (forall i j inv inv' mc mc' o o',
     ts' !! i = Some (inv, AwaitPipeline mc o) ->
     ts' !! j = Some (inv', AwaitPipeline mc' o') ->
     model_name inv = model_name inv' -> i = j) /\
  (forall i inv mc o,
     ts' !! i = Some (inv, AwaitPipeline mc o) -> held (model_name inv) (manager w') = true).
Proof.
  intros ts' w'.
  assert (exclusive ts' (manager w')) as Hex.
  { apply lmdeploy_run_exclusive. intros x. rewrite loading_created. lia. }
  split.
  - intros i j inv inv' mc mc' o o' Hi Hj Hname.
    destruct (decide (i = j)) as [|Hne]; [done|].
    pose proof (loading_two (model_name inv) ts' i j _ _ Hne Hi Hj) as H2.
    pose proof (Hex (model_name inv)) as Hx.
    unfold is_loading in H2. simpl in H2.
    rewrite decide_True in H2 by done. rewrite decide_True in H2 by done.
    destruct (held _ _); lia.
  - intros i inv mc o Hi.
    pose proof (Hex (model_name inv)) as Hx.
    assert (is_loading (model_name inv) (inv, AwaitPipeline mc o)
            <= loading (model_name inv) ts')%nat as H1.
    { unfold loading. clear -Hi. revert i Hi.
      induction ts' as [|it ts IH]; intros i Hi; [done|].
      destruct i as [|i]; simpl in *; [injection Hi as ->; lia|].
      specialize (IH i Hi). lia. }
    unfold is_loading in H1. simpl in H1. rewrite decide_True in H1 by done.
    destruct (held _ _); [done|lia].
Qed.

Lemma models_ensure_lock x m : _models (ensure_lock x m) = _models m.
Proof. unfold ensure_lock. by destruct (_loading_locks m !! x). Qed.

(** The lock is per identifier: with a working backend, two callers
    that ask for two different identifiers, neither of them cached nor
    being loaded, both reach the constructor before either has
    finished. Two constructions are in flight, each under its own held
    lock, and nothing is cached yet. *)
Theorem loads_of_different_models_overlap
    (E : LMDeploy.Env) (x y : string) (kx ky : gmap string value)
    (m : Manager) (cs : list (string * LMDeploy.EngineConfig)) (t0 t1 : float) :
  LMDeploy.LMDEPLOY_AVAILABLE E = true ->
  x <> y ->
  _models m !! x = None -> _models m !! y = None ->
  held x m = false -> held y m = false ->
  let cx := LMDeploy.engine_config E kx (Config.get_model_config x) in
  let cy := LMDeploy.engine_config E ky (Config.get_model_config y) in
  let r := run (LMDeploy.load_model_step E) [(0%nat, t0); (1%nat, t1)]
               [(Invoke x kx, Created); (Invoke y ky, Created)] (mkWorld m cs) in
  r.1 = [(Invoke x kx,
          AwaitPipeline (Config.get_model_config x) (LMDeploy.pipeline E (length cs) x cx));
         (Invoke y ky,
          AwaitPipeline (Config.get_model_config y)
                        (LMDeploy.pipeline E (S (length cs)) y cy))] /\
  constructed r.2 = (y, cy) :: (x, cx) :: cs /\
  held x (manager r.2) = true /\ held y (manager r.2) = true /\
  _models (manager r.2) = _models m.
Proof.
  intros Ha Hxy Hx Hy Hlx Hly cx cy.
  assert (_models (acquire x (ensure_lock x m)) !! y = None) as Hy'.
  { unfold acquire. simpl. by rewrite models_ensure_lock. }
  assert (held y (acquire x (ensure_lock x m)) = false) as Hly'.
  { rewrite held_acquire_ne by done. by rewrite held_ensure_lock_any. }
  assert (run (LMDeploy.load_model_step E) [(0%nat, t0); (1%nat, t1)]
              [(Invoke x kx, Created); (Invoke y ky, Created)] (mkWorld m cs)
          = ([(Invoke x kx,
               AwaitPipeline (Config.get_model_config x)
                             (LMDeploy.pipeline E (length cs) x cx));
              (Invoke y ky,
               AwaitPipeline (Config.get_model_config y)
                             (LMDeploy.pipeline E (S (length cs)) y cy))],
             mkWorld (acquire y (ensure_lock y (acquire x (ensure_lock x m))))
                     ((y, cy) :: (x, cx) :: cs))) as Hrun.
  { cbn [run]. unfold resume at 1. cbn [lookup list_lookup LMDeploy.load_model_step].
    rewrite (lmdeploy_start_fresh E t0 x kx m cs Ha Hx Hlx).
    unfold resume. cbn [insert list_insert lookup list_lookup LMDeploy.load_model_step].
    by rewrite (lmdeploy_start_fresh E t1 y ky _ _ Ha Hy' Hly'). }
  intros r. subst r. rewrite Hrun. cbn [fst snd manager constructed].
  split; [done|]. split; [done|]. split; [|split].
  - rewrite held_acquire_ne by done. rewrite held_ensure_lock_any. apply held_acquire.
  - apply held_acquire.
  - change (_models (ensure_lock y (acquire x (ensure_lock x m))) = _models m).
    rewrite models_ensure_lock.
    change (_models (ensure_lock x m) = _models m). apply models_ensure_lock.
Qed.

Lemma loads_of_different_models_overlap_witness :
  let r := run (LMDeploy.load_model_step working) [(0%nat, 1%float); (1%nat, 2%float)]
               [(Invoke "a" ∅, Created); (Invoke "b" ∅, Created)] empty_world in
  length (constructed r.2) = 2%nat /\
  held "a" (manager r.2) = true /\ held "b" (manager r.2) = true.
Proof.
  pose proof (loads_of_different_models_overlap working "a" "b" ∅ ∅ new_manager []
                1%float 2%float eq_refl ltac:(done) eq_refl eq_refl eq_refl eq_refl)
    as (_ & Hcs & Ha & Hb & _).
  intros r. split; [|split]; [|exact Ha|exact Hb].
  subst r. unfold empty_world. by rewrite Hcs.
Defined.

(** ** The vLLM manager never waits for a lock *)

Lemma vllm_locked_body_cases E now inv (w : World VLLM.EngineArgs) :
  exists r m' cs',
    VLLM.locked_body E now inv w = (Returned r, mkWorld m' cs') /\
    _loading_locks m' = <[model_name inv := false]> (_loading_locks (manager w)).
Proof.
  unfold VLLM.locked_body.
  destruct (cached now (model_name inv) (manager w)) as [[h m']|] eqn:Hc.
  - eexists _, _, _. split; [reflexivity|]. simpl.
    unfold cached in Hc. destruct (_models (manager w) !! model_name inv); [|done].
    by injection Hc as _ <-.
  - destruct (VLLM.AsyncEngineArgs E _ _ _) as [args|e].
    + destruct (VLLM.from_engine_args E _ args);
        eexists _, _, _; (split; [reflexivity|done]).
    + eexists _, _, _. split; [reflexivity|done].
Qed.

Definition never_waiting (it : invocation * task) : Prop :=
  it.2 = Created \/ exists r, it.2 = Returned r.

Lemma vllm_step_never_waits E now inv t w t' w' :
  (forall x, held x (manager w) = false) ->
  VLLM.load_model_step E now inv t w = Some (t', w') ->
  (exists r, t' = Returned r) /\ (forall x, held x (manager w') = false).
Proof.
  intros Hfree Hs.
  assert (forall m0 : Manager,
            (forall x, x <> model_name inv -> held x m0 = false) ->
            forall t1 w1, VLLM.locked_body E now inv (mkWorld m0 (constructed w)) = (t1, w1) ->
            (exists r, t1 = Returned r) /\ (forall x, held x (manager w1) = false)) as Hbody.
  { intros m0 Hother t1 w1 Hb.
    destruct (vllm_locked_body_cases E now inv (mkWorld m0 (constructed w)))
      as (r & m1 & cs' & Heq & Hlocks).
    rewrite Heq in Hb. injection Hb as <- <-. split; [by eexists|].
    intros x. unfold held. simpl. rewrite Hlocks. simpl.
    destruct (decide (x = model_name inv)) as [->|Hne].
    - rewrite lookup_insert_eq. by apply bool_decide_eq_false_2.
    - rewrite lookup_insert_ne by done. apply (Hother x Hne). }
  destruct t as [| |mc o|r]; simpl in Hs; [| |done|done].
  - injection Hs as Hs. unfold VLLM.start in Hs.
    destruct (negb (VLLM.VLLM_AVAILABLE E)).
    { injection Hs as <- <-. split; [by eexists|done]. }
    destruct (cached now (model_name inv) (manager w)) as [[h m']|] eqn:Hc.
    { injection Hs as <- <-. split; [by eexists|].
      unfold cached in Hc. destruct (_models (manager w) !! model_name inv); [|done].
      injection Hc as _ <-. apply Hfree. }
    simpl in Hs. rewrite held_ensure_lock, Hfree in Hs.
    apply (Hbody _ ltac:(intros x Hne; rewrite held_acquire_ne by done;
                         rewrite held_ensure_lock_any; apply Hfree) _ _ Hs).
  - rewrite Hfree in Hs. injection Hs as Hs.
    apply (Hbody _ ltac:(intros x Hne; rewrite held_acquire_ne by done; apply Hfree) _ _ Hs).
Qed.

(** The vLLM manager builds the engine without leaving the event loop:
    when no lock is held at the start, then under every schedule and for
    every backend no caller is ever found waiting (for a lock or for the
    constructor), and no lock is ever found held between two steps. The
    lock of the vLLM manager is never contended. *)
Theorem vllm_load_never_waits
    (E : VLLM.Env) (invs : list invocation) (w : World VLLM.EngineArgs)
    (sched : list (nat * float)) :
  (forall x, held x (manager w) = false) ->
  let r := run (VLLM.load_model_step E) sched (map (fun inv => (inv, Created)) invs) w in
  Forall never_waiting r.1 /\ (forall x, held x (manager r.2) = false).
Proof.
  intros Hfree r. subst r.
  assert (Forall never_waiting (map (fun inv => (inv, Created)) invs)) as Hts.
  { apply Forall_forall. intros it Hin. apply list_elem_of_fmap in Hin as (inv & -> & _).
    by left. }
  revert Hts Hfree. generalize (map (fun inv => (inv, Created)) invs). intros ts.
  revert ts w. induction sched as [|[i now] sched IH]; intros ts w Hts Hfree; [done|].
  simpl. destruct (resume _ now i ts w) as [ts' w'] eqn:Hr.
  unfold resume in Hr. destruct (ts !! i) as [[inv t]|] eqn:Hi;
    [|injection Hr as <- <-; by apply IH].
  destruct (VLLM.load_model_step E now inv t w) as [[t' w'']|] eqn:Hs;
    injection Hr as <- <-; [|by apply IH].
  destruct (vllm_step_never_waits E now inv t w t' w'' Hfree Hs) as [[r ->] Hfree'].
  apply IH; [|done]. apply Forall_insert; [done|]. right. by eexists.
Qed.

Lemma vllm_load_never_waits_witness :
  let r := run (VLLM.load_model_step vllm_working) [(0%nat, 1%float); (1%nat, 2%float)]
               (map (fun inv => (inv, Created)) [Invoke "a" ∅; Invoke "a" ∅]) empty_world in
  Forall never_waiting r.1 /\ (forall x, held x (manager r.2) = false).
Proof.
  apply (vllm_load_never_waits vllm_working [Invoke "a" ∅; Invoke "a" ∅] empty_world
           [(0%nat, 1%float); (1%nat, 2%float)]).
  intros x. unfold held, empty_world, new_manager. simpl.
  rewrite lookup_empty. by apply bool_decide_eq_false_2.
Defined.

(** ** The streams of the two managers *)

(** The consumer loop of the LMDeploy stream hands on the chunks up to
    the first item that is not a chunk and then ends normally, for
    ["done"] as for ["error"]: the message of an ["error"] item is
    logged and nothing else. Items after it are never read. With no
    such item in the queue the consumer waits for ever. *)
Theorem drain_stops_at_first_terminal
    (chunks : list string) (rest : list LMDeploy.item) (msg : string) :
  LMDeploy.drain (map LMDeploy.Chunk chunks ++ LMDeploy.Done :: rest)
  = Gen chunks Exhausted /\
  LMDeploy.drain (map LMDeploy.Chunk chunks ++ LMDeploy.Error msg :: rest)
  = Gen chunks Exhausted /\
  LMDeploy.drain (map LMDeploy.Chunk chunks) = Gen chunks Blocked.
Proof.
  split; [|split].
  - rewrite drain_chunks. simpl. by rewrite app_nil_r.
  - rewrite drain_chunks. simpl. by rewrite app_nil_r.
  - rewrite <- (app_nil_r (map LMDeploy.Chunk chunks)). rewrite drain_chunks. simpl.
    by rewrite app_nil_r.
Qed.

(** For every pipeline, the stream the LMDeploy manager returns yields
    the text of the first result of each non-empty output of
    [stream_infer], in order, and never raises: it ends normally when
    [stream_infer] ends, and also when [stream_infer] raises. The
    producer thread never puts an ["error"] item into the queue, since
    [sync_stream] catches every exception itself. *)
Theorem lmdeploy_stream_never_raises
    (pipe : handle) (prompt : string) (generation_config : option (gmap string value)) :
  let outputs := stream_infer pipe prompt generation_config in
  let stream := LMDeploy.stream_generator pipe prompt generation_config in
  yielded stream
  = omap (fun output => LMDeploy.text_of <$> head output) (yielded outputs) /\
  finish stream = match finish outputs with Blocked => Blocked | _ => Exhausted end /\
  (forall msg,
     LMDeploy.Error msg
     ∉ LMDeploy.run_stream (LMDeploy.sync_stream pipe prompt generation_config)).
Proof.
  intros outputs stream. subst stream.
  unfold LMDeploy.stream_generator, LMDeploy.run_stream.
  rewrite drain_chunks. unfold LMDeploy.sync_stream. fold outputs. simpl.
  split; [|split].
  - destruct (finish outputs); simpl; by rewrite app_nil_r.
  - by destruct (finish outputs).
  - intros msg Hin. apply elem_of_app in Hin as [Hin|Hin].
    + apply list_elem_of_fmap in Hin as (chunk & Heq & _). discriminate Heq.
    + destruct (finish outputs); simpl in Hin.
      * apply list_elem_of_singleton in Hin. discriminate Hin.
      * apply list_elem_of_singleton in Hin. discriminate Hin.
      * by apply elem_of_nil in Hin.
Qed.

(** The non-empty texts of one item of the vLLM engine's stream. *)
Definition texts (request_output : RequestOutput) : list string :=
  filter (fun text => text <> "") (outputs request_output).

Lemma vllm_stream_unfinished before ending :
  Forall (fun r => finished r = false) before ->
  VLLM.stream_items before ending = Gen (concat (map texts before)) ending /\
  VLLM.first_finished before ending
  = match ending with Blocked => None | _ => Some None end.
Proof.
  induction 1 as [|r before Hr _ [IHs IHf]]; simpl.
  - split; [done|]. by destruct ending.
  - rewrite Hr, IHs. simpl. split; [done|]. exact IHf.
Qed.

(** The stream of the vLLM engine is read up to its first finished
    item and no further. [generate_stream] yields the non-empty texts
    of the items up to and including that one and ends;
    [generate_text] returns the first text of that item, or [None] when
    it has none. When no item is finished, [generate_stream] ends as the
    engine's stream does (an exception reaches the consumer), and
    [generate_text] returns [None] when the engine's stream ends or
    raises. Neither yields an empty text. *)
Theorem vllm_stream_stops_at_finished
    (before : list RequestOutput) (ending : ending) :
  Forall (fun r => finished r = false) before ->
  (forall last after,
     finished last = true ->
     VLLM.stream_items (before ++ last :: after) ending
     = Gen (concat (map texts (before ++ [last]))) Exhausted /\
     VLLM.first_finished (before ++ last :: after) ending = Some (head (outputs last))) /\
  VLLM.stream_items before ending = Gen (concat (map texts before)) ending /\
  VLLM.first_finished before ending
  = match ending with Blocked => None | _ => Some None end /\
  (forall results, Forall (fun text => text <> "")
                          (yielded (VLLM.stream_items results ending))).
Proof.
  intros Hbefore. split; [|split; [|split]].
  - intros last after Hlast.
    induction Hbefore as [|r before Hr _ [IHs IHf]]; simpl.
    + rewrite Hlast. split; [|done]. unfold texts. by rewrite app_nil_r.
    + rewrite Hr, IHs. simpl. split; [done|]. exact IHf.
  - by apply vllm_stream_unfinished.
  - by apply vllm_stream_unfinished.
  - intros results. induction results as [|r results IH]; simpl; [constructor|].
    assert (Forall (fun text => text <> "") (filter (fun text => text <> "") (outputs r)))
      as Hr.
    { apply Forall_forall. intros text Hin. by apply list_elem_of_filter in Hin as [? _]. }
    destruct (finished r); simpl; [done|]. by apply Forall_app.
Qed.

Lemma vllm_stream_stops_at_finished_witness :
  VLLM.stream_items
    [Build_RequestOutput ["a"; ""] false; Build_RequestOutput ["b"] true;
     Build_RequestOutput ["c"] false] (Raised (RuntimeError "late"))
  = Gen ["a"; "b"] Exhausted /\
  VLLM.first_finished
    [Build_RequestOutput ["a"; ""] false; Build_RequestOutput ["b"] true;
     Build_RequestOutput ["c"] false] (Raised (RuntimeError "late"))
  = Some (Some "b").
Proof.
  assert (Forall (fun r => finished r = false) [Build_RequestOutput ["a"; ""] false]) as H.
  { by constructor. }
  destruct (vllm_stream_stops_at_finished _ (Raised (RuntimeError "late")) H) as [Hlast _].
  exact (Hlast (Build_RequestOutput ["b"] true) [Build_RequestOutput ["c"] false] eq_refl).
Defined.

(** ** The objects of a response, for every way the stream ends *)

Lemma stream_chunks_stamps clock model_name n full_response chunks :
  let r := Gateway.stream_chunks clock model_name n full_response chunks in
  map Gateway.created_at r.1 = map (Gateway.isoformat_now clock) (seq n (length chunks)) /\
  Forall (fun line => Gateway.model line = model_name) r.1.
Proof.
  revert n full_response. induction chunks as [|chunk chunks IH]; intros n full_response.
  - simpl. split; [done|constructor].
  - simpl. specialize (IH (S n) (full_response +:+ chunk)).
    destruct (Gateway.stream_chunks clock model_name (S n) (full_response +:+ chunk) chunks)
      as [rest full]. simpl in *.
    destruct IH as [Hstamps Hmodel]. split; [by rewrite Hstamps|].
    by apply List.Forall_cons.
Qed.

(** Whatever [model_manager.generate_stream] returned (no stream, a
    stream that ends, a stream that raises), as long as the stream does
    not hang: the response is a non-empty sequence of objects, exactly
    the last of which carries [done: true]; the objects before it carry
    the fragments in order; every object names the model of the
    request; and the objects carry the successive readings of the
    clock, in the order in which they were built. *)
Theorem stream_has_one_done_object
    (clock : Gateway.Clock) (model_name : string) (stream : option (gen string)) :
  (forall g, stream = Some g -> finish g <> Blocked) ->
  exists lines final,
    Gateway.stream_lines clock model_name stream = (lines ++ [final])%list /\
    Forall (fun line => Gateway.done line = false) lines /\
    Gateway.done final = true /\
    map Gateway.response lines = match stream with Some g => yielded g | None => [] end /\
    Forall (fun line => Gateway.model line = model_name) (lines ++ [final])%list /\
    map Gateway.created_at (lines ++ [final])%list
    = map (Gateway.isoformat_now clock) (seq 0 (S (length lines))).
Proof.
  intros Hends. destruct stream as [[fragments ending]|].
  - specialize (Hends _ eq_refl). unfold Gateway.stream_lines. simpl in *.
    destruct (stream_chunks_spec clock model_name 0 "" fragments) as (Hmap & Hdone & Hlen & _).
    destruct (stream_chunks_stamps clock model_name 0 "" fragments) as (Hstamps & Hmodel).
    destruct (Gateway.stream_chunks clock model_name 0 "" fragments) as [lines full].
    simpl in *.
    assert (forall final,
              Gateway.model final = model_name ->
              Gateway.created_at final = Gateway.isoformat_now clock (length lines) ->
              Forall (fun line => Gateway.model line = model_name) (lines ++ [final])%list /\
              map Gateway.created_at (lines ++ [final])%list
              = map (Gateway.isoformat_now clock) (seq 0 (S (length lines)))) as Hfinal.
    { intros final Hm Hc. split.
      - apply Forall_app. split; [done|]. by constructor.
      - rewrite map_app, Hstamps, Hlen. simpl map at 2. rewrite Hc.
        rewrite seq_S, map_app. by rewrite Hlen. }
    destruct ending as [|e|]; [| |done].
    + eexists lines, _. split; [reflexivity|]. split; [done|]. split; [done|].
      split; [done|]. by apply Hfinal.
    + eexists lines, _. split; [reflexivity|]. split; [done|]. split; [done|].
      split; [done|]. by apply Hfinal.
  - exists [], {| Gateway.model := model_name;
                  Gateway.created_at := Gateway.isoformat_now clock 0;
                  Gateway.response := ""; Gateway.done := true;
                  Gateway.total_duration := Some 0%Z; Gateway.eval_count := None;
                  Gateway.eval_duration := None |}.
    simpl. split; [done|]. split; [constructor|]. split; [done|]. split; [done|].
    split; [|done]. by constructor.
Qed.

Lemma stream_has_one_done_object_witness :
  exists lines final,
    Gateway.stream_lines wall_clock "m" (Some (Gen ["a"; "b"] (Raised (RuntimeError "x"))))
    = (lines ++ [final])%list /\
    length lines = 2%nat /\ Gateway.done final = true.
Proof.
  destruct (stream_has_one_done_object wall_clock "m"
              (Some (Gen ["a"; "b"] (Raised (RuntimeError "x")))))
    as (lines & final & Heq & _ & Hdone & Hmap & _).
  - intros g [= <-]. simpl. discriminate.
  - exists lines, final. split; [exact Heq|]. split; [|exact Hdone].
    simpl in Hmap. rewrite <- (length_map Gateway.response), Hmap. reflexivity.
Defined.

(** ** [chat] is [generate] on the flattened conversation *)

(** A generation object as the chat endpoints wrap it. *)
Definition to_chat (r : Gateway.GenerateResponse) : Gateway.ChatResponse := {|
  Gateway.chat_model := Gateway.model r;
  Gateway.chat_created_at := Gateway.created_at r;
  Gateway.message := {| Gateway.role := "assistant"; Gateway.content := Gateway.response r |};
  Gateway.chat_done := Gateway.done r;
  Gateway.chat_total_duration := Gateway.total_duration r;
  Gateway.chat_eval_count := Gateway.eval_count r;
  Gateway.chat_eval_duration := Gateway.eval_duration r;
|}.

(** The generation request a chat request amounts to. *)
Definition as_generate (request : Gateway.ChatRequest) : Gateway.GenerateRequest := {|
  Gateway.req_model := Gateway.creq_model request;
  Gateway.req_prompt := Gateway.format_prompt_from_messages (Gateway.creq_messages request);
  Gateway.req_stream := Gateway.creq_stream request;
  Gateway.req_options := Gateway.creq_options request;
|}.

Lemma chat_chunks_to_chat clock model_name n full_response chunks :
  Gateway.chat_chunks clock model_name n full_response chunks
  = (map to_chat (Gateway.stream_chunks clock model_name n full_response chunks).1,
     (Gateway.stream_chunks clock model_name n full_response chunks).2).
Proof.
  revert n full_response. induction chunks as [|chunk chunks IH]; intros n full_response;
    [done|].
  simpl. rewrite IH.
  by destruct (Gateway.stream_chunks clock model_name (S n) (full_response +:+ chunk) chunks).
Qed.

Lemma chat_lines_to_chat clock model_name stream :
  Gateway.chat_lines clock model_name stream
  = map to_chat (Gateway.stream_lines clock model_name stream).
Proof.
  destruct stream as [[fragments ending]|]; [|done].
  unfold Gateway.chat_lines, Gateway.stream_lines. simpl.
  rewrite chat_chunks_to_chat.
  destruct (Gateway.stream_chunks clock model_name 0 "" fragments) as [lines full]. simpl.
  destruct ending; [| |done]; by rewrite map_app, length_map.
Qed.

(** The chat endpoint answers a request as the generation endpoint
    answers the request with the same model, stream flag and options
    and the flattened conversation as its prompt: the same steps of the
    manager and the same world afterwards, the same objects with the
    response text wrapped into an assistant message, the same status
    code when it fails, and it returns exactly when [generate] does.
    Only the text of the error differs. *)
Theorem chat_is_generate_on_the_prompt
    (E : LMDeploy.Env) (clock : Gateway.Clock) (now : float)
    (request : Gateway.ChatRequest) (w : World LMDeploy.EngineConfig) :
  match Gateway.chat E clock now request w,
        Gateway.generate E clock now (as_generate request) w with
  | Some (Ret (Gateway.ChatJson c), w1), Some (Ret (Gateway.Json r), w2) =>
      c = to_chat r /\ w1 = w2
  | Some (Ret (Gateway.ChatStreaming cs), w1), Some (Ret (Gateway.Streaming ls), w2) =>
      cs = map to_chat ls /\ w1 = w2
  | Some (Raise e1, w1), Some (Raise e2, w2) =>
      (exists status_code d1 d2,
         e1 = HTTPException status_code d1 /\ e2 = HTTPException status_code d2) /\
      w1 = w2
  | None, None => True
  | _, _ => False
  end.
Proof.
  unfold Gateway.chat, Gateway.generate. simpl.
  destruct (negb (LMDeploy.LMDEPLOY_AVAILABLE E)); [split; [by eexists _, _, _|done]|].
  destruct (Gateway.creq_stream request).
  - unfold Gateway.chat_stream, Gateway.generate_stream.
    destruct (LMDeploy.generate_stream E now _ _ _ ∅ w) as [[stream w']|]; simpl; [|done].
    split; [apply chat_lines_to_chat|done].
  - destruct (LMDeploy.generate_text E now _ _ _ ∅ w) as [[[text|] w']|]; simpl; [| |done].
    + done.
    + split; [by eexists _, _, _|done].
Qed.

(** ** Messages with other roles *)

#[local] Instance known_role_dec message : Decision (known_role message).
Proof. unfold known_role. apply _. Defined.

Lemma prompt_parts_filter messages parts :
  foldl Gateway.add_part parts messages
  = (parts ++ map render (filter known_role messages))%list.
Proof.
  revert parts. induction messages as [|message messages IH]; intros parts; simpl.
  - by rewrite app_nil_r.
  - rewrite IH. destruct (decide (known_role message)) as [Hrole|Hrole].
    + rewrite filter_cons_True by done.
      assert (Gateway.add_part parts message = (parts ++ [render message])%list) as ->.
      { unfold Gateway.add_part, render.
        destruct message as [role content]. unfold known_role in Hrole. simpl in *.
        destruct Hrole as [-> | [-> | ->]]; reflexivity. }
      by rewrite <- app_assoc.
    + rewrite filter_cons_False by done.
      assert (Gateway.add_part parts message = parts) as ->; [|done].
      unfold Gateway.add_part. unfold known_role in Hrole.
      repeat case_decide; try done; exfalso; apply Hrole; tauto.
Qed.

(** A message whose role is not exactly [system], [user] or
    [assistant] (the comparison is case-sensitive) leaves no trace in
    the prompt: the prompt of a conversation is the prompt of its
    messages with these three roles. A conversation with no such
    message, the empty one included, gives the prompt that consists of
    a line feed and ["Assistant: "]. *)
Theorem unknown_roles_are_dropped (messages : list Gateway.ChatMessage) :
  Gateway.format_prompt_from_messages messages
  = Gateway.join Gateway.LF (map render (filter known_role messages))
    +:+ Gateway.LF +:+ "Assistant: " /\
  Gateway.format_prompt_from_messages messages
  = Gateway.format_prompt_from_messages (filter known_role messages) /\
  (Forall (fun message => ~ known_role message) messages ->
   Gateway.format_prompt_from_messages messages = Gateway.LF +:+ "Assistant: ") /\
  Gateway.format_prompt_from_messages
    [Gateway.Build_ChatMessage "User" "hi"; Gateway.Build_ChatMessage "tool" "42"]
  = Gateway.LF +:+ "Assistant: ".
Proof.
  assert (forall ms, Gateway.format_prompt_from_messages ms
                     = Gateway.join Gateway.LF (map render (filter known_role ms))
                       +:+ Gateway.LF +:+ "Assistant: ") as Hall.
  { intros ms. unfold Gateway.format_prompt_from_messages. by rewrite prompt_parts_filter. }
  split; [apply Hall|]. split; [|split].
  - rewrite (Hall messages), (Hall (filter known_role messages)).
    by rewrite list_filter_filter_l.
  - intros Hnone. rewrite Hall.
    assert (filter known_role messages = []) as ->; [|done].
    induction Hnone as [|message messages Hrole _ IH]; [done|].
    by rewrite filter_cons_False.
  - reflexivity.
Qed.

(** ** The options of a request *)

(** The names of the options [create_generation_config] reads. *)
Definition read_options : list string :=
  ["temperature"; "top_p"; "top_k"; "num_predict"; "stop"].

(** [create_generation_config] gives nothing when the backend is not
    there. Otherwise it gives a configuration with exactly the five
    fields [temperature], [top_p], [top_k], [max_new_tokens] and
    [stop_words]; the option [num_predict] arrives as [max_new_tokens]
    and [stop] as [stop_words], with 512 and the empty list when the
    request does not give them; and any other option of the request is
    ignored: two sets of options that agree on the five names that are
    read give the same configuration. *)
Theorem create_generation_config_reads_five_options
    (E : LMDeploy.Env) (options options' : gmap string value) :
  (LMDeploy.LMDEPLOY_AVAILABLE E = false ->
   Gateway.create_generation_config E options = None) /\
  (LMDeploy.LMDEPLOY_AVAILABLE E = true ->
   exists c,
     Gateway.create_generation_config E options = Some c /\
     (forall k, is_Some (c !! k) <->
                k ∈ ["temperature"; "top_p"; "top_k"; "max_new_tokens"; "stop_words"]) /\
     c !! "max_new_tokens" = Some (default (VInt 512) (options !! "num_predict")) /\
     c !! "stop_words" = Some (default (VList []) (options !! "stop"))) /\
  ((forall k, k ∈ read_options -> options !! k = options' !! k) ->
   Gateway.create_generation_config E options
   = Gateway.create_generation_config E options').
Proof.
  unfold Gateway.create_generation_config, LMDeploy.GenerationConfig_is_None.
  split; [|split].
  - by intros ->.
  - intros ->. simpl. eexists. split; [reflexivity|]. split; [|split].
    + intros k. simpl. rewrite !lookup_insert_is_Some', lookup_empty, !elem_of_cons.
      rewrite elem_of_nil. split.
      * intros [->|[->|[->|[->|[->|[? [=]]]]]]]; tauto.
      * intros [->|[->|[->|[->|[->|[]]]]]]; tauto.
    + simpl. by rewrite !lookup_insert_ne, lookup_insert_eq by done.
    + simpl. by rewrite !lookup_insert_ne, lookup_insert_eq by done.
  - intros Hagree. destruct (negb (LMDeploy.LMDEPLOY_AVAILABLE E) || _); [done|].
    unfold dict_get.
    rewrite (Hagree "temperature"), (Hagree "top_p"), (Hagree "top_k"),
      (Hagree "num_predict"), (Hagree "stop");
      [done|unfold read_options; apply list_elem_of_In; simpl; tauto..].
Qed.

Lemma create_generation_config_reads_five_options_witness :
  Gateway.create_generation_config working {["seed" := VInt 7; "top_k" := VInt 10]}
  = Gateway.create_generation_config working {["top_k" := VInt 10]}.
Proof.
  apply (create_generation_config_reads_five_options working).
  intros k Hk. unfold read_options in Hk. apply list_elem_of_In in Hk. simpl in Hk.
  destruct Hk as [<-|[<-|[<-|[<-|[<-|[]]]]]]; reflexivity.
Defined.

(** ** Generation on a cached model *)

(** A request without streaming for a model that is cached: the pipeline
    is called once with the prompt and the configuration made from the
    options of the request. When it gives results, the answer carries
    the text of the first one, [done: true], the elapsed time as both
    durations and the number of words of the text as [eval_count]. When
    it raises or gives no result, the answer is the status 500, whose
    detail is the text of the exception raised under [try], status
    included. In both cases the manager changes by the time stamp of the
    model and by nothing else: a failed inference does not unload the
    model. *)
Theorem generate_on_cached_model
    (E : LMDeploy.Env) (clock : Gateway.Clock) (now : float)
    (request : Gateway.GenerateRequest) (m : Manager)
    (cs : list (string * LMDeploy.EngineConfig)) (pipe : handle) :
  LMDeploy.LMDEPLOY_AVAILABLE E = true ->
  Gateway.req_stream request = false ->
  _models m !! Gateway.req_model request = Some pipe ->
  let x := Gateway.req_model request in
  let generation_config :=
    Gateway.create_generation_config E (default ∅ (Gateway.req_options request)) in
  Gateway.generate E clock now request (mkWorld m cs)
  = Some
      (match infer pipe (Gateway.req_prompt request) generation_config with
       | Ret (result :: _) =>
           Ret (Gateway.Json {|
                  Gateway.model := x;
                  Gateway.created_at := Gateway.isoformat_now clock 0;
                  Gateway.response := LMDeploy.text_of result;
                  Gateway.done := true;
                  Gateway.total_duration := Some (Gateway.elapsed_ms clock);
                  Gateway.eval_count :=
                    Some (length (Gateway.split (LMDeploy.text_of result)));
                  Gateway.eval_duration := Some (Gateway.elapsed_ms clock) |})
       | Ret [] | Raise _ =>
           Raise (HTTPException 500 ("500: Failed to generate text with model " +:+ x))
       end,
       mkWorld (set_last_used <[x := now]> m) cs) /\
  is_Some generation_config.
Proof.
  intros Ha Hstream Hx x generation_config.
  assert (exists c, generation_config = Some c) as [c Hc].
  { subst generation_config. unfold Gateway.create_generation_config,
      LMDeploy.GenerationConfig_is_None. rewrite Ha. simpl. by eexists. }
  split; [|rewrite Hc; by eexists].
  unfold Gateway.generate. rewrite Ha, Hstream. simpl.
  fold generation_config. rewrite Hc.
  unfold LMDeploy.generate_text. rewrite Ha. simpl.
  rewrite (lmdeploy_load_cached E now _ ∅ m cs pipe Ha Hx). simpl.
  fold x. destruct (infer pipe (Gateway.req_prompt request) (Some c)) as [[|result results]|e];
    reflexivity.
Qed.

Lemma generate_on_cached_model_witness :
  exists w',
    Gateway.generate working wall_clock 99%float
      {| Gateway.req_model := "new"; Gateway.req_prompt := "say hi";
         Gateway.req_stream := false; Gateway.req_options := None |}
      (mkWorld two_models [])
    = Some (Ret (Gateway.Json {|
                   Gateway.model := "new";
                   Gateway.created_at := "2024-01-01T00:00:00";
                   Gateway.response := "hi";
                   Gateway.done := true;
                   Gateway.total_duration := Some 1500%Z;
                   Gateway.eval_count := Some 1%nat;
                   Gateway.eval_duration := Some 1500%Z |}), w').
Proof.
  eexists.
  exact (proj1 (generate_on_cached_model working wall_clock 99%float
                  {| Gateway.req_model := "new"; Gateway.req_prompt := "say hi";
                     Gateway.req_stream := false; Gateway.req_options := None |}
                  two_models [] (echo 1 "hi") eq_refl eq_refl eq_refl)).
Defined.

(** ** Starting the server *)

(** [startup_event] leaves the manager alone when the backend is not
    there or no default model is configured. Otherwise it loads the
    default model with no override: the constructor is called once, with
    the configuration of the default model; the model is cached when
    the constructor gives a pipeline; and when the constructor fails the
    event still completes, with nothing cached, so that the server
    starts without its default model. *)
Theorem startup_event_preloads_default
    (E : LMDeploy.Env) (now : float) (m : Manager)
    (cs : list (string * LMDeploy.EngineConfig)) :
  let x := Config.default_model (LMDeploy.config E) in
  let cfg := LMDeploy.engine_config E ∅ (Config.get_model_config x) in
  (LMDeploy.LMDEPLOY_AVAILABLE E = false \/ x = "" ->
   Gateway.startup_event E now (mkWorld m cs) = Some (mkWorld m cs)) /\
  (LMDeploy.LMDEPLOY_AVAILABLE E = true -> x <> "" ->
   _models m !! x = None -> held x m = false ->
   Gateway.startup_event E now (mkWorld m cs)
   = Some (mkWorld
             match LMDeploy.pipeline E (length cs) x cfg with
             | Built pipe => cache_model now x pipe (Config.get_model_config x) (release x m)
             | BuiltNone | Failed _ => release x m
             end
             ((x, cfg) :: cs))).
Proof.
  intros x cfg. unfold Gateway.startup_event. fold x. split.
  - intros [->| ->]; [done|]. by rewrite andb_false_r.
  - intros Ha Hne Hx Hl. rewrite Ha. rewrite bool_decide_eq_false_2 by done. simpl.
    rewrite (lmdeploy_load_fresh E now x ∅ m cs Ha Hx Hl). simpl. fold cfg.
    by destruct (LMDeploy.pipeline E (length cs) x cfg).
Qed.

Lemma startup_event_preloads_default_witness :
  (exists w', Gateway.startup_event working 1%float empty_world = Some w' /\
              is_Some (_models (manager w') !! "TheBloke/deepseek-coder-1.3b-instruct-AWQ")) /\
  (exists w', Gateway.startup_event broken 1%float empty_world = Some w' /\
              _models (manager w') = ∅) /\
  Gateway.startup_event missing 1%float empty_world = Some empty_world.
Proof.
  split; [|split].
  - eexists. split.
    + apply (startup_event_preloads_default working 1%float new_manager []);
        [reflexivity|discriminate|reflexivity|reflexivity].
    + simpl. unfold cache_model. simpl. rewrite lookup_insert_eq. by eexists.
  - eexists. split.
    + apply (startup_event_preloads_default broken 1%float new_manager []);
        [reflexivity|discriminate|reflexivity|reflexivity].
    + reflexivity.
  - apply (startup_event_preloads_default missing 1%float new_manager []). by left.
Defined.

(** ** Overrides in the vLLM manager *)

(** In the vLLM manager, a call of [load_model] for a model that is not
    cached, with a keyword argument that has one of the names the call
    site of [AsyncEngineArgs] writes out ([max_model_len],
    [max_num_seqs], [tensor_parallel_size], [gpu_memory_utilization],
    [model]): the call of [AsyncEngineArgs] is given that keyword twice
    and raises, the engine constructor is never called, nothing is
    cached, and [load_model] returns [None], for every backend. With no
    such keyword the constructor is called once, and the remaining
    keyword arguments reach it unchanged. *)
Theorem vllm_named_override_never_loads
    (V : VLLM.Env) (now : float) (x : string) (kw : gmap string value)
    (m : Manager) (cs : list (string * VLLM.EngineArgs)) :
  VLLM.VLLM_AVAILABLE V = true ->
  _models m !! x = None ->
  held x m = false ->
  ((exists k, k ∈ VLLM.named_keywords /\ is_Some (kw !! k)) ->
   VLLM.load_model V now x kw (mkWorld m cs) = Some (None, mkWorld (release x m) cs)) /\
  ((forall k, k ∈ VLLM.named_keywords -> kw !! k = None) ->
   exists r w' args,
     VLLM.load_model V now x kw (mkWorld m cs) = Some (r, w') /\
     constructed w' = (x, args) :: cs /\
     VLLM.model args = x /\ VLLM.more args = kw).
Proof.
  intros Ha Hx Hl. rewrite (vllm_load_fresh V now x kw m cs Ha Hx Hl).
  unfold VLLM.AsyncEngineArgs. split.
  - intros (k & Hk & Hkw).
    destruct (filter _ VLLM.named_keywords) as [|k' ks] eqn:Hf; [|done].
    assert (k ∈ filter (fun k => is_Some (kw !! k)) VLLM.named_keywords) as Hin
      by (by apply list_elem_of_filter).
    rewrite Hf in Hin. by apply elem_of_nil in Hin.
  - intros Hnone.
    destruct (filter _ VLLM.named_keywords) as [|k' ks] eqn:Hf.
    + destruct (VLLM.from_engine_args V (length cs) _) as [engine|e];
        eexists _, _, _; (split; [reflexivity|]); simpl; done.
    + assert (k' ∈ filter (fun k => is_Some (kw !! k)) VLLM.named_keywords) as Hin
        by (rewrite Hf; left).
      apply list_elem_of_filter in Hin as [[v Hv] Hk'].
      rewrite (Hnone k' Hk') in Hv. discriminate Hv.
Qed.

Lemma vllm_named_override_never_loads_witness :
  VLLM.load_model vllm_working 1%float "m" {["max_num_seqs" := VInt 4]} empty_world
  = Some (None, mkWorld (release "m" new_manager) []).
Proof.
  apply (vllm_named_override_never_loads vllm_working 1%float "m"
           {["max_num_seqs" := VInt 4]} new_manager [] eq_refl eq_refl eq_refl).
  exists "max_num_seqs". split.
  - unfold VLLM.named_keywords. apply list_elem_of_In. simpl. tauto.
  - rewrite lookup_singleton_eq. by eexists.
Defined.

(** ** The table of locks *)

(** No entry of the table of locks is lost from [m] to [m']. *)
Definition locks_kept (m m' : Manager) : Prop :=
  dom (_loading_locks m) ⊆ dom (_loading_locks m').

(** A method that leaves the table of locks as it is. *)
Definition keeps_locks {A} (c : M A) : Prop :=
  forall m, _loading_locks (c m).2 = _loading_locks m.

Lemma locks_kept_refl m : locks_kept m m.
Proof. unfold locks_kept. reflexivity. Qed.
#[local] Hint Resolve locks_kept_refl : core.

Lemma locks_kept_trans m1 m2 m3 : locks_kept m1 m2 -> locks_kept m2 m3 -> locks_kept m1 m3.
Proof. unfold locks_kept. intros H12 H23. by etrans. Qed.

Lemma locks_kept_insert m m' x b :
  _loading_locks m' = <[x := b]> (_loading_locks m) -> locks_kept m m'.
Proof. unfold locks_kept. intros ->. apply dom_insert_subseteq. Qed.

Lemma locks_kept_same m m' : _loading_locks m' = _loading_locks m -> locks_kept m m'.
Proof. unfold locks_kept. by intros ->. Qed.

Lemma locks_kept_ensure_lock x m : locks_kept m (ensure_lock x m).
Proof.
  unfold ensure_lock. destruct (_loading_locks m !! x); [done|].
  by apply locks_kept_insert with x false.
Qed.

Lemma keeps_locks_bind {A B} (c : M A) (k : A -> M B) :
  keeps_locks c -> (forall a, keeps_locks (k a)) -> keeps_locks (c ≫= k).
Proof.
  intros Hc Hk m. unfold mbind, M_bind, bind. specialize (Hc m).
  destruct (c m) as [[a|e] m']; simpl in *; [|done]. by rewrite Hk.
Qed.

Lemma keeps_locks_try_except {A} (c : M A) (h : exn -> M A) :
  keeps_locks c -> (forall e, keeps_locks (h e)) -> keeps_locks (try_except c h).
Proof.
  intros Hc Hh m. unfold try_except. specialize (Hc m).
  destruct (c m) as [[a|e] m']; simpl in *; [done|]. by rewrite Hh.
Qed.

Lemma keeps_locks_for_each {A} (xs : list A) (body : A -> M unit) :
  (forall x, keeps_locks (body x)) -> keeps_locks (for_each xs body).
Proof.
  intros Hbody. induction xs as [|x xs IH]; [done|].
  simpl. apply keeps_locks_bind; [apply Hbody|]. intros _. apply IH.
Qed.

Lemma keeps_locks_dels k :
  keeps_locks (del_models k) /\ keeps_locks (del_model_configs k) /\
  keeps_locks (del_last_used k).
Proof.
  split; [|split]; intros m.
  - unfold del_models. run_m. by destruct (_models m !! k).
  - unfold del_model_configs. run_m. by destruct (_model_configs m !! k).
  - unfold del_last_used. run_m. by destruct (_last_used m !! k).
Qed.

Lemma lmdeploy_unload_keeps_locks x : keeps_locks (LMDeploy.unload_model x).
Proof.
  destruct (keeps_locks_dels x) as (Hm & Hc & Hu).
  unfold LMDeploy.unload_model. apply keeps_locks_bind; [done|]. intros m.
  destruct (_models m !! x) as [pipe|]; [|done].
  apply keeps_locks_bind.
  { apply keeps_locks_try_except; [|done].
    unfold LMDeploy.close_if_present. by destruct (close pipe). }
  intros _. apply keeps_locks_bind; [done|]. intros _.
  apply keeps_locks_bind; [done|]. intros _.
  apply keeps_locks_bind; [done|]. done.
Qed.

Lemma vllm_unload_keeps_locks x : keeps_locks (VLLM.unload_model x).
Proof.
  destruct (keeps_locks_dels x) as (Hm & Hc & Hu).
  unfold VLLM.unload_model. apply keeps_locks_bind; [done|]. intros m.
  destruct (_models m !! x) as [engine|]; [|done].
  apply keeps_locks_bind; [done|]. intros _.
  apply keeps_locks_bind; [done|]. intros _.
  apply keeps_locks_bind; [done|]. done.
Qed.

Lemma lmdeploy_step_locks E now inv t w t' w' :
  LMDeploy.load_model_step E now inv t w = Some (t', w') ->
  locks_kept (manager w) (manager w').
Proof.
  intros Hs.
  assert (forall m0 t1 w1,
            locks_kept (manager w) m0 ->
            LMDeploy.locked_body E now inv (mkWorld m0 (constructed w)) = (t1, w1) ->
            locks_kept (manager w) (manager w1)) as Hbody.
  { intros m0 t1 w1 H0 Hb. apply locks_kept_trans with m0; [done|].
    destruct (lmdeploy_locked_body_cases E now inv (mkWorld m0 (constructed w)))
      as [(r & m1 & Heq & Hlocks)|(mc & o & cs' & Heq)];
      rewrite Heq in Hb; injection Hb as <- <-; simpl; [|done].
    by eapply locks_kept_insert. }
  destruct t as [| |mc o|r]; simpl in Hs; [| | |done].
  - injection Hs as Hs. unfold LMDeploy.start in Hs.
    destruct (negb (LMDeploy.LMDEPLOY_AVAILABLE E)); [by injection Hs as <- <-|].
    destruct (cached now (model_name inv) (manager w)) as [[h m']|] eqn:Hc.
    { injection Hs as <- <-. unfold cached in Hc.
      destruct (_models (manager w) !! model_name inv); [|done]. injection Hc as _ <-.
      by apply locks_kept_same. }
    simpl in Hs. destruct (held _ _).
    + injection Hs as <- <-. apply locks_kept_ensure_lock.
    + refine (Hbody _ _ _ _ Hs).
      apply locks_kept_trans with (ensure_lock (model_name inv) (manager w));
        [apply locks_kept_ensure_lock|]. by eapply locks_kept_insert.
  - destruct (held _ _); [done|]. injection Hs as Hs.
    refine (Hbody _ _ _ _ Hs). by eapply locks_kept_insert.
  - injection Hs as Hs. unfold LMDeploy.finish_load in Hs.
    destruct o; injection Hs as <- <-; by eapply locks_kept_insert.
Qed.

Lemma vllm_step_locks E now inv t w t' w' :
  VLLM.load_model_step E now inv t w = Some (t', w') ->
  locks_kept (manager w) (manager w').
Proof.
  intros Hs.
  assert (forall m0 t1 w1,
            locks_kept (manager w) m0 ->
            VLLM.locked_body E now inv (mkWorld m0 (constructed w)) = (t1, w1) ->
            locks_kept (manager w) (manager w1)) as Hbody.
  { intros m0 t1 w1 H0 Hb. apply locks_kept_trans with m0; [done|].
    destruct (vllm_locked_body_cases E now inv (mkWorld m0 (constructed w)))
      as (r & m1 & cs' & Heq & Hlocks).
    rewrite Heq in Hb. injection Hb as <- <-. simpl. by eapply locks_kept_insert. }
  destruct t as [| |mc o|r]; simpl in Hs; [| |done|done].
  - injection Hs as Hs. unfold VLLM.start in Hs.
    destruct (negb (VLLM.VLLM_AVAILABLE E)); [by injection Hs as <- <-|].
    destruct (cached now (model_name inv) (manager w)) as [[h m']|] eqn:Hc.
    { injection Hs as <- <-. unfold cached in Hc.
      destruct (_models (manager w) !! model_name inv); [|done]. injection Hc as _ <-.
      by apply locks_kept_same. }
    simpl in Hs. destruct (held _ _).
    + injection Hs as <- <-. apply locks_kept_ensure_lock.
    + refine (Hbody _ _ _ _ Hs).
      apply locks_kept_trans with (ensure_lock (model_name inv) (manager w));
        [apply locks_kept_ensure_lock|]. by eapply locks_kept_insert.
  - destruct (held _ _); [done|]. injection Hs as Hs.
    refine (Hbody _ _ _ _ Hs). by eapply locks_kept_insert.
Qed.

Lemma lmdeploy_start_creates_lock E now x kw m cs :
  LMDeploy.LMDEPLOY_AVAILABLE E = true ->
  _models m !! x = None ->
  is_Some (_loading_locks (manager (LMDeploy.start E now (Invoke x kw) (mkWorld m cs)).2) !! x).
Proof.
  intros Ha Hx. unfold LMDeploy.start. rewrite Ha. simpl.
  rewrite (cached_None _ _ _ Hx).
  assert (is_Some (_loading_locks (ensure_lock x m) !! x)) as Hlock.
  { unfold ensure_lock. destruct (_loading_locks m !! x) eqn:Hl.
    - rewrite Hl. by eexists.
    - simpl. rewrite lookup_insert_eq. by eexists. }
  destruct (held x _); [done|].
  destruct (lmdeploy_locked_body_cases E now (Invoke x kw)
              (on_manager (acquire x) (on_manager (ensure_lock x) (mkWorld m cs))))
    as [(r & m1 & Heq & Hlocks)|(mc & o & cs' & Heq)]; rewrite Heq; simpl.
  - rewrite Hlocks. simpl. rewrite lookup_insert_eq. by eexists.
  - rewrite lookup_insert_eq. by eexists.
Qed.

(** The table of locks only grows. Loading, under every schedule and
    for every backend, loses no entry of it; unloading a model, cleaning
    up idle models and shutting the server down leave it exactly as it
    is, also when they raise. So an identifier that was once asked for
    keeps its lock for the life of the manager, loaded or not. *)
Theorem locks_are_never_removed (E : LMDeploy.Env) (V : VLLM.Env) :
  (forall sched ts w,
     locks_kept (manager w) (manager (run (LMDeploy.load_model_step E) sched ts w).2)) /\
  (forall sched ts w,
     locks_kept (manager w) (manager (run (VLLM.load_model_step V) sched ts w).2)) /\
  (forall x, keeps_locks (LMDeploy.unload_model x) /\ keeps_locks (VLLM.unload_model x) /\
             keeps_locks (Gateway.unload_model x)) /\
  (forall current_time max_idle_time,
     keeps_locks (LMDeploy.cleanup_unused_models current_time max_idle_time) /\
     keeps_locks (VLLM.cleanup_unused_models current_time max_idle_time)) /\
  keeps_locks Gateway.shutdown_event /\
  (forall now x kw m cs r w',
     LMDeploy.LMDEPLOY_AVAILABLE E = true -> _models m !! x = None ->
     LMDeploy.load_model E now x kw (mkWorld m cs) = Some (r, w') ->
     is_Some (_loading_locks (LMDeploy.unload_model x (manager w')).2 !! x)).
Proof.
  split; [|split; [|split; [|split; [|split]]]].
  - intros sched ts w.
    apply (run_preserves (LMDeploy.load_model_step E)
             (fun w' => locks_kept (manager w) (manager w'))); [|done].
    intros now inv t w1 t' w2 H1 Hs. apply locks_kept_trans with (manager w1); [done|].
    by eapply lmdeploy_step_locks.
  - intros sched ts w.
    apply (run_preserves (VLLM.load_model_step V)
             (fun w' => locks_kept (manager w) (manager w'))); [|done].
    intros now inv t w1 t' w2 H1 Hs. apply locks_kept_trans with (manager w1); [done|].
    by eapply vllm_step_locks.
  - intros x. split; [apply lmdeploy_unload_keeps_locks|].
    split; [apply vllm_unload_keeps_locks|].
    unfold Gateway.unload_model. apply keeps_locks_try_except; [|done].
    apply keeps_locks_bind; [apply lmdeploy_unload_keeps_locks|]. by intros [].
  - intros current_time max_idle_time. split.
    + unfold LMDeploy.cleanup_unused_models. apply keeps_locks_bind; [done|]. intros m.
      apply keeps_locks_for_each. intros x.
      apply keeps_locks_bind; [apply lmdeploy_unload_keeps_locks|done].
    + unfold VLLM.cleanup_unused_models. apply keeps_locks_bind; [done|]. intros m.
      apply keeps_locks_for_each. intros x.
      apply keeps_locks_bind; [apply vllm_unload_keeps_locks|done].
  - unfold Gateway.shutdown_event. apply keeps_locks_bind; [done|]. intros m.
    apply keeps_locks_for_each. intros x.
    apply keeps_locks_bind; [apply lmdeploy_unload_keeps_locks|done].
  - intros now x kw m cs r w' Ha Hx Hload.
    rewrite lmdeploy_unload_keeps_locks.
    unfold LMDeploy.load_model, await_call in Hload.
    assert (is_Some (_loading_locks
                       (manager (run (LMDeploy.load_model_step E) [(0%nat, now); (0%nat, now)]
                                     [(Invoke x kw, Created)] (mkWorld m cs)).2) !! x)) as Hlock.
    { cbn [run]. unfold resume at 1. cbn [lookup list_lookup LMDeploy.load_model_step].
      pose proof (lmdeploy_start_creates_lock E now x kw m cs Ha Hx) as Hstart.
      destruct (LMDeploy.start E now (Invoke x kw) (mkWorld m cs)) as [t1 w1].
      destruct (resume _ now 0 _ w1) as [ts2 w2] eqn:Hr. simpl.
      assert (locks_kept (manager w1) (manager w2)) as H12.
      { unfold resume in Hr. destruct (_ !! 0%nat) as [[inv t]|]; [|by injection Hr as _ <-].
        destruct (LMDeploy.load_model_step E now inv t w1) as [[t' w'']|] eqn:Hs;
          injection Hr as _ <-; [|apply locks_kept_refl].
        by eapply lmdeploy_step_locks. }
      apply elem_of_dom, H12, elem_of_dom, Hstart. }
    destruct (run _ _ _ _) as [ts2 w2]. simpl in Hlock.
    destruct ts2 as [|[inv [| | |r2]] [|? ?]]; try done. by injection Hload as _ <-.
Qed.

(** ** What a client sees of a load that fails *)

(** A streaming request for a model whose construction fails is
    answered with status 200 and a stream of one object, which carries
    [done: true], an empty response and a duration of 0, and no word of
    the failure; the chat endpoint does the same with an empty assistant
    message. The same request without streaming is answered with status
    500. *)
Theorem streaming_load_failure_is_silent
    (E : LMDeploy.Env) (clock : Gateway.Clock) (now : float)
    (x prompt : string) (options : option (gmap string value))
    (messages : list Gateway.ChatMessage)
    (m : Manager) (cs : list (string * LMDeploy.EngineConfig)) :
  LMDeploy.LMDEPLOY_AVAILABLE E = true ->
  _models m !! x = None ->
  held x m = false ->
  let cfg := LMDeploy.engine_config E ∅ (Config.get_model_config x) in
  no_instance (LMDeploy.pipeline E (length cs) x cfg) ->
  let w' := mkWorld (release x m) ((x, cfg) :: cs) in
  Gateway.generate E clock now (Gateway.Build_GenerateRequest x prompt true options)
                   (mkWorld m cs)
  = Some (Ret (Gateway.Streaming
                 [{| Gateway.model := x;
                     Gateway.created_at := Gateway.isoformat_now clock 0;
                     Gateway.response := ""; Gateway.done := true;
                     Gateway.total_duration := Some 0%Z; Gateway.eval_count := None;
                     Gateway.eval_duration := None |}]), w') /\
  Gateway.chat E clock now (Gateway.Build_ChatRequest x messages true options)
               (mkWorld m cs)
  = Some (Ret (Gateway.ChatStreaming
                 [{| Gateway.chat_model := x;
                     Gateway.chat_created_at := Gateway.isoformat_now clock 0;
                     Gateway.message := {| Gateway.role := "assistant";
                                           Gateway.content := "" |};
                     Gateway.chat_done := true;
                     Gateway.chat_total_duration := Some 0%Z;
                     Gateway.chat_eval_count := None;
                     Gateway.chat_eval_duration := None |}]), w') /\
  Gateway.generate E clock now (Gateway.Build_GenerateRequest x prompt false options)
                   (mkWorld m cs)
  = Some (Raise (HTTPException 500 ("500: Failed to generate text with model " +:+ x)), w').
Proof.
  intros Ha Hx Hl cfg Hnone w'.
  assert (LMDeploy.load_model E now x ∅ (mkWorld m cs) = Some (None, w')) as Hload.
  { rewrite (lmdeploy_load_fresh E now x ∅ m cs Ha Hx Hl). fold cfg.
    by destruct (LMDeploy.pipeline E (length cs) x cfg). }
  split; [|split].
  - unfold Gateway.generate, Gateway.generate_stream, LMDeploy.generate_stream.
    rewrite Ha. simpl. by rewrite Hload.
  - unfold Gateway.chat, Gateway.chat_stream, LMDeploy.generate_stream.
    rewrite Ha. simpl. by rewrite Hload.
  - unfold Gateway.generate, LMDeploy.generate_text.
    rewrite Ha. simpl. by rewrite Hload.
Qed.

Lemma streaming_load_failure_is_silent_witness :
  exists lines w',
    Gateway.generate broken wall_clock 1%float
      (Gateway.Build_GenerateRequest "m" "hi" true None) empty_world
    = Some (Ret (Gateway.Streaming lines), w') /\
    map Gateway.response lines = [""] /\ map Gateway.done lines = [true].
Proof.
  eexists _, _. split.
  - exact (proj1 (streaming_load_failure_is_silent broken wall_clock 1%float "m" "hi" None []
                    new_manager [] eq_refl eq_refl eq_refl I)).
  - split; reflexivity.
Defined.

(** The load endpoint answers with success exactly when the manager
    hands it a pipeline: for a cached model without calling the
    constructor, for another one when the constructor builds it. It
    answers with status 500 and one and the same detail when the
    constructor fails and when the backend is not there at all, where
    the generation endpoints answer 503. *)
Theorem load_endpoint_answers
    (E : LMDeploy.Env) (now : float) (x : string) (m : Manager)
    (cs : list (string * LMDeploy.EngineConfig)) :
  let success := Ret ("success", "Model " +:+ x +:+ " loaded successfully") in
  let failure := Raise (HTTPException 500 ("500: Failed to load model " +:+ x)) in
  let cfg := LMDeploy.engine_config E ∅ (Config.get_model_config x) in
  (LMDeploy.LMDEPLOY_AVAILABLE E = false ->
   Gateway.load_model E now x (mkWorld m cs) = Some (failure, mkWorld m cs)) /\
  (LMDeploy.LMDEPLOY_AVAILABLE E = true -> is_Some (_models m !! x) ->
   Gateway.load_model E now x (mkWorld m cs)
   = Some (success, mkWorld (set_last_used <[x := now]> m) cs)) /\
  (LMDeploy.LMDEPLOY_AVAILABLE E = true -> _models m !! x = None -> held x m = false ->
   exists w',
     Gateway.load_model E now x (mkWorld m cs)
     = Some (match LMDeploy.pipeline E (length cs) x cfg with
             | Built _ => success
             | BuiltNone | Failed _ => failure
             end, w') /\
     constructed w' = (x, cfg) :: cs).
Proof.
  intros success failure cfg. unfold Gateway.load_model. split; [|split].
  - intros Ha. by rewrite (lmdeploy_load_unavailable E now x ∅ _ Ha).
  - intros Ha [pipe Hx]. by rewrite (lmdeploy_load_cached E now x ∅ m cs pipe Ha Hx).
  - intros Ha Hx Hl. rewrite (lmdeploy_load_fresh E now x ∅ m cs Ha Hx Hl). fold cfg.
    destruct (LMDeploy.pipeline E (length cs) x cfg); simpl; by eexists.
Qed.

Lemma load_endpoint_answers_witness :
  Gateway.load_model missing 1%float "m" empty_world
  = Some (Raise (HTTPException 500 "500: Failed to load model m"), empty_world) /\
  (exists w', Gateway.load_model broken 1%float "m" empty_world
              = Some (Raise (HTTPException 500 "500: Failed to load model m"), w')) /\
  (exists w', Gateway.load_model working 1%float "m" empty_world
              = Some (Ret ("success", "Model m loaded successfully"), w')).
Proof.
  split; [|split].
  - apply (load_endpoint_answers missing 1%float "m" new_manager []). reflexivity.
  - destruct (load_endpoint_answers broken 1%float "m" new_manager []) as (_ & _ & H).
    destruct (H eq_refl eq_refl eq_refl) as (w' & Heq & _). by exists w'.
  - destruct (load_endpoint_answers working 1%float "m" new_manager []) as (_ & _ & H).
    destruct (H eq_refl eq_refl eq_refl) as (w' & Heq & _). by exists w'.
Defined.
